(** * Real-time order book: aggregation, execution simulation, feed
      normalisation and reconnection

    A shallow embedding of [src/services/api/websocketService.ts]
    (exchange adapters and the WebSocket service) and of the order-book
    service that lives in the same source unit ([processOrderBookData],
    [simulateOrder], [estimateTimeToFill], [getAvailableSymbols]), of the
    hooks [useOrderSimulation] and [useOrderBook] that call them, with
    [debounce], of [validateForm] and of the volume shares of
    [OrderbookImbalance], together with the properties the specification
    states about them and further properties read off the code.

    JavaScript numbers are abstracted by the interface [Number], with two
    implementations:
    - [xnum], exact arithmetic over the rationals extended with
      [+Infinity], [-Infinity] and [NaN]: division by zero, [0/0], and the
      behaviour of comparisons, [Math.min], [Math.max] and truthiness on
      the special values are as in IEEE 754, rounding is not modelled, a
      sum or product of finite numbers is finite (no overflow) and there
      is no negative zero.  Arithmetic properties of every input are
      proved in this model when they are about order, sign and ranges, or
      about operations that binary64 performs exactly ([q - q], [q / q],
      [0 / 0], ...), and where an overflow would break them it is excluded
      by a hypothesis;
    - [float], the binary64 numbers of the kernel, on which the functions
      are evaluated at concrete inputs exactly as a JavaScript engine
      evaluates them.
    Properties that do not depend on the arithmetic are proved for every
    implementation of [Number], hence for binary64. *)

From Stdlib Require Import QArith Qreduction Qminmax Floats ZArith Lia Lqa Ascii.
From stdpp Require Import base option list gmap strings pretty.

Set Default Proof Using "Type".

(** ** Numbers *)

Class Number (N : Type) := {
  of_Z : Z -> N;          (* integer literals, array lengths and counters *)
  nadd : N -> N -> N;
  nsub : N -> N -> N;
  nmul : N -> N -> N;
  ndiv : N -> N -> N;
  nmin : N -> N -> N;     (* Math.min *)
  nmax : N -> N -> N;     (* Math.max *)
  nlt : N -> N -> bool;   (* a < b *)
  nle : N -> N -> bool;   (* a <= b *)
  truthy : N -> bool      (* ToBoolean: false on 0 and NaN *)
}.

Declare Scope js_scope.
Delimit Scope js_scope with js.
Infix "+" := nadd : js_scope.
Infix "-" := nsub : js_scope.
Infix "*" := nmul : js_scope.
Infix "/" := ndiv : js_scope.
Infix "<?" := nlt : js_scope.
Infix "<=?" := nle : js_scope.

Definition of_nat {N : Type} `{!Number N} (n : nat) : N := of_Z (Z.of_nat n).

(** [a || b] on numbers. *)
Definition or_else {N : Type} `{!Number N} (a b : N) : N := if truthy a then a else b.

(** *** Exact model *)

Inductive xnum : Type :=
| Fin (q : Q)
| PInf
| NInf
| NaN.

(** Finite results are kept in lowest terms, so that equal numbers are
    equal terms. *)
Definition fin (q : Q) : xnum := Fin (Qred q).

Definition Qpos_b (q : Q) : bool := negb (Qle_bool q 0).

Definition xadd (a b : xnum) : xnum :=
  match a, b with
  | NaN, _ | _, NaN => NaN
  | Fin x, Fin y => fin (x + y)
  | PInf, NInf | NInf, PInf => NaN
  | PInf, _ | _, PInf => PInf
  | NInf, _ | _, NInf => NInf
  end.

Definition xsub (a b : xnum) : xnum :=
  match a, b with
  | NaN, _ | _, NaN => NaN
  | Fin x, Fin y => fin (x - y)
  | PInf, PInf | NInf, NInf => NaN
  | PInf, _ | _, NInf => PInf
  | NInf, _ | _, PInf => NInf
  end.

(** The infinity with the sign of [q], [NaN] when [q] is zero. *)
Definition inf_of_sign (q : Q) : xnum :=
  if Qeq_bool q 0 then NaN else if Qpos_b q then PInf else NInf.

Definition xneg (a : xnum) : xnum :=
  match a with
  | Fin x => fin (- x)
  | PInf => NInf
  | NInf => PInf
  | NaN => NaN
  end.

Definition xmul (a b : xnum) : xnum :=
  match a, b with
  | NaN, _ | _, NaN => NaN
  | Fin x, Fin y => fin (x * y)
  | Fin x, PInf | PInf, Fin x => inf_of_sign x
  | Fin x, NInf | NInf, Fin x => xneg (inf_of_sign x)
  | PInf, PInf | NInf, NInf => PInf
  | PInf, NInf | NInf, PInf => NInf
  end.

Definition xdiv (a b : xnum) : xnum :=
  match a, b with
  | NaN, _ | _, NaN => NaN
  | Fin x, Fin y => if Qeq_bool y 0 then inf_of_sign x else fin (x / y)
  | Fin _, (PInf | NInf) => Fin 0
  | PInf, Fin y => if Qle_bool 0 y then PInf else NInf
  | NInf, Fin y => if Qle_bool 0 y then NInf else PInf
  | (PInf | NInf), (PInf | NInf) => NaN
  end.

Definition xle (a b : xnum) : bool :=
  match a, b with
  | NaN, _ | _, NaN => false
  | Fin x, Fin y => Qle_bool x y
  | NInf, _ | _, PInf => true
  | _, _ => false
  end.

Definition xlt (a b : xnum) : bool :=
  match a, b with
  | NaN, _ | _, NaN => false
  | Fin x, Fin y => negb (Qle_bool y x)
  | PInf, _ | _, NInf => false
  | _, _ => true
  end.

Definition xmin (a b : xnum) : xnum :=
  match a, b with
  | NaN, _ | _, NaN => NaN
  | _, _ => if xle a b then a else b
  end.

Definition xmax (a b : xnum) : xnum :=
  match a, b with
  | NaN, _ | _, NaN => NaN
  | _, _ => if xle a b then b else a
  end.

Definition xtruthy (a : xnum) : bool :=
  match a with
  | Fin x => negb (Qeq_bool x 0)
  | PInf | NInf => true
  | NaN => false
  end.

#[export] Instance xnum_number : Number xnum := {|
  of_Z z := Fin (z # 1);
  nadd := xadd; nsub := xsub; nmul := xmul; ndiv := xdiv;
  nmin := xmin; nmax := xmax; nlt := xlt; nle := xle;
  truthy := xtruthy
|}.

(** *** IEEE 754 binary64 *)

Definition float_of_Z (z : Z) : float :=
  match z with
  | Zneg p => PrimFloat.opp (PrimFloat.of_uint63 (Uint63.of_Z (Zpos p)))
  | _ => PrimFloat.of_uint63 (Uint63.of_Z z)
  end.

Definition is_neg_zero (a : float) : bool :=
  PrimFloat.eqb a 0%float && PrimFloat.ltb (PrimFloat.div 1%float a) 0%float.

Definition float_min (a b : float) : float :=
  if PrimFloat.is_nan a || PrimFloat.is_nan b then PrimFloat.nan
  else if PrimFloat.ltb a b then a
  else if PrimFloat.ltb b a then b
  else if is_neg_zero a then a else b.

Definition float_max (a b : float) : float :=
  if PrimFloat.is_nan a || PrimFloat.is_nan b then PrimFloat.nan
  else if PrimFloat.ltb a b then b
  else if PrimFloat.ltb b a then a
  else if is_neg_zero a then b else a.

Definition float_truthy (a : float) : bool :=
  negb (PrimFloat.eqb a 0%float || PrimFloat.is_nan a).

#[export] Instance float_number : Number float := {|
  of_Z := float_of_Z;
  nadd := PrimFloat.add; nsub := PrimFloat.sub;
  nmul := PrimFloat.mul; ndiv := PrimFloat.div;
  nmin := float_min; nmax := float_max;
  nlt := PrimFloat.ltb; nle := PrimFloat.leb;
  truthy := float_truthy
|}.

(** ** Exceptions

    A JavaScript computation either returns a value or throws. *)

Inductive js_error : Type := TypeError | SyntaxError.

Inductive outcome (A : Type) : Type :=
| Return (a : A)
| Throw (e : js_error).
Arguments Return {A} a.
Arguments Throw {A} e.

#[export] Instance outcome_bind : MBind outcome := fun A B k m =>
  match m with
  | Return a => k a
  | Throw e => Throw e
  end.

(** [try { m } catch (error) { return h }] *)
Definition try_catch {A} (m : outcome A) (h : A) : outcome A :=
  match m with
  | Return a => Return a
  | Throw _ => Return h
  end.

(** ** Data model ([types/orderbook]) *)

Section DataModel.
Context {N : Type}.

Record OrderLevel : Type := mkLevel {
  price : N;
  quantity : N;
  total : option N;        (* cumulative quantity at this level *)
  percentage : option N    (* for visualization *)
}.

Record OrderBook : Type := mkBook {
  bids : list OrderLevel;
  asks : list OrderLevel;
  timestamp : N
}.
End DataModel.
Arguments OrderLevel N : clear implicits.
Arguments OrderBook N : clear implicits.

Inductive Exchange : Type := OKX | Bybit | Deribit.
Inductive OrderType : Type := Market | Limit.
Inductive OrderSide : Type := Buy | Sell.
Inductive DelayOption : Type := immediate | delay_5s | delay_10s | delay_30s.

(** The fields [price] and [quantity] of the source's [OrderForm] are
    [form_price] and [form_quantity] here, the level's fields having taken
    the names. *)
Record OrderForm (N : Type) : Type := mkForm {
  exchange : Exchange;
  symbol : string;
  type : OrderType;
  side : OrderSide;
  form_price : option N;     (* number | null *)
  form_quantity : N;
  delay : DelayOption
}.
Arguments mkForm {N}.
Arguments exchange {N}. Arguments symbol {N}. Arguments type {N}.
Arguments side {N}. Arguments form_price {N}. Arguments form_quantity {N}.
Arguments delay {N}.

Record OrderSimulation (N : Type) : Type := mkSimulation {
  form : OrderForm N;
  fillPercentage : N;
  marketImpact : N;
  slippage : N;
  timeToFill : option string;
  active : bool
}.
Arguments mkSimulation {N}.
Arguments form {N}. Arguments fillPercentage {N}. Arguments marketImpact {N}.
Arguments slippage {N}. Arguments timeToFill {N}. Arguments active {N}.

(** ** Order book aggregator: [processOrderBookData] *)

Section Aggregator.
Context {N : Type} `{!Number N}.
Local Open Scope js_scope.

(** [Array.prototype.sort(cmp)]: a stable sort; [a] goes before [b] when
    [cmp a b < 0], and a comparator result of [0] or [NaN] keeps the
    order of the input.  Modelled by the stable insertion sort, which is
    what every stable sort computes when the comparator is consistent.
    (With a price that is [NaN] the comparators of the program are not
    consistent, and the order an engine leaves is its own.) *)
Fixpoint sort_insert {A} (cmp : A -> A -> N) (x : A) (l : list A) : list A :=
  match l with
  | [] => [x]
  | y :: l' => if cmp y x <? of_Z 0 then y :: sort_insert cmp x l' else x :: l
  end.

Fixpoint js_sort {A} (cmp : A -> A -> N) (l : list A) : list A :=
  match l with
  | [] => []
  | x :: l' => sort_insert cmp x (js_sort cmp l')
  end.

Definition set_total (l : OrderLevel N) (t : N) : OrderLevel N :=
  {| price := price l; quantity := quantity l;
     total := Some t; percentage := percentage l |}.

Definition set_percentage (l : OrderLevel N) (p : N) : OrderLevel N :=
  {| price := price l; quantity := quantity l;
     total := total l; percentage := Some p |}.

(** [levels.forEach(l => { run += l.quantity; l.total = run; })]:
    the levels after the loop and the final value of [run]. *)
Fixpoint accumulate (run : N) (levels : list (OrderLevel N))
  : list (OrderLevel N) * N :=
  match levels with
  | [] => ([], run)
  | l :: rest =>
      let run' := run + quantity l in
      let '(rest', final) := accumulate run' rest in
      (set_total l run' :: rest', final)
  end.

(** [l.total ? (l.total / maxTotal) * 100 : 0]; [l.total] is [undefined],
    hence falsy, on a level that was never given one. *)
Definition depth_percentage (maxTotal : N) (l : OrderLevel N) : N :=
  match total l with
  | Some t => if truthy t then (t / maxTotal) * of_Z 100 else of_Z 0
  | None => of_Z 0
  end.

Definition processOrderBookData (rawOrderBook : OrderBook N) : OrderBook N :=
  let bids0 := take 15 (js_sort (fun a b => price b - price a) (bids rawOrderBook)) in
  let asks0 := take 15 (js_sort (fun a b => price a - price b) (asks rawOrderBook)) in
  let '(bids1, bidTotal) := accumulate (of_Z 0) bids0 in
  let '(asks1, askTotal) := accumulate (of_Z 0) asks0 in
  let maxTotal := nmax bidTotal askTotal in
  let bids2 := map (fun l => set_percentage l (depth_percentage maxTotal l)) bids1 in
  let asks2 := map (fun l => set_percentage l (depth_percentage maxTotal l)) asks1 in
  {| bids := bids2; asks := asks2; timestamp := timestamp rawOrderBook |}.
End Aggregator.

(** ** Execution simulator: [simulateOrder] *)

Section Simulator.
Context {N : Type} `{!Number N}.
Local Open Scope js_scope.

(** The variables of the consumption loop. *)
Record fill_state : Type := mkFill {
  remainingQuantity : N;
  totalValue : N;
  filledLevels : nat
}.

(** [for (const level of levels) { if (remainingQuantity <= 0) break; ... }]
    The loop of the limit branch is the same one without the counter
    [filledLevels], which that branch does not read. *)
Fixpoint consume (levels : list (OrderLevel N)) (st : fill_state) : fill_state :=
  match levels with
  | [] => st
  | level :: rest =>
      if remainingQuantity st <=? of_Z 0 then st
      else
        let fillQuantity := nmin (remainingQuantity st) (quantity level) in
        consume rest
          {| remainingQuantity := remainingQuantity st - fillQuantity;
             totalValue := totalValue st + fillQuantity * price level;
             filledLevels := S (filledLevels st) |}
  end.

(** [`${delayMs / 1000}`] *)
Definition delay_seconds (d : DelayOption) : string :=
  match d with
  | delay_5s => "5"
  | delay_10s => "10"
  | _ => "30"
  end.

Definition estimateTimeToFill (d : DelayOption) (fillPercentage : N) : string :=
  match d with
  | immediate =>
      if of_Z 100 <=? fillPercentage then "Immediate" else "Partial fill"
  | _ =>
      if of_Z 100 <=? fillPercentage then "~" +:+ delay_seconds d +:+ "s"
      else if of_Z 75 <? fillPercentage then ">" +:+ delay_seconds d +:+ "s"
      else if of_Z 50 <? fillPercentage then ">>" +:+ delay_seconds d +:+ "s"
      else if of_Z 0 <? fillPercentage then ">>>" +:+ delay_seconds d +:+ "s"
      else "Unlikely to fill"
  end.

(** The scan for the order's place in the book: the index [i] of the
    first level the order price is strictly better than, [0] when the
    loop ends without a [break]. *)
Fixpoint find_position (s : OrderSide) (orderPrice : N)
    (relevantLevels : list (OrderLevel N)) (i : nat) : nat :=
  match relevantLevels with
  | [] => 0
  | level :: rest =>
      match s with
      | Buy => if price level <? orderPrice then i
               else find_position s orderPrice rest (S i)
      | Sell => if orderPrice <? price level then i
                else find_position s orderPrice rest (S i)
      end
  end.

(** [levels[0].price]; reading [price] of [undefined] throws. *)
Definition first_price (levels : list (OrderLevel N)) : outcome N :=
  match levels with
  | level :: _ => Return (price level)
  | [] => Throw TypeError
  end.

Definition inactive (f : OrderForm N) : OrderSimulation N :=
  {| form := f; fillPercentage := of_Z 0; marketImpact := of_Z 0;
     slippage := of_Z 0; timeToFill := None; active := false |}.

(** The branch [form.type === 'Market'] of [simulateOrder]. *)
Definition simulateMarket (f : OrderForm N) (orderBook : OrderBook N)
  : outcome (OrderSimulation N) :=
  let levels := match side f with Buy => asks orderBook | Sell => bids orderBook end in
  let st := consume levels (mkFill (form_quantity f) (of_Z 0) 0) in
  let fillPct :=
    ((form_quantity f - remainingQuantity st) / form_quantity f) * of_Z 100 in
  let averagePrice := totalValue st / (form_quantity f - remainingQuantity st) in
  bestPrice ← first_price
    (match side f with Buy => asks orderBook | Sell => bids orderBook end);
  let slip := match side f with
              | Buy => ((averagePrice - bestPrice) / bestPrice) * of_Z 100
              | Sell => ((bestPrice - averagePrice) / bestPrice) * of_Z 100
              end in
  let impact := (of_nat (filledLevels st) / of_nat (length levels)) * of_Z 100 in
  Return {| form := f; fillPercentage := fillPct; marketImpact := impact;
            slippage := nmax (of_Z 0) slip; timeToFill := Some "Immediate";
            active := true |}.

(** The [else] branch of [simulateOrder]: limit orders. *)
Definition simulateLimit (f : OrderForm N) (orderBook : OrderBook N)
  : outcome (OrderSimulation N) :=
  let orderPrice := match form_price f with
                    | Some p => or_else p (of_Z 0)
                    | None => of_Z 0
                    end in
  let levels := match side f with Buy => asks orderBook | Sell => bids orderBook end in
  let fillableLevels :=
    match side f with
    | Buy => List.filter (fun level => price level <=? orderPrice) levels
    | Sell => List.filter (fun level => orderPrice <=? price level) levels
    end in
  let st := consume fillableLevels (mkFill (form_quantity f) (of_Z 0) 0) in
  let fillPct :=
    ((form_quantity f - remainingQuantity st) / form_quantity f) * of_Z 100 in
  let impact :=
    if fillPct <? of_Z 100 then
      let relevantLevels :=
        match side f with Buy => bids orderBook | Sell => asks orderBook end in
      let depth := length relevantLevels in
      let position := find_position (side f) orderPrice relevantLevels 0 in
      (of_Z 1 - (of_nat position / of_nat depth)) * of_Z 50
    else
      of_nat (length fillableLevels) / of_nat (length levels) * of_Z 75 in
  let averageFilledPrice :=
    totalValue st / or_else (form_quantity f - remainingQuantity st) (of_Z 1) in
  let slip := match side f with
              | Buy => ((averageFilledPrice - orderPrice) / orderPrice) * of_Z 100
              | Sell => ((orderPrice - averageFilledPrice) / orderPrice) * of_Z 100
              end in
  Return {| form := f; fillPercentage := fillPct;
            marketImpact := nmin (of_Z 100) impact;
            slippage := nmax (of_Z 0) slip;
            timeToFill := Some (estimateTimeToFill (delay f) fillPct);
            active := true |}.

(** [orderBook] is [None] for a [null] or [undefined] argument, which
    the first guard of the source tests for. *)
Definition simulateOrder (f : OrderForm N) (orderBook : option (OrderBook N))
  : outcome (OrderSimulation N) :=
  match orderBook with
  | None => Return (inactive f)
  | Some book =>
      if bool_decide (length (bids book) = 0%nat) || bool_decide (length (asks book) = 0%nat)
      then Return (inactive f)
      else match type f with
           | Market => simulateMarket f book
           | Limit => simulateLimit f book
           end
  end.
End Simulator.

(** *** The market-order algorithm, as the specification words it

    "Walk levels, consuming up to [remainingQuantity] from each,
    accumulating [totalValue += filledQty * levelPrice] and
    [filledLevelsCount], until [remainingQuantity] reaches zero or levels
    are exhausted."  [spec_fills] lists, level by level from the front,
    the quantity taken and the price paid; the three results of the walk
    are read off that list. *)

Section MarketSpec.
Context {N : Type} `{!Number N}.
Local Open Scope js_scope.

Fixpoint spec_fills (remaining : N) (levels : list (OrderLevel N)) : list (N * N) :=
  match levels with
  | [] => []
  | level :: rest =>
      if remaining <=? of_Z 0 then []
      else
        let filledQty := nmin remaining (quantity level) in
        (filledQty, price level) :: spec_fills (remaining - filledQty) rest
  end.

Definition spec_remaining (q : N) (fills : list (N * N)) : N :=
  fold_left (fun r fp => r - fst fp) fills q.

Definition spec_totalValue (fills : list (N * N)) : N :=
  fold_left (fun v fp => v + fst fp * snd fp) fills (of_Z 0).

Definition consumed_side (s : OrderSide) (book : OrderBook N) : list (OrderLevel N) :=
  match s with Buy => asks book | Sell => bids book end.

(** [max(0, (averagePrice - bestPrice)/bestPrice*100)] for Buy,
    [max(0, (bestPrice - averagePrice)/bestPrice*100)] for Sell. *)
Definition spec_slippage (s : OrderSide) (averagePrice bestPrice : N) : N :=
  match s with
  | Buy => nmax (of_Z 0) (((averagePrice - bestPrice) / bestPrice) * of_Z 100)
  | Sell => nmax (of_Z 0) (((bestPrice - averagePrice) / bestPrice) * of_Z 100)
  end.
End MarketSpec.

(** ** The aggregator on shared level objects

    [processOrderBookData] copies the two arrays of its argument
    ([[...rawOrderBook.bids]]) before sorting, but the copies hold the same
    level objects as the argument, and the two [forEach] passes assign to
    their fields.  Here level objects live in a store and an array is the
    list of the addresses of its elements.  The arrays of the argument are
    never written to (only their copies are sorted and sliced), so they
    are plain lists. *)

Section AggregatorOnStore.
Context {N : Type} `{!Number N}.
Local Open Scope js_scope.

Record BookRef : Type := mkBookRef {
  bid_refs : list nat;
  ask_refs : list nat;
  ref_timestamp : N
}.

(** [a.price] for the object at address [a]; a reference is never
    dangling, the default is not reached on a well-formed store. *)
Definition price_at (h : gmap nat (OrderLevel N)) (a : nat) : N :=
  match h !! a with
  | Some l => price l
  | None => of_Z 0
  end.

(** [refs.forEach(l => { run += l.quantity; l.total = run; })] *)
Fixpoint accumulate_store (run : N) (refs : list nat) (h : gmap nat (OrderLevel N))
  : gmap nat (OrderLevel N) * N :=
  match refs with
  | [] => (h, run)
  | a :: rest =>
      match h !! a with
      | Some l =>
          let run' := run + quantity l in
          accumulate_store run' rest (<[a := set_total l run']> h)
      | None => accumulate_store run rest h
      end
  end.

(** [refs.forEach(l => { l.percentage = l.total ? ... : 0; })] *)
Fixpoint percentages_store (maxTotal : N) (refs : list nat)
    (h : gmap nat (OrderLevel N)) : gmap nat (OrderLevel N) :=
  match refs with
  | [] => h
  | a :: rest =>
      match h !! a with
      | Some l =>
          percentages_store maxTotal rest
            (<[a := set_percentage l (depth_percentage maxTotal l)]> h)
      | None => percentages_store maxTotal rest h
      end
  end.

Definition processOrderBookData_store
    (h : gmap nat (OrderLevel N)) (rawOrderBook : BookRef)
  : gmap nat (OrderLevel N) * BookRef :=
  let bids0 :=
    take 15 (js_sort (fun a b => price_at h b - price_at h a) (bid_refs rawOrderBook)) in
  let asks0 :=
    take 15 (js_sort (fun a b => price_at h a - price_at h b) (ask_refs rawOrderBook)) in
  let '(h1, bidTotal) := accumulate_store (of_Z 0) bids0 h in
  let '(h2, askTotal) := accumulate_store (of_Z 0) asks0 h1 in
  let maxTotal := nmax bidTotal askTotal in
  let h3 := percentages_store maxTotal bids0 h2 in
  let h4 := percentages_store maxTotal asks0 h3 in
  (h4, {| bid_refs := bids0; ask_refs := asks0;
          ref_timestamp := ref_timestamp rawOrderBook |}).

(** The book a reference denotes in a store. *)
Definition read_levels (h : gmap nat (OrderLevel N)) (refs : list nat)
  : option (list (OrderLevel N)) :=
  mapM (fun a => h !! a) refs.

Definition read_book (h : gmap nat (OrderLevel N)) (r : BookRef)
  : option (OrderBook N) :=
  bs ← read_levels h (bid_refs r);
  as' ← read_levels h (ask_refs r);
  Some {| bids := bs; asks := as'; timestamp := ref_timestamp r |}.
End AggregatorOnStore.

(** ** Exchange adapters: [exchangeConfigs[...].parseMessage]

    A message is the value [JSON.parse] returned for a frame. *)

#[warnings="-register-all"]
Inductive value (N : Type) : Type :=
| VUndefined
| VNull
| VBool (b : bool)
| VNum (n : N)
| VStr (s : string)
| VArr (elements : list (value N))
| VObj (properties : gmap string (value N)).
Arguments VUndefined {N}.
Arguments VNull {N}.
Arguments VBool {N} b.
Arguments VNum {N} n.
Arguments VStr {N} s.
Arguments VArr {N} elements.
Arguments VObj {N} properties.

Section Values.
Context {N : Type} `{!Number N}.

(** ToBoolean *)
Definition js_truthy (v : value N) : bool :=
  match v with
  | VUndefined | VNull => false
  | VBool b => b
  | VNum n => truthy n
  | VStr s => negb (String.eqb s "")
  | VArr _ | VObj _ => true
  end.

(** [v.k], for the property names the parsers read ([data], [topic],
    [params], [bids], [asks], [a], [b], [ts], [timestamp]): none of them
    is a property of a string, a number, a boolean or an array. *)
Definition get_field (v : value N) (k : string) : outcome (value N) :=
  match v with
  | VUndefined | VNull => Throw TypeError
  | VObj properties => Return (default VUndefined (properties !! k))
  | _ => Return VUndefined
  end.

(** [v[i]] *)
Definition get_index (v : value N) (i : nat) : outcome (value N) :=
  match v with
  | VUndefined | VNull => Throw TypeError
  | VArr elements => Return (default VUndefined (elements !! i))
  | VStr s =>
      Return (match String.get i s with
              | Some c => VStr (String c EmptyString)
              | None => VUndefined
              end)
  | VObj properties => Return (default VUndefined (properties !! pretty i))
  | _ => Return VUndefined
  end.

(** [k in v], for [k] one of [asks], [bids], [a], [b]; the operator
    throws when its right operand is not an object. *)
Definition has_property (k : string) (v : value N) : outcome bool :=
  match v with
  | VObj properties => Return (bool_decide (is_Some (properties !! k)))
  | VArr _ => Return false
  | _ => Throw TypeError
  end.

(** The receiver of [.map(f)] or [.slice(0, 50).map(f)]: the elements of
    an array.  On [undefined] and [null] the property read throws; on
    anything else that came out of [JSON.parse] the method is missing
    or, for the [slice] of a string, its result has no [map]: the call
    throws. *)
Definition array_elements (v : value N) : outcome (list (value N)) :=
  match v with
  | VArr elements => Return elements
  | _ => Throw TypeError
  end.

(** [elements.map(f)], stopping at the first callback that throws. *)
Fixpoint map_outcome {A B} (f : A -> outcome B) (l : list A) : outcome (list B) :=
  match l with
  | [] => Return []
  | x :: rest => y ← f x; ys ← map_outcome f rest; Return (y :: ys)
  end.

(** [s.indexOf(needle) === -1] is [negb (contains needle s)]. *)
Definition contains (needle s : string) : bool :=
  bool_decide (is_Some (String.index 0 needle s)).
End Values.

Section Adapters.
Context {N : Type} `{!Number N}.

(** What the parsers take from the engine: [parseFloat], [JSON.parse]
    and the clock [new Date().getTime()]. *)
Variable parseFloat : value N -> outcome N.
Variable JSON_parse : string -> outcome (value N).
Variable now : N.

(** [typeof d === 'string' ? JSON.parse(d) : d] *)
Definition parse_if_string (d : value N) : outcome (value N) :=
  match d with
  | VStr s => JSON_parse s
  | _ => Return d
  end.

(** [(bid) => ({ price: parseFloat(bid[0]), quantity: parseFloat(bid[1]) })] *)
Definition parse_level (bid : value N) : outcome (OrderLevel (value N)) :=
  p0 ← get_index bid 0; p ← parseFloat p0;
  q0 ← get_index bid 1; q ← parseFloat q0;
  Return (mkLevel (VNum p) (VNum q) None None).

(** [(bid) => ({ price: bid[0], quantity: bid[1] })] *)
Definition raw_level (bid : value N) : outcome (OrderLevel (value N)) :=
  p ← get_index bid 0;
  q ← get_index bid 1;
  Return (mkLevel p q None None).

(** [ts || new Date().getTime()] *)
Definition or_now (ts : value N) : value N :=
  if js_truthy ts then ts else VNum now.

Definition parseMessage_OKX (message : value N)
  : outcome (option (OrderBook (value N))) :=
  d ← get_field message "data";
  if negb (js_truthy d) then Return None
  else
    try_catch
      (data ← parse_if_string d;
       match data with
       | VArr elements =>
           let d0 := default VUndefined (elements !! 0%nat) in
           if negb (js_truthy d0) then Return None
           else
             has_asks ← has_property "asks" d0;
             if negb has_asks then Return None
             else
               has_bids ← has_property "bids" d0;
               if negb has_bids then Return None
               else
                 bids_v ← get_field d0 "bids";
                 bids_l ← array_elements bids_v;
                 bids' ← map_outcome parse_level bids_l;
                 asks_v ← get_field d0 "asks";
                 asks_l ← array_elements asks_v;
                 asks' ← map_outcome parse_level asks_l;
                 Return (Some {| bids := bids'; asks := asks';
                                 timestamp := VNum now |})
       | _ => Return None
       end)
      None.

Definition parseMessage_Bybit (message : value N)
  : outcome (option (OrderBook (value N))) :=
  d ← get_field message "data";
  if negb (js_truthy d) then Return None
  else
    topic ← get_field message "topic";
    match topic with
    | VStr t =>
        if negb (contains "orderbook" t) then Return None
        else
          try_catch
            (data ← parse_if_string d;
             if negb (js_truthy data) then Return None
             else
               has_a ← has_property "a" data;
               if negb has_a then Return None
               else
                 has_b ← has_property "b" data;
                 if negb has_b then Return None
                 else
                   b_v ← get_field data "b";
                   b_l ← array_elements b_v;
                   bids' ← map_outcome parse_level (take 50 b_l);
                   a_v ← get_field data "a";
                   a_l ← array_elements a_v;
                   asks' ← map_outcome parse_level (take 50 a_l);
                   ts ← get_field data "ts";
                   Return (Some {| bids := bids'; asks := asks';
                                   timestamp := or_now ts |}))
            None
    | _ => Return None
    end.

Definition parseMessage_Deribit (message : value N)
  : outcome (option (OrderBook (value N))) :=
  params ← get_field message "params";
  (* [msg.params?.data] *)
  d ← match params with
      | VUndefined | VNull => Return VUndefined
      | _ => get_field params "data"
      end;
  if negb (js_truthy d) then Return None
  else
    try_catch
      (bids_v ← get_field d "bids";
       bids_l ← array_elements bids_v;
       bids' ← map_outcome raw_level bids_l;
       asks_v ← get_field d "asks";
       asks_l ← array_elements asks_v;
       asks' ← map_outcome raw_level asks_l;
       ts ← get_field d "timestamp";
       Return (Some {| bids := bids'; asks := asks'; timestamp := or_now ts |}))
      None.

Definition parseMessage (e : Exchange) (message : value N)
  : outcome (option (OrderBook (value N))) :=
  match e with
  | OKX => parseMessage_OKX message
  | Bybit => parseMessage_Bybit message
  | Deribit => parseMessage_Deribit message
  end.

(** [socket.onmessage]: the book handed to the message callback, if
    any.  Whatever [JSON.parse] or the parser throws is caught there. *)
Definition onmessage (e : Exchange) (event_data : string)
  : outcome (option (OrderBook (value N))) :=
  try_catch (message ← JSON_parse event_data; parseMessage e message) None.

(** *** Order-book payloads, as the specification describes them *)

(** The payload carried by a [data] field: the field itself, or what its
    text parses to when it is a string. *)
Definition carried_by (d data : value N) : Prop :=
  match d with
  | VStr s => JSON_parse s = Return data
  | _ => data = d
  end.

(** Exchange A: "book payload at [message.data[0]] with [bids]/[asks] as
    arrays".  Exchange B: "requires [message.topic] to contain
    ["orderbook"], fields [b]/[a] as arrays".  Exchange C: "book payload
    at [message.params.data] with [bids]/[asks] as arrays". *)
Definition book_payload (e : Exchange) (message : value N) : Prop :=
  match e with
  | OKX =>
      exists props d rest fields bs as',
        message = VObj props /\ props !! "data" = Some d /\
        carried_by d (VArr (VObj fields :: rest)) /\
        fields !! "bids" = Some (VArr bs) /\ fields !! "asks" = Some (VArr as')
  | Bybit =>
      exists props d t fields bs as',
        message = VObj props /\ props !! "data" = Some d /\
        props !! "topic" = Some (VStr t) /\ contains "orderbook" t = true /\
        carried_by d (VObj fields) /\
        fields !! "b" = Some (VArr bs) /\ fields !! "a" = Some (VArr as')
  | Deribit =>
      exists props params fields bs as',
        message = VObj props /\ props !! "params" = Some (VObj params) /\
        params !! "data" = Some (VObj fields) /\
        fields !! "bids" = Some (VArr bs) /\ fields !! "asks" = Some (VArr as')
  end.
End Adapters.

(** JSON objects, written as association lists. *)
Definition obj {N : Type} (fields : list (string * value N)) : value N :=
  VObj (list_to_map fields).

(** *** [parseFloat] on strings, in exact arithmetic

    The number denoted by the longest prefix of the string, after leading
    blanks, that is a decimal literal: an optional sign, then [Infinity]
    or digits with an optional fraction and an optional exponent; [NaN]
    when there is no such prefix.  The blanks skipped are the ASCII ones
    (space, tab, line feed, vertical tab, form feed, carriage return);
    the white space beyond ASCII is not in the strings of this model. *)

Definition digit_of (c : Ascii.ascii) : option Z :=
  let n := Ascii.nat_of_ascii c in
  if (48 <=? n)%nat && (n <=? 57)%nat then Some (Z.of_nat (n - 48)) else None.

(** Reads a run of digits: its value after [acc], its length, the rest. *)
Fixpoint read_digits (s : string) (acc : Z) (count : nat) : Z * nat * string :=
  match s with
  | String c rest =>
      match digit_of c with
      | Some d => read_digits rest (10 * acc + d)%Z (S count)
      | None => (acc, count, s)
      end
  | EmptyString => (acc, count, s)
  end.

Definition read_sign (s : string) : bool * string :=
  match s with
  | String "-"%char rest => (true, rest)
  | String "+"%char rest => (false, rest)
  | _ => (false, s)
  end.

Fixpoint skip_blanks (s : string) : string :=
  match s with
  | String c rest =>
      if Ascii.eqb c " "%char || Ascii.eqb c "009"%char ||
         Ascii.eqb c "010"%char || Ascii.eqb c "011"%char ||
         Ascii.eqb c "012"%char || Ascii.eqb c "013"%char
      then skip_blanks rest else s
  | EmptyString => s
  end.

Definition pow10 (e : Z) : Q :=
  match e with
  | Zneg p => 1 / inject_Z (10 ^ Zpos p)
  | _ => inject_Z (10 ^ e)
  end.

Definition parseFloat_string (s : string) : xnum :=
  let '(negative, s0) := read_sign (skip_blanks s) in
  if String.prefix "Infinity" s0 then (if negative then NInf else PInf)
  else
    let '(int_part, int_count, s1) := read_digits s0 0 0 in
    let '(frac_part, frac_count, s2) :=
      match s1 with
      | String "."%char rest => read_digits rest 0 0
      | _ => (0%Z, 0%nat, s1)
      end in
    if (int_count + frac_count =? 0)%nat then NaN
    else
      let exponent :=
        match s2 with
        | String c rest =>
            if Ascii.eqb c "e"%char || Ascii.eqb c "E"%char then
              let '(eneg, s3) := read_sign rest in
              let '(ev, ec, _) := read_digits s3 0 0 in
              if (ec =? 0)%nat then 0%Z else if eneg then (- ev)%Z else ev
            else 0%Z
        | EmptyString => 0%Z
        end in
      let mantissa :=
        (inject_Z int_part + inject_Z frac_part / pow10 (Z.of_nat frac_count))%Q in
      fin ((if negative then - mantissa else mantissa) * pow10 exponent)%Q.

(** An engine for evaluating the parsers at concrete messages.  Its
    [parseFloat] covers strings (the price and quantity fields of the OKX
    and Bybit wire formats), numbers, which it returns, and [undefined],
    [null] and booleans, whose text is not a number; arrays and objects,
    whose conversion to text is not modelled, are not passed to it below.
    Its clock is fixed, and its [JSON.parse] is only for text that is not
    JSON.  The theorems quantify over the engine; only closed examples use
    this one. *)
Definition parseFloat_exact (v : value xnum) : outcome xnum :=
  match v with
  | VStr s => Return (parseFloat_string s)
  | VNum n => Return n
  | _ => Return NaN
  end.

Definition not_json (s : string) : outcome (value xnum) := Throw SyntaxError.

Definition clock : xnum := Fin 1700000000000.

(** ** The WebSocket service: [connect], [attemptReconnect], [disconnect]

    The service is an object mutated by its methods and by the handlers
    of its socket; each becomes a function on the state of the object.
    The callbacks are kept only as present or absent.  The timer that
    [setTimeout] returns is kept with its delay; [timer_pending] tells
    whether it is still to fire, and [timers] records, oldest first, the
    delays of all timers set. *)

Inductive readyState : Type := CONNECTING | OPEN | CLOSING | CLOSED.

Record WebSocketService : Type := mkService {
  socket : option readyState;
  reconnectAttempts : Z;
  reconnectTimeout : option Z;
  timer_pending : bool;
  currentExchange : option Exchange;
  currentSymbol : option string;
  messageCallback : bool;
  errorCallback : bool;
  timers : list Z
}.

Definition maxReconnectAttempts : Z := 5.

(** [new WebSocketService()] *)
Definition new_service : WebSocketService :=
  {| socket := None; reconnectAttempts := 0; reconnectTimeout := None;
     timer_pending := false; currentExchange := None; currentSymbol := None;
     messageCallback := false; errorCallback := false; timers := [] |}.

Definition attemptReconnect (s : WebSocketService) : WebSocketService :=
  if (maxReconnectAttempts <=? reconnectAttempts s)%Z then s
  else
    let attempts := (reconnectAttempts s + 1)%Z in
    let delay := Z.min (1000 * 2 ^ attempts) 30000 in
    (* the previous timer, if any, is cleared; the new one replaces it *)
    {| socket := socket s; reconnectAttempts := attempts;
       reconnectTimeout := Some delay; timer_pending := true;
       currentExchange := currentExchange s; currentSymbol := currentSymbol s;
       messageCallback := messageCallback s; errorCallback := errorCallback s;
       timers := timers s ++ [delay] |}.

Definition disconnect (s : WebSocketService) : WebSocketService :=
  {| socket := None; reconnectAttempts := reconnectAttempts s;
     reconnectTimeout := None; timer_pending := false;
     currentExchange := None; currentSymbol := None;
     messageCallback := false; errorCallback := false;
     timers := timers s |}.

(** [connect(exchange, symbol, onMessage, onError)]; [constructor_throws]
    tells whether [new WebSocket(config.url)] throws. *)
Definition connect (e : Exchange) (sym : string) (constructor_throws : bool)
    (s : WebSocketService) : WebSocketService :=
  let s0 := disconnect s in
  let s1 :=
    {| socket := socket s0; reconnectAttempts := reconnectAttempts s0;
       reconnectTimeout := reconnectTimeout s0; timer_pending := timer_pending s0;
       currentExchange := Some e; currentSymbol := Some sym;
       messageCallback := true; errorCallback := true;
       timers := timers s0 |} in
  if constructor_throws then attemptReconnect s1
  else
    {| socket := Some CONNECTING; reconnectAttempts := reconnectAttempts s1;
       reconnectTimeout := reconnectTimeout s1; timer_pending := timer_pending s1;
       currentExchange := currentExchange s1; currentSymbol := currentSymbol s1;
       messageCallback := messageCallback s1; errorCallback := errorCallback s1;
       timers := timers s1 |}.

Definition set_socket (r : option readyState) (s : WebSocketService) : WebSocketService :=
  {| socket := r; reconnectAttempts := reconnectAttempts s;
     reconnectTimeout := reconnectTimeout s; timer_pending := timer_pending s;
     currentExchange := currentExchange s; currentSymbol := currentSymbol s;
     messageCallback := messageCallback s; errorCallback := errorCallback s;
     timers := timers s |}.

(** [socket.onopen]: the attempt counter is reset and the subscription sent. *)
Definition onopen (s : WebSocketService) : WebSocketService :=
  {| socket := Some OPEN; reconnectAttempts := 0;
     reconnectTimeout := reconnectTimeout s; timer_pending := timer_pending s;
     currentExchange := currentExchange s; currentSymbol := currentSymbol s;
     messageCallback := messageCallback s; errorCallback := errorCallback s;
     timers := timers s |}.

(** [socket.onclose] *)
Definition onclose (s : WebSocketService) : WebSocketService :=
  attemptReconnect (set_socket (match socket s with Some _ => Some CLOSED | None => None end) s).

(** The callback given to [setTimeout]. *)
Definition timer_fires (constructor_throws : bool) (s : WebSocketService)
  : WebSocketService :=
  if timer_pending s then
    let s' :=
      {| socket := socket s; reconnectAttempts := reconnectAttempts s;
         reconnectTimeout := reconnectTimeout s; timer_pending := false;
         currentExchange := currentExchange s; currentSymbol := currentSymbol s;
         messageCallback := messageCallback s; errorCallback := errorCallback s;
         timers := timers s |} in
    match currentExchange s', currentSymbol s' with
    | Some e, Some sym =>
        if negb (String.eqb sym "") && messageCallback s'
        then connect e sym constructor_throws s'
        else s'
    | _, _ => s'
    end
  else s.

Definition isConnected (s : WebSocketService) : bool :=
  match socket s with
  | Some OPEN => true
  | _ => false
  end.

Inductive event : Type :=
| Opens
| Errors
| Closes
| TimerFires (constructor_throws : bool).

Definition step (s : WebSocketService) (ev : event) : WebSocketService :=
  match ev with
  | Opens => onopen s
  | Errors => s
  | Closes => onclose s
  | TimerFires t => timer_fires t s
  end.

Definition run (evs : list event) (s : WebSocketService) : WebSocketService :=
  fold_left step evs s.

(** One failed reconnection: the timer fires and either the constructor
    throws or the socket it creates closes without having opened. *)
Definition failed_retry (constructor_throws : bool) : list event :=
  if constructor_throws then [TimerFires true] else [TimerFires false; Closes].

(** ** Subscriptions: [exchangeConfigs[...].subscriptionMessage]

    The object handed to [JSON.stringify]. *)

Definition subscriptionMessage {N : Type} `{!Number N} (e : Exchange) (symbol : string)
  : value N :=
  match e with
  | OKX =>
      obj [("op", VStr "subscribe");
           ("args", VArr [obj [("channel", VStr "books"); ("instId", VStr symbol)]])]
  | Bybit =>
      obj [("op", VStr "subscribe");
           ("args", VArr [VStr ("orderbook.50." +:+ symbol)])]
  | Deribit =>
      obj [("jsonrpc", VStr "2.0"); ("id", VNum (of_Z 1));
           ("method", VStr "public/subscribe");
           ("params",
            obj [("channels", VArr [VStr ("book." +:+ symbol +:+ ".none.20.100ms")])])]
  end.

(** ** Calls and events of the service, interleaved *)

Inductive action : Type :=
| Connect (e : Exchange) (sym : string) (constructor_throws : bool)
| Disconnect
| Event (ev : event).

Definition perform (s : WebSocketService) (a : action) : WebSocketService :=
  match a with
  | Connect e sym k => connect e sym k s
  | Disconnect => disconnect s
  | Event ev => step s ev
  end.

Definition history (acts : list action) (s : WebSocketService) : WebSocketService :=
  fold_left perform acts s.

(** ** Available symbols: [getAvailableSymbols]

    The argument is a string; [exchange_name] gives the strings that are
    the members of the type [Exchange]. *)

Definition exchange_name (e : Exchange) : string :=
  match e with
  | OKX => "OKX"
  | Bybit => "Bybit"
  | Deribit => "Deribit"
  end.

Definition getAvailableSymbols (name : string) : list string :=
  if String.eqb name "OKX" then
    ["BTC-USDT"; "ETH-USDT"; "SOL-USDT"; "XRP-USDT"; "DOGE-USDT"]
  else if String.eqb name "Bybit" then
    ["BTCUSDT"; "ETHUSDT"; "SOLUSDT"; "XRPUSDT"; "DOGEUSDT"]
  else if String.eqb name "Deribit" then
    ["BTC-PERPETUAL"; "ETH-PERPETUAL"]
  else [].

(** ** The order form: [useOrderSimulation] and [validateForm] *)

Section OrderFormHook.
Context {N : Type} `{!Number N}.
Local Open Scope js_scope.

Definition DEFAULT_FORM : OrderForm N :=
  mkForm OKX "BTC-USDT" Limit Buy None (of_Z 1) immediate.

(** [Partial<OrderForm>]: a field is [None] when the update does not
    have the key.  The price of a form is [number | null], so an update
    that has the key [price] carries an optional number. *)
Record OrderFormUpdate : Type := mkUpdate {
  upd_exchange : option Exchange;
  upd_symbol : option string;
  upd_type : option OrderType;
  upd_side : option OrderSide;
  upd_price : option (option N);
  upd_quantity : option N;
  upd_delay : option DelayOption
}.

(** The function given to [setForm] by [updateForm(updates)]. *)
Definition updateForm (updates : OrderFormUpdate) (prev : OrderForm N) : OrderForm N :=
  (* { ...prev, ...updates } *)
  let updated :=
    mkForm (default (exchange prev) (upd_exchange updates))
           (default (symbol prev) (upd_symbol updates))
           (default (type prev) (upd_type updates))
           (default (side prev) (upd_side updates))
           (default (form_price prev) (upd_price updates))
           (default (form_quantity prev) (upd_quantity updates))
           (default (delay prev) (upd_delay updates)) in
  let updated :=
    match upd_type updates with
    | Some Market =>
        mkForm (exchange updated) (symbol updated) (type updated) (side updated)
               None (form_quantity updated) (delay updated)
    | _ => updated
    end in
  match upd_exchange updates with
  | Some e =>
      if negb (String.eqb (exchange_name e) (exchange_name (exchange prev))) then
        mkForm (exchange updated)
               (match e with
                | OKX => "BTC-USDT"
                | Bybit => "BTCUSDT"
                | Deribit => "BTC-PERPETUAL"
                end)
               (type updated) (side updated) (form_price updated)
               (form_quantity updated) (delay updated)
      else updated
  | None => updated
  end.

(** The update that [handleExchangeChange(exchange)] of the page gives to
    [updateForm]: [{ exchange, symbol }], with the symbol that the page's
    [switch] chooses for the exchange. *)
Definition handleExchangeChange (e : Exchange) : OrderFormUpdate :=
  mkUpdate (Some e)
           (Some (match e with
                  | OKX => "BTC-USDT"
                  | Bybit => "BTCUSDT"
                  | Deribit => "BTC-PERPETUAL"
                  end))
           None None None None None.

(** [form.delay === '5s' ? 5000 : form.delay === '10s' ? 10000 : 30000],
    under [form.delay !== 'immediate']. *)
Definition clear_delay (d : DelayOption) : option Z :=
  match d with
  | immediate => None
  | delay_5s => Some 5000%Z
  | delay_10s => Some 10000%Z
  | delay_30s => Some 30000%Z
  end.

(** [simulate()], for the current [form] and [orderBook]: the value of the
    state [simulation] after the call and the delay of the timer set to
    clear it, if one is set. *)
Definition simulate (f : OrderForm N) (orderBook : OrderBook N)
    (simulation : option (OrderSimulation N))
  : outcome (option (OrderSimulation N) * option Z) :=
  if bool_decide (length (bids orderBook) = 0%nat) ||
     bool_decide (length (asks orderBook) = 0%nat)
  then Return (simulation, None)
  else
    result ← simulateOrder f (Some orderBook);
    Return (Some result, clear_delay (delay f)).


End OrderFormHook.
Arguments OrderFormUpdate N : clear implicits.

(** ** [debounce] and the hook [useOrderBook]

    The state of [debounce(func, wait)] is its timer.  A timer that is
    still to fire is kept as the arguments of the call it will make; a
    call of the debounced function clears it and sets a new one. *)

Section OrderBookHook.
Context {N : Type} `{!Number N}.
Local Open Scope js_scope.

Definition debounce_call {A : Type} (args : A) (timeout : option A) : option A :=
  Some args.

(** The timer elapses: the timer afterwards and the call of [func] made. *)
Definition debounce_elapses {A : Type} (timeout : option A) : option A * option A :=
  (None, timeout).

Definition DEFAULT_ORDERBOOK : OrderBook N := mkBook [] [] (of_Z 0).

Record OrderBookState : Type := mkHook {
  orderBook : OrderBook N;
  connected : bool;                          (* the state [isConnected] *)
  error : option string;
  lastUpdateRef : N;
  pendingUpdateRef : option (OrderBook N);
  updateTimer : option (OrderBook N)         (* of [updateOrderBookThrottled] *)
}.

Definition initial_hook : OrderBookState :=
  mkHook DEFAULT_ORDERBOOK false None (of_Z 0) None None.

(** [handleOrderBookUpdate(data)]; [data] is [None] when the guard
    [!bookData || !bookData.bids || !bookData.asks] holds.  Both branches
    of the test on [timeSinceLastUpdate] make the same call. *)
Definition handleOrderBookUpdate (data : option (OrderBook N)) (s : OrderBookState)
  : OrderBookState :=
  match data with
  | None => s
  | Some bookData =>
      if timestamp bookData <=? lastUpdateRef s then
        mkHook (orderBook s) true None (lastUpdateRef s) (pendingUpdateRef s)
               (updateTimer s)
      else
        mkHook (orderBook s) true None (lastUpdateRef s) (Some bookData)
               (debounce_call bookData (updateTimer s))
  end.

(** The timer of the debounced update elapses at time [now]. *)
Definition update_elapses (now : N) (s : OrderBookState) : OrderBookState :=
  match debounce_elapses (updateTimer s) with
  | (timeout, Some data) =>
      mkHook (processOrderBookData data) (connected s) (error s) now None timeout
  | (timeout, None) =>
      mkHook (orderBook s) (connected s) (error s) (lastUpdateRef s)
             (pendingUpdateRef s) timeout
  end.

Definition handleError (s : OrderBookState) : OrderBookState :=
  mkHook (orderBook s) false (Some "Connection error. Attempting to reconnect...")
         (lastUpdateRef s) (pendingUpdateRef s) (updateTimer s).

(** The effect that runs when [exchange] or [symbol] changes, as far as the
    state of the hook goes; the calls of the service are [connect] and
    [disconnect] above. *)
Definition target_changes (sym : string) (s : OrderBookState) : OrderBookState :=
  if String.eqb sym "" then
    mkHook DEFAULT_ORDERBOOK (connected s) (error s) (lastUpdateRef s) None
           (updateTimer s)
  else
    mkHook (orderBook s) false None (of_Z 0) None (updateTimer s).

Definition reset (s : OrderBookState) : OrderBookState :=
  mkHook DEFAULT_ORDERBOOK (connected s) (error s) (of_Z 0) None (updateTimer s).

Inductive hook_event : Type :=
| Frame (data : option (OrderBook N))
| Elapses (now : N)
| SocketError
| TargetChanges (sym : string)
| Reset.

Definition hook_step (s : OrderBookState) (ev : hook_event) : OrderBookState :=
  match ev with
  | Frame data => handleOrderBookUpdate data s
  | Elapses now => update_elapses now s
  | SocketError => handleError s
  | TargetChanges sym => target_changes sym s
  | Reset => reset s
  end.

Definition hook_run (evs : list hook_event) (s : OrderBookState) : OrderBookState :=
  fold_left hook_step evs s.
End OrderBookHook.
Arguments OrderBookState N : clear implicits.
Arguments hook_event N : clear implicits.

(** ** Volume shares: the component [OrderbookImbalance]

    The quantities computed before rendering, for a book with two
    non-empty sides (the component shows "No data available" otherwise). *)

Section Imbalance.
Context {N : Type} `{!Number N}.
Local Open Scope js_scope.

(** [levels.reduce((sum, l) => sum + l.quantity, 0)] *)
Definition volume (levels : list (OrderLevel N)) : N :=
  fold_left (fun sum l => sum + quantity l) levels (of_Z 0).

Definition bidVolume (orderBook : OrderBook N) : N := volume (bids orderBook).
Definition askVolume (orderBook : OrderBook N) : N := volume (asks orderBook).
Definition totalVolume (orderBook : OrderBook N) : N :=
  bidVolume orderBook + askVolume orderBook.

Definition bidPercentage (orderBook : OrderBook N) : N :=
  if of_Z 0 <? totalVolume orderBook
  then (bidVolume orderBook / totalVolume orderBook) * of_Z 100
  else of_Z 50.

Definition askPercentage (orderBook : OrderBook N) : N :=
  if of_Z 0 <? totalVolume orderBook
  then (askVolume orderBook / totalVolume orderBook) * of_Z 100
  else of_Z 50.

Definition imbalanceDirection (orderBook : OrderBook N) : string :=
  if askPercentage orderBook <=? bidPercentage orderBook then "buy" else "sell".
End Imbalance.

(** ** Vocabulary of the properties *)

(** A level as a feed delivers it: a price and a quantity, nothing else. *)
Definition lv {N : Type} (p q : N) : OrderLevel N := mkLevel p q None None.

(** *** Valid inputs, in exact arithmetic *)

Definition finite_nonneg (a : xnum) : Prop :=
  match a with
  | Fin q => (0 <= q)%Q
  | _ => False
  end.

Definition finite_pos (a : xnum) : Prop :=
  match a with
  | Fin q => (0 < q)%Q
  | _ => False
  end.

Definition in_range (lo hi : Q) (x : xnum) : Prop :=
  exists y, x = Fin y /\ (lo <= y <= hi)%Q.


Definition valid_level (l : OrderLevel xnum) : Prop :=
  finite_nonneg (price l) /\ finite_nonneg (quantity l).

(** A pre-validated order: a positive quantity, and a positive price when
    the order is a limit order. *)
Definition valid_form (f : OrderForm xnum) : Prop :=
  finite_pos (form_quantity f) /\
  (type f = Limit -> exists p, form_price f = Some (Fin p) /\ (0 < p)%Q).

Definition price_at_most (P : Q) (l : OrderLevel xnum) : Prop :=
  exists p, price l = Fin p /\ (p <= P)%Q.

Definition price_at_least (P : Q) (l : OrderLevel xnum) : Prop :=
  exists p, price l = Fin p /\ (P <= p)%Q.

(** *** Aggregated sides *)




Section Vocabulary.
Context {N : Type} `{!Number N}.

(** No element is strictly after its successor: the lists that
    [js_sort cmp] leaves as they are. *)
Fixpoint ordered {A : Type} (cmp : A -> A -> N) (l : list A) : Prop :=
  match l with
  | x :: (y :: _) as rest => nlt (cmp y x) (of_Z 0) = false /\ ordered cmp rest
  | _ => True
  end.

Definition same_order_data (a b : OrderLevel N) : Prop :=
  price a = price b /\ quantity a = quantity b.

(** One side after both passes over it. *)
Definition annotated (run maxTotal : N) (levels : list (OrderLevel N)) :=
  map (fun l => set_percentage l (depth_percentage maxTotal l)) (accumulate run levels).1.

(** Two stores with the same addresses and, at each, the same price and
    quantity. *)
Definition same_orders (h h' : gmap nat (OrderLevel N)) : Prop :=
  forall a, option_Forall2 same_order_data (h !! a) (h' !! a).

(** The level objects at the addresses [refs] are, in order, [ls]. *)
Definition points_to (h : gmap nat (OrderLevel N)) (refs : list nat)
    (ls : list (OrderLevel N)) : Prop :=
  Forall2 (fun a l => h !! a = Some l) refs ls.
End Vocabulary.

(** *** Orders and parsed books *)

(** What an order is: its price and its quantity. *)
Definition order_data {N : Type} (l : OrderLevel N) : N * N := (price l, quantity l).

Definition is_finite (a : xnum) : Prop := exists q, a = Fin q.

(** A level whose price and quantity are numbers, and nothing else. *)
Definition numeric_level {N : Type} (l : OrderLevel (value N)) : Prop :=
  exists p q, l = lv (VNum p) (VNum q).

(** A level with neither [total] nor [percentage]. *)
Definition fresh_level {V : Type} (l : OrderLevel V) : Prop :=
  total l = None /\ percentage l = None.

(** A level entry of a payload that can be indexed: [v[0]] throws on
    [null] and [undefined] only. *)
Definition indexable {N : Type} (v : value N) : Prop := v <> VNull /\ v <> VUndefined.

(** The level made from the payload entry [v] by the callback of OKX and
    Bybit, and by the callback of Deribit. *)
Definition parsed_from {N : Type} `{!Number N} (parseFloat : value N -> outcome N)
    (v : value N) (l : OrderLevel (value N)) : Prop :=
  exists p0 q0 p q,
    get_index v 0 = Return p0 /\ get_index v 1 = Return q0 /\
    parseFloat p0 = Return p /\ parseFloat q0 = Return q /\
    l = lv (VNum p) (VNum q).

Definition taken_from {N : Type} `{!Number N} (v : value N) (l : OrderLevel (value N))
  : Prop :=
  exists p q, get_index v 0 = Return p /\ get_index v 1 = Return q /\ l = lv p q.

(** *** Payloads and their levels *)

Section PayloadLevels.
Context {N : Type} `{!Number N}.
Variable parseFloat : value N -> outcome N.
Variable JSON_parse : string -> outcome (value N).

(** The callback that a parser maps over the entries of a level array,
    and the entries it is mapped over. *)
Definition level_of (e : Exchange) (v : value N) : outcome (OrderLevel (value N)) :=
  match e with
  | Deribit => raw_level v
  | _ => parse_level parseFloat v
  end.

Definition entries_read (e : Exchange) (l : list (value N)) : list (value N) :=
  match e with
  | Bybit => take 50 l
  | _ => l
  end.

(** An entry that cannot be read: the callback throws on it. *)
Definition unreadable (e : Exchange) (v : value N) : Prop :=
  exists err, level_of e v = Throw err.

Definition level_made (e : Exchange) : value N -> OrderLevel (value N) -> Prop :=
  match e with
  | Deribit => taken_from
  | _ => parsed_from parseFloat
  end.

(** A message with the envelope of a payload, a non-empty [data] and the
    level arrays [bs] and [as']. *)
Definition payload_with (e : Exchange) (message : value N) (bs as' : list (value N))
  : Prop :=
  match e with
  | OKX =>
      exists props d rest fields,
        message = VObj props /\ props !! "data" = Some d /\ js_truthy d = true /\
        carried_by JSON_parse d (VArr (VObj fields :: rest)) /\
        fields !! "bids" = Some (VArr bs) /\ fields !! "asks" = Some (VArr as')
  | Bybit =>
      exists props d t fields,
        message = VObj props /\ props !! "data" = Some d /\ js_truthy d = true /\
        props !! "topic" = Some (VStr t) /\ contains "orderbook" t = true /\
        carried_by JSON_parse d (VObj fields) /\
        fields !! "b" = Some (VArr bs) /\ fields !! "a" = Some (VArr as')
  | Deribit =>
      exists props params fields,
        message = VObj props /\ props !! "params" = Some (VObj params) /\
        params !! "data" = Some (VObj fields) /\
        fields !! "bids" = Some (VArr bs) /\ fields !! "asks" = Some (VArr as')
  end.
End PayloadLevels.

(** *** Running sums *)

(** The quantities of [levels], added in order from 0: the value of
    [runningBidTotal] or [runningAskTotal] after the loop over them. *)
Definition quantity_sum {N : Type} `{!Number N} (levels : list (OrderLevel N)) : N :=
  fold_left (fun run l => nadd run (quantity l)) levels (of_Z 0).

Definition sample_limit_buy : OrderForm xnum :=
  mkForm OKX "BTC-USDT" Limit Buy (Some (Fin 100)) (Fin 3) delay_5s.

Definition sample_exact_book : OrderBook xnum :=
  mkBook [lv (Fin 99) (Fin 1); lv (Fin 98) (Fin 4)]
         [lv (Fin 100) (Fin 1); lv (Fin 101) (Fin 2)] (Fin 1700000000000).

(** *** States of the service *)

(** The delays of the reconnection timers. *)
Definition backoff_delay (d : Z) : Prop := d ∈ [2000; 4000; 8000; 16000; 30000]%Z.

(** The attempt counter is within its bounds and every timer set so far
    has one of the delays above. *)
Definition backoff_state (s : WebSocketService) : Prop :=
  (0 <= reconnectAttempts s <= maxReconnectAttempts)%Z /\
  Forall backoff_delay (timers s).

(** Nothing is held: no socket, no target, no callback. *)
Definition released (s : WebSocketService) : Prop :=
  socket s = None /\ currentExchange s = None /\ currentSymbol s = None /\
  messageCallback s = false.

(** *** Sample inputs *)

Definition sample_market_buy : OrderForm float :=
  mkForm OKX "BTC-USDT" Market Buy None 2%float immediate.

Definition sample_book : OrderBook float :=
  (mkBook [lv 99 1; lv 98 4] [lv 100 1; lv 101 2] 1700000000000)%float.

Definition sample_raw_book : OrderBook xnum :=
  mkBook [lv (Fin 99) (Fin 1); lv (Fin 100) (Fin 3)]
         [lv (Fin 102) (Fin 2); lv (Fin 101) (Fin 0)] (Fin 1700000000000).

(** A store with one bid and one ask, neither with [total] nor
    [percentage], and the book made of them. *)
Definition sample_store : gmap nat (OrderLevel float) :=
  (<[1%nat := lv 101 2]> (<[0%nat := lv 100 1]> ∅))%float.

Definition sample_book_ref : BookRef :=
  (mkBookRef [0%nat] [1%nat] 1700000000000)%float.

(** Frames that are not order books: the subscription acknowledgments of
    the three exchanges and a Deribit heartbeat. *)
Definition ack {N : Type} `{!Number N} (e : Exchange) : value N :=
  match e with
  | OKX =>
      obj [("event", VStr "subscribe");
           ("arg", obj [("channel", VStr "books"); ("instId", VStr "BTC-USDT")]);
           ("connId", VStr "a4d3ae55")]
  | Bybit =>
      obj [("success", VBool true); ("ret_msg", VStr "subscribe");
           ("conn_id", VStr "2324d924"); ("op", VStr "subscribe")]
  | Deribit =>
      obj [("jsonrpc", VStr "2.0"); ("id", VNum (of_Z 1));
           ("result", VArr [VStr "book.BTC-PERPETUAL.none.20.100ms"])]
  end.

Definition deribit_heartbeat {N : Type} : value N :=
  obj [("jsonrpc", VStr "2.0"); ("method", VStr "heartbeat");
       ("params", obj [("type", VStr "test_request")])].

(** * Properties *)

(** ** The consumption loop *)

Section ConsumeFacts.
Context {N : Type} `{!Number N}.
Local Open Scope js_scope.

(** The loop computes what the walk of the specification describes. *)
Lemma consume_spec_fills (levels : list (OrderLevel N)) (st : fill_state) :
  consume levels st =
    let fills := spec_fills (remainingQuantity st) levels in
    {| remainingQuantity := spec_remaining (remainingQuantity st) fills;
       totalValue := fold_left (fun v fp => v + fst fp * snd fp) fills (totalValue st);
       filledLevels := filledLevels st + length fills |}.
Proof.
  revert st. induction levels as [|level rest IH]; intros [r v n]; cbn.
  - unfold spec_remaining. cbn. f_equal. lia.
  - destruct (r <=? of_Z 0) eqn:Hr; cbn.
    + f_equal. lia.
    + rewrite IH. cbn. unfold spec_remaining. cbn. f_equal. lia.
Qed.

Lemma simulateOrder_nonempty (f : OrderForm N) (book : OrderBook N) :
  bids book <> [] -> asks book <> [] ->
  simulateOrder f (Some book) =
    match type f with
    | Market => simulateMarket f book
    | Limit => simulateLimit f book
    end.
Proof.
  intros Hb Ha. unfold simulateOrder.
  destruct (bids book); [done|]. destruct (asks book); [done|]. reflexivity.
Qed.

Lemma simulateOrder_empty_side (f : OrderForm N) (book : OrderBook N) :
  bids book = [] \/ asks book = [] ->
  simulateOrder f (Some book) = Return (inactive f).
Proof.
  intros [Hb|Ha]; unfold simulateOrder.
  - rewrite Hb. reflexivity.
  - rewrite Ha. cbn. rewrite orb_true_r. reflexivity.
Qed.
End ConsumeFacts.

(** ** C1: market orders *)

(** C1 (amended).  For every order book with BOTH sides non-empty and every
    Market order, [simulateOrder] walks the consumed side (asks for Buy,
    bids for Sell) from the front, taking at each level at most what
    remains, and returns [fillPercentage = (quantity - remaining) /
    quantity * 100], the slippage of the volume-weighted average price
    against the price of the first level of the consumed side, floored at
    0 by [Math.max], and the share of levels touched as market impact.
    This holds in every number model.  In particular, in binary64 and in
    exact arithmetic, a Market Buy for 2 against asks
    [{100,1},{101,2}] and any non-empty bid side returns
    [fillPercentage = 100] and [slippage = 0.5]. *)
Theorem market_order_walk :
  (forall (N : Type) (HN : Number N) (f : OrderForm N) (book : OrderBook N),
      type f = Market -> bids book <> [] -> asks book <> [] ->
      exists best rest r,
        consumed_side (side f) book = best :: rest /\
        simulateOrder f (Some book) = Return r /\
        let q := form_quantity f in
        let fills := spec_fills q (best :: rest) in
        let remaining := spec_remaining q fills in
        fillPercentage r = nmul (ndiv (nsub q remaining) q) (of_Z 100) /\
        slippage r =
          spec_slippage (side f)
            (ndiv (spec_totalValue fills) (nsub q remaining)) (price best) /\
        marketImpact r =
          nmul (ndiv (of_nat (length fills)) (of_nat (length (best :: rest)))) (of_Z 100) /\
        timeToFill r = Some "Immediate" /\ active r = true /\ form r = f)
  /\ (forall ex sym d b0 (bs : list (OrderLevel float)) ts,
        exists r,
          simulateOrder (mkForm ex sym Market Buy None 2%float d)
            (Some (mkBook (b0 :: bs) [lv 100 1; lv 101 2] ts)%float) = Return r /\
          fillPercentage r = 100%float /\ slippage r = 0.5%float)
  /\ (forall ex sym d b0 (bs : list (OrderLevel xnum)) ts,
        exists r,
          simulateOrder (mkForm ex sym Market Buy None (Fin 2) d)
            (Some (mkBook (b0 :: bs)
                     [lv (Fin 100) (Fin 1); lv (Fin 101) (Fin 2)] ts)) = Return r /\
          fillPercentage r = Fin 100 /\ slippage r = Fin (1 # 2)).
Proof.
  split; [|split].
  - intros N HN f book Hty Hb Ha.
    assert (exists best rest, consumed_side (side f) book = best :: rest)
      as (best & rest & Hside).
    { unfold consumed_side. destruct (side f).
      - destruct (asks book) as [|a l]; [done|]. by exists a, l.
      - destruct (bids book) as [|a l]; [done|]. by exists a, l. }
    exists best, rest.
    rewrite simulateOrder_nonempty by done. rewrite Hty.
    unfold simulateMarket. fold (consumed_side (side f) book).
    rewrite Hside, consume_spec_fills. cbn.
    eexists. split; [reflexivity|]. cbn.
    repeat split. unfold spec_slippage, spec_totalValue. by destruct (side f).
  - intros. eexists. split; [reflexivity|]. split; reflexivity.
  - intros. eexists. split; [reflexivity|]. split; reflexivity.
Qed.

Lemma market_order_walk_witness :
  type sample_market_buy = Market /\
  bids sample_book <> [] /\ asks sample_book <> [] /\
  exists r, simulateOrder sample_market_buy (Some sample_book) = Return r /\
            fillPercentage r = 100%float /\ slippage r = 0.5%float /\
            marketImpact r = 100%float.
Proof.
  split; [reflexivity|]. split; [discriminate|]. split; [discriminate|].
  destruct (proj1 market_order_walk float _ sample_market_buy sample_book)
    as (best & rest & r & Hside & Hr & Hfill & Hslip & Himp & _);
    [reflexivity | discriminate | discriminate |].
  exists r. split; [exact Hr|].
  injection Hside as <- <-.
  rewrite Hfill, Hslip, Himp. repeat split; reflexivity.
Defined.

(** The claim as first stated asks only for the consumed side to be
    non-empty.  With an empty bid side the same Market Buy is not
    simulated at all: the guard returns the inactive result. *)
Lemma market_order_empty_opposite_side :
  simulateOrder sample_market_buy
    (Some (mkBook [] [lv 100 1; lv 101 2] 1700000000000)%float)
  = Return {| form := sample_market_buy; fillPercentage := 0%float;
              marketImpact := 0%float; slippage := 0%float;
              timeToFill := None; active := false |}.
Proof. reflexivity. Qed.

(** ** C3: the simulator fails soft *)

(** C3.  If either side of the book is empty, [simulateOrder] returns the
    zero-valued inactive result; and on every input (a missing book
    included) it returns a result and does not throw. *)
Theorem simulateOrder_fails_soft :
  forall (N : Type) (HN : Number N) (f : OrderForm N),
    (forall book : OrderBook N,
        bids book = [] \/ asks book = [] ->
        simulateOrder f (Some book) =
          Return {| form := f; fillPercentage := of_Z 0; marketImpact := of_Z 0;
                    slippage := of_Z 0; timeToFill := None; active := false |})
    /\ (forall orderBook : option (OrderBook N),
          exists r, simulateOrder f orderBook = Return r).
Proof.
  intros N HN f. split.
  - intros book Hempty. by rewrite simulateOrder_empty_side.
  - intros [book|]; [|by eexists].
    destruct (bids book) as [|b bs] eqn:Hb.
    { eexists. apply simulateOrder_empty_side. by left. }
    destruct (asks book) as [|a l] eqn:Ha.
    { eexists. apply simulateOrder_empty_side. by right. }
    rewrite simulateOrder_nonempty by (rewrite ?Hb, ?Ha; done).
    destruct (type f).
    + unfold simulateMarket. rewrite Hb, Ha. destruct (side f); by eexists.
    + unfold simulateLimit. by eexists.
Qed.

Lemma simulateOrder_fails_soft_witness :
  (bids (mkBook [] [lv 100 1] 0)%float = [] \/ asks (mkBook [] [lv 100 1] 0)%float = []) /\
  simulateOrder sample_market_buy (Some (mkBook [] [lv 100 1] 0)%float) =
    Return {| form := sample_market_buy; fillPercentage := 0%float;
              marketImpact := 0%float; slippage := 0%float;
              timeToFill := None; active := false |}.
Proof.
  split; [by left|].
  exact (proj1 (simulateOrder_fails_soft float _ sample_market_buy)
           (mkBook [] [lv 100 1] 0)%float (or_introl eq_refl)).
Defined.

(** ** Exact arithmetic on finite numbers *)

Lemma fin_inv (a : xnum) : finite_nonneg a -> exists q, a = Fin q /\ (0 <= q)%Q.
Proof. destruct a; cbn; intros Ha; try done. by eexists. Qed.

Lemma Qeq_bool_false (x y : Q) : Qeq_bool x y = false <-> ~ (x == y)%Q.
Proof.
  split.
  - intros Hb Heq. apply Qeq_bool_iff in Heq. congruence.
  - intros Hne. destruct (Qeq_bool x y) eqn:Hb; [|done].
    apply Qeq_bool_iff in Hb. done.
Qed.

Lemma Qle_bool_false (x y : Q) : Qle_bool x y = false <-> (y < x)%Q.
Proof.
  split.
  - intros Hb. apply Qnot_le_lt. intros Hle. apply Qle_bool_iff in Hle. congruence.
  - intros Hlt. destruct (Qle_bool x y) eqn:Hb; [|done].
    apply Qle_bool_iff in Hb. apply Qle_not_lt in Hb. done.
Qed.

(** ** The shape of the aggregated book *)

Section AggregatorShape.
Context {N : Type} `{!Number N}.

Lemma sort_insert_length {A} (cmp : A -> A -> N) x l :
  length (sort_insert cmp x l) = S (length l).
Proof. induction l as [|y l IH]; cbn; [done|]. destruct (nlt _ _); cbn; lia. Qed.

Lemma js_sort_length {A} (cmp : A -> A -> N) l :
  length (js_sort cmp l) = length l.
Proof. induction l as [|x l IH]; cbn; [done|]. rewrite sort_insert_length. lia. Qed.

Lemma sort_insert_Forall {A} (P : A -> Prop) (cmp : A -> A -> N) x l :
  P x -> Forall P l -> Forall P (sort_insert cmp x l).
Proof.
  intros Hx. induction 1 as [|y l Hy Hl IH]; cbn; [by repeat constructor|].
  destruct (nlt _ _); repeat constructor; done.
Qed.

Lemma js_sort_Forall {A} (P : A -> Prop) (cmp : A -> A -> N) l :
  Forall P l -> Forall P (js_sort cmp l).
Proof. induction 1; cbn; [constructor|]. by apply sort_insert_Forall. Qed.

Lemma accumulate_length (levels : list (OrderLevel N)) run :
  length (accumulate run levels).1 = length levels.
Proof.
  revert run. induction levels as [|l rest IH]; intros run; cbn; [done|].
  specialize (IH (nadd run (quantity l))).
  destruct (accumulate _ rest). cbn in *. lia.
Qed.

Lemma processOrderBookData_lengths (book : OrderBook N) :
  length (bids (processOrderBookData book)) <= 15 /\
  length (asks (processOrderBookData book)) <= 15.
Proof.
  unfold processOrderBookData.
  destruct (accumulate _ (take 15 (js_sort _ (bids book)))) as [b1 bt] eqn:Hb.
  destruct (accumulate _ (take 15 (js_sort _ (asks book)))) as [a1 at'] eqn:Ha.
  cbn. rewrite !length_map.
  apply (f_equal fst) in Hb, Ha. cbn in Hb, Ha. subst b1 a1.
  rewrite !accumulate_length, !length_take. lia.
Qed.

End AggregatorShape.






(** ** C9: aggregating twice *)

Section SortFixpoint.
Context {N : Type} `{!Number N} {A : Type} (cmp : A -> A -> N).

Hypothesis cmp_asym :
  forall a b, nlt (cmp a b) (of_Z 0) = true -> nlt (cmp b a) (of_Z 0) = false.

Lemma ordered_tail x l : ordered cmp (x :: l) -> ordered cmp l.
Proof. destruct l; cbn; tauto. Qed.

Lemma sort_insert_ordered x l : ordered cmp l -> ordered cmp (sort_insert cmp x l).
Proof using cmp_asym.
  induction l as [|y l IH]; cbn [sort_insert]; [done|]. intros Hord.
  destruct (nlt (cmp y x) (of_Z 0)) eqn:Hyx.
  - specialize (IH (ordered_tail _ _ Hord)).
    destruct l as [|z l]; cbn [sort_insert] in *.
    + split; [by apply cmp_asym|done].
    + destruct (nlt (cmp z x) (of_Z 0)) eqn:Hzx.
      * split; [apply Hord|exact IH].
      * split; [by apply cmp_asym|exact IH].
  - split; done.
Qed.

Lemma js_sort_ordered l : ordered cmp (js_sort cmp l).
Proof using cmp_asym.
  induction l as [|x l IH]; cbn [js_sort]; [done|]. by apply sort_insert_ordered.
Qed.

Lemma js_sort_fixpoint l : ordered cmp l -> js_sort cmp l = l.
Proof.
  induction l as [|x l IH]; [done|]. intros Hord. cbn [js_sort].
  rewrite IH by (eapply ordered_tail; exact Hord).
  destruct l as [|y l]; [done|]. cbn. destruct Hord as [-> _]. done.
Qed.

Lemma ordered_take n l : ordered cmp l -> ordered cmp (take n l).
Proof.
  revert l. induction n as [|n IH]; intros [|x l]; cbn [take]; try done.
  intros Hord. specialize (IH l (ordered_tail _ _ Hord)).
  destruct l as [|y l]; [by destruct n|].
  destruct n as [|n]; [done|]. cbn [take] in *. split; [apply Hord|exact IH].
Qed.
End SortFixpoint.

Section Reaggregate.
Context {N : Type} `{!Number N}.

Lemma accumulate_total_ext (l l' : list (OrderLevel N)) run :
  Forall2 same_order_data l l' -> (accumulate run l).2 = (accumulate run l').2.
Proof.
  intros H2. revert run. induction H2 as [|a b l l' [_ Hq] _ IH]; intros run; [done|].
  cbn. rewrite Hq. specialize (IH (nadd run (quantity b))).
  do 2 destruct (accumulate _ _). done.
Qed.

Lemma annotated_ext (l l' : list (OrderLevel N)) run m :
  Forall2 same_order_data l l' -> annotated run m l = annotated run m l'.
Proof.
  unfold annotated. intros H2. revert run.
  induction H2 as [|a b l l' [Hp Hq] _ IH]; intros run; [done|].
  cbn. rewrite Hq. specialize (IH (nadd run (quantity b))).
  do 2 destruct (accumulate _ _). cbn in *. f_equal; [|done].
  unfold set_percentage, depth_percentage. cbn. by rewrite Hp, Hq.
Qed.

Lemma annotated_same_data (l : list (OrderLevel N)) run m :
  Forall2 same_order_data (annotated run m l) l.
Proof.
  unfold annotated. revert run. induction l as [|a l IH]; intros run; [constructor|].
  cbn. specialize (IH (nadd run (quantity a))).
  destruct (accumulate _ _). cbn in *. constructor; done.
Qed.

Lemma annotated_length (l : list (OrderLevel N)) run m :
  length (annotated run m l) = length l.
Proof. unfold annotated. by rewrite length_map, accumulate_length. Qed.

Lemma ordered_same_data (g : N -> N -> N) (l l' : list (OrderLevel N)) :
  Forall2 same_order_data l l' ->
  ordered (fun a b => g (price a) (price b)) l' ->
  ordered (fun a b => g (price a) (price b)) l.
Proof.
  induction 1 as [|a b l l' [Hab _] H2 IH]; [done|].
  destruct H2 as [|c d l l' [Hcd _] H2]; [done|].
  intros [Hhead Hrest]. split; [by rewrite Hab, Hcd|]. by apply IH.
Qed.

Lemma processOrderBookData_unfold (book : OrderBook N) :
  processOrderBookData book =
    let bids0 := take 15 (js_sort (fun a b => nsub (price b) (price a)) (bids book)) in
    let asks0 := take 15 (js_sort (fun a b => nsub (price a) (price b)) (asks book)) in
    let maxTotal := nmax (accumulate (of_Z 0) bids0).2 (accumulate (of_Z 0) asks0).2 in
    {| bids := annotated (of_Z 0) maxTotal bids0;
       asks := annotated (of_Z 0) maxTotal asks0;
       timestamp := timestamp book |}.
Proof.
  unfold processOrderBookData, annotated. cbn.
  do 2 destruct (accumulate _ _). reflexivity.
Qed.

Hypothesis sub_asym :
  forall a b : N, nlt (nsub a b) (of_Z 0) = true -> nlt (nsub b a) (of_Z 0) = false.

Lemma resort_side (g : N -> N -> N) (levels : list (OrderLevel N)) run m :
  (forall a b, nlt (g a b) (of_Z 0) = true -> nlt (g b a) (of_Z 0) = false) ->
  let cmp := fun a b : OrderLevel N => g (price a) (price b) in
  take 15 (js_sort cmp (annotated run m (take 15 (js_sort cmp levels))))
  = annotated run m (take 15 (js_sort cmp levels)).
Proof.
  intros Hg cmp.
  rewrite js_sort_fixpoint.
  - apply take_ge. rewrite annotated_length, length_take. lia.
  - apply (ordered_same_data g _ (take 15 (js_sort cmp levels))).
    + apply annotated_same_data.
    + apply ordered_take, js_sort_ordered. intros a b. apply Hg.
Qed.

Lemma processOrderBookData_twice (book : OrderBook N) :
  processOrderBookData (processOrderBookData book) = processOrderBookData book.
Proof using sub_asym.
  rewrite (processOrderBookData_unfold (processOrderBookData book)).
  rewrite (processOrderBookData_unfold book). cbn zeta. cbn [bids asks timestamp].
  set (bids0 := take 15 (js_sort (fun a b => nsub (price b) (price a)) (bids book))).
  set (asks0 := take 15 (js_sort (fun a b => nsub (price a) (price b)) (asks book))).
  set (m := nmax (accumulate (of_Z 0) bids0).2 (accumulate (of_Z 0) asks0).2).
  pose proof (resort_side (fun p q => nsub q p) (bids book) (of_Z 0) m) as Hb.
  pose proof (resort_side (fun p q => nsub p q) (asks book) (of_Z 0) m) as Ha.
  cbn beta zeta in Hb, Ha. fold bids0 in Hb. fold asks0 in Ha.
  rewrite Hb, Ha by (intros a b; apply sub_asym).
  assert (Hm : nmax (accumulate (of_Z 0) (annotated (of_Z 0) m bids0)).2
                    (accumulate (of_Z 0) (annotated (of_Z 0) m asks0)).2 = m).
  { rewrite (accumulate_total_ext (annotated (of_Z 0) m bids0) bids0)
      by apply annotated_same_data.
    rewrite (accumulate_total_ext (annotated (of_Z 0) m asks0) asks0)
      by apply annotated_same_data. done. }
  rewrite Hm.
  rewrite (annotated_ext (annotated (of_Z 0) m bids0) bids0) by apply annotated_same_data.
  rewrite (annotated_ext (annotated (of_Z 0) m asks0) asks0) by apply annotated_same_data.
  reflexivity.
Qed.
End Reaggregate.

Lemma xsub_asym (a b : xnum) :
  xlt (xsub a b) (Fin 0) = true -> xlt (xsub b a) (Fin 0) = false.
Proof.
  destruct a as [x| | |], b as [y| | |]; cbn; try done.
  rewrite !negb_true_iff, !negb_false_iff.
  intros Hlt. apply Qle_bool_false in Hlt. apply Qle_bool_iff.
  rewrite Qred_correct in *. lra.
Qed.

(** C9.  In exact arithmetic, aggregating an aggregated book changes
    nothing: [processOrderBookData (processOrderBookData b) =
    processOrderBookData b] for every book [b], so in particular for the
    books of at most 15 levels per side that are already the output of
    [processOrderBookData], which are then fixed points. *)
Theorem aggregate_idempotent :
  forall b : OrderBook xnum,
    processOrderBookData (processOrderBookData b) = processOrderBookData b.
Proof. intros b. apply processOrderBookData_twice. exact xsub_asym. Qed.

(** The same in binary64, on a book given out of order. *)
Example aggregate_binary64 :
  let raw := (mkBook [lv 99 1; lv 100 3] [lv 102 2; lv 101 0] 1700000000000)%float in
  processOrderBookData raw
  = (mkBook [mkLevel 100 3 (Some 3) (Some 75); mkLevel 99 1 (Some 4) (Some 100)]
            [mkLevel 101 0 (Some 0) (Some 0); mkLevel 102 2 (Some 2) (Some 50)]
            1700000000000)%float
  /\ processOrderBookData (processOrderBookData raw) = processOrderBookData raw.
Proof. split; reflexivity. Qed.

(** ** C6: a market order that fills nothing *)

(** C6 (the code departs from the claim).  A Market Buy for 1 against a
    book whose only ask has quantity 0 fills nothing, so the average price
    is [0/0]: the returned slippage is [NaN], which is not [>= 0].  The
    limit branch guards the same division with [|| 1]; the market branch
    does not.  Evaluated in binary64 and in exact arithmetic. *)
Theorem market_order_zero_fill_slippage_nan :
  simulateOrder (mkForm OKX "BTC-USDT" Market Buy None 1 immediate)%float
    (Some (mkBook [lv 100 1] [lv 101 0] 1700000000000)%float)
  = Return {| form := (mkForm OKX "BTC-USDT" Market Buy None 1 immediate)%float;
              fillPercentage := 0%float; marketImpact := 100%float;
              slippage := PrimFloat.nan;
              timeToFill := Some "Immediate"; active := true |}
  /\ nle 0%float PrimFloat.nan = false
  /\ simulateOrder (mkForm OKX "BTC-USDT" Market Buy None (Fin 1) immediate)
       (Some (mkBook [lv (Fin 100) (Fin 1)] [lv (Fin 101) (Fin 0)] (Fin 1700000000000)))
     = Return {| form := mkForm OKX "BTC-USDT" Market Buy None (Fin 1) immediate;
                 fillPercentage := Fin 0; marketImpact := Fin 100;
                 slippage := NaN;
                 timeToFill := Some "Immediate"; active := true |}
  /\ nle (Fin 0) NaN = false.
Proof. repeat split; reflexivity. Qed.

(** ** C10: a limit sell that fills nothing *)

(** C10 (the code departs from the claim).  A Limit Sell at 105 against
    bids [{100,1}] has no fillable level; the average filled price is then
    [0 / 1 = 0] and the sell formula gives [(105 - 0) / 105 * 100 = 100],
    not 0.  The mirrored Limit Buy at 95 against asks [{101,1}] does
    return slippage 0.  Evaluated in binary64 and in exact arithmetic. *)
Theorem limit_sell_unfilled_slippage_100 :
  simulateOrder (mkForm OKX "BTC-USDT" Limit Sell (Some 105) 1 immediate)%float
    (Some (mkBook [lv 100 1] [lv 101 1] 1700000000000)%float)
  = Return {| form := (mkForm OKX "BTC-USDT" Limit Sell (Some 105) 1 immediate)%float;
              fillPercentage := 0%float; marketImpact := 50%float;
              slippage := 100%float;
              timeToFill := Some "Partial fill"; active := true |}
  /\ simulateOrder (mkForm OKX "BTC-USDT" Limit Buy (Some 95) 1 immediate)%float
       (Some (mkBook [lv 100 1] [lv 101 1] 1700000000000)%float)
     = Return {| form := (mkForm OKX "BTC-USDT" Limit Buy (Some 95) 1 immediate)%float;
                 fillPercentage := 0%float; marketImpact := 50%float;
                 slippage := 0%float;
                 timeToFill := Some "Partial fill"; active := true |}
  /\ simulateOrder (mkForm OKX "BTC-USDT" Limit Sell (Some (Fin 105)) (Fin 1) immediate)
       (Some (mkBook [lv (Fin 100) (Fin 1)] [lv (Fin 101) (Fin 1)] (Fin 1700000000000)))
     = Return {| form := mkForm OKX "BTC-USDT" Limit Sell (Some (Fin 105)) (Fin 1) immediate;
                 fillPercentage := Fin 0; marketImpact := Fin 50;
                 slippage := Fin 100;
                 timeToFill := Some "Partial fill"; active := true |}.
Proof. repeat split; reflexivity. Qed.

(** ** The aggregator on shared objects: what it leaves alone *)

Section StoreFrame.
Context {N : Type} `{!Number N}.

Lemma same_orders_refl (h : gmap nat (OrderLevel N)) : same_orders h h.
Proof. intros a. destruct (h !! a); constructor. done. Qed.

Lemma same_orders_trans (h1 h2 h3 : gmap nat (OrderLevel N)) :
  same_orders h1 h2 -> same_orders h2 h3 -> same_orders h1 h3.
Proof.
  intros H12 H23 a. specialize (H12 a). specialize (H23 a).
  destruct H12 as [x y [Hp Hq]|]; inversion H23 as [y' z [Hp' Hq']|]; subst;
    constructor. split; congruence.
Qed.

Lemma same_orders_insert (h : gmap nat (OrderLevel N)) a l l' :
  h !! a = Some l -> same_order_data l l' -> same_orders h (<[a := l']> h).
Proof.
  intros Ha Hsame b. destruct (decide (a = b)) as [<-|Hne].
  - rewrite lookup_insert_eq, Ha. by constructor.
  - rewrite lookup_insert_ne by done. apply same_orders_refl.
Qed.

Lemma accumulate_store_frame refs run (h : gmap nat (OrderLevel N)) a :
  a ∉ refs -> (accumulate_store run refs h).1 !! a = h !! a.
Proof.
  revert run h. induction refs as [|b refs IH]; intros run h Hnot; [done|].
  apply not_elem_of_cons in Hnot as [Hne Hnot]. cbn.
  destruct (h !! b) as [l|] eqn:Hb.
  - rewrite IH by done. by rewrite lookup_insert_ne.
  - by apply IH.
Qed.

Lemma accumulate_store_same_orders refs run (h : gmap nat (OrderLevel N)) :
  same_orders h (accumulate_store run refs h).1.
Proof.
  revert run h. induction refs as [|b refs IH]; intros run h; cbn.
  - apply same_orders_refl.
  - destruct (h !! b) as [l|] eqn:Hb; [|apply IH].
    eapply same_orders_trans; [|apply IH].
    by apply (same_orders_insert h b l).
Qed.

Lemma percentages_store_frame refs m (h : gmap nat (OrderLevel N)) a :
  a ∉ refs -> percentages_store m refs h !! a = h !! a.
Proof.
  revert h. induction refs as [|b refs IH]; intros h Hnot; [done|].
  apply not_elem_of_cons in Hnot as [Hne Hnot]. cbn.
  destruct (h !! b) as [l|] eqn:Hb.
  - rewrite IH by done. by rewrite lookup_insert_ne.
  - by apply IH.
Qed.

Lemma percentages_store_same_orders refs m (h : gmap nat (OrderLevel N)) :
  same_orders h (percentages_store m refs h).
Proof.
  revert h. induction refs as [|b refs IH]; intros h; cbn.
  - apply same_orders_refl.
  - destruct (h !! b) as [l|] eqn:Hb; [|apply IH].
    eapply same_orders_trans; [|apply IH].
    by apply (same_orders_insert h b l).
Qed.

Lemma sort_insert_elem {A} (cmp : A -> A -> N) x y l :
  y ∈ sort_insert cmp x l -> y = x \/ y ∈ l.
Proof.
  induction l as [|z l IH]; cbn.
  - intros ->%list_elem_of_singleton. by left.
  - destruct (nlt _ _).
    + intros [->|Hin]%elem_of_cons; [right; left|].
      destruct (IH Hin) as [->|Hl]; [by left|right; by right].
    + intros [->|Hin]%elem_of_cons; [by left|by right].
Qed.

Lemma js_sort_elem {A} (cmp : A -> A -> N) y l : y ∈ js_sort cmp l -> y ∈ l.
Proof.
  induction l as [|x l IH]; cbn; [done|].
  intros [->|Hin]%sort_insert_elem; [left|right; auto].
Qed.

Lemma kept_refs_subset {A} (cmp : A -> A -> N) y l :
  y ∈ take 15 (js_sort cmp l) -> y ∈ l.
Proof. intros Hin. eapply js_sort_elem, subseteq_take, Hin. Qed.
End StoreFrame.

(** What aggregation leaves alone: the price and the quantity of every
    level object, every field of a level object that is not among the
    levels it returns, and the set of level objects; the level objects it
    returns are objects of its argument, and the timestamp is the
    argument's. *)
Theorem aggregate_frame :
  forall (N : Type) (HN : Number N) (h : gmap nat (OrderLevel N)) (raw : BookRef),
    let h' := (processOrderBookData_store h raw).1 in
    let out := (processOrderBookData_store h raw).2 in
    same_orders h h' /\
    (forall a, a ∉ bid_refs out ++ ask_refs out -> h' !! a = h !! a) /\
    (forall a, a ∈ bid_refs out -> a ∈ bid_refs raw) /\
    (forall a, a ∈ ask_refs out -> a ∈ ask_refs raw) /\
    ref_timestamp out = ref_timestamp raw.
Proof.
  intros N HN h raw. unfold processOrderBookData_store.
  set (bids0 := take 15 (js_sort _ (bid_refs raw))).
  set (asks0 := take 15 (js_sort _ (ask_refs raw))).
  pose proof (accumulate_store_same_orders bids0 (of_Z 0) h) as S1.
  pose proof (fun a => accumulate_store_frame bids0 (of_Z 0) h a) as F1.
  destruct (accumulate_store (of_Z 0) bids0 h) as [h1 bidTotal]. cbn [fst] in S1, F1.
  pose proof (accumulate_store_same_orders asks0 (of_Z 0) h1) as S2.
  pose proof (fun a => accumulate_store_frame asks0 (of_Z 0) h1 a) as F2.
  destruct (accumulate_store (of_Z 0) asks0 h1) as [h2 askTotal]. cbn [fst] in S2, F2.
  cbn [fst snd bid_refs ask_refs ref_timestamp].
  set (m := nmax bidTotal askTotal).
  repeat split.
  - eapply same_orders_trans; [exact S1|]. eapply same_orders_trans; [exact S2|].
    eapply same_orders_trans; apply percentages_store_same_orders.
  - intros a Hnot. apply not_elem_of_app in Hnot as [Hb Ha].
    rewrite !percentages_store_frame by done. rewrite F2 by done. by apply F1.
  - intros a. apply kept_refs_subset.
  - intros a. apply kept_refs_subset.
Qed.

(** ** C8: aggregation writes to the level objects of its argument *)

Section StoreWrites.
Context {N : Type} `{!Number N}.

(** A property of level objects that no assignment of [total] or
    [percentage] undoes. *)
Variable P : OrderLevel N -> Prop.
Hypothesis P_total : forall l t, P l -> P (set_total l t).
Hypothesis P_percentage : forall l p, P l -> P (set_percentage l p).

Lemma accumulate_store_keeps refs run (h : gmap nat (OrderLevel N)) a l :
  h !! a = Some l -> P l ->
  exists l', (accumulate_store run refs h).1 !! a = Some l' /\ P l'.
Proof using P_total.
  revert run h l. induction refs as [|b refs IH]; intros run h l Ha Hl; [by exists l|].
  cbn. destruct (h !! b) as [lb|] eqn:Hb; [|by apply (IH _ _ l)].
  destruct (decide (a = b)) as [->|Hne].
  - apply (IH _ _ (set_total lb (nadd run (quantity lb)))).
    + by rewrite lookup_insert_eq.
    + apply P_total. congruence.
  - apply (IH _ _ l); [|done]. by rewrite lookup_insert_ne.
Qed.

Lemma percentages_store_keeps refs m (h : gmap nat (OrderLevel N)) a l :
  h !! a = Some l -> P l ->
  exists l', percentages_store m refs h !! a = Some l' /\ P l'.
Proof using P_percentage.
  revert h l. induction refs as [|b refs IH]; intros h l Ha Hl; [by exists l|].
  cbn. destruct (h !! b) as [lb|] eqn:Hb; [|by apply (IH _ l)].
  destruct (decide (a = b)) as [->|Hne].
  - apply (IH _ (set_percentage lb (depth_percentage m lb))).
    + by rewrite lookup_insert_eq.
    + apply P_percentage. congruence.
  - apply (IH _ l); [|done]. by rewrite lookup_insert_ne.
Qed.
End StoreWrites.

Section StoreSets.
Context {N : Type} `{!Number N}.

Lemma accumulate_store_sets refs run (h : gmap nat (OrderLevel N)) a l :
  a ∈ refs -> h !! a = Some l ->
  exists l', (accumulate_store run refs h).1 !! a = Some l' /\ is_Some (total l').
Proof.
  revert run h l. induction refs as [|b refs IH]; intros run h l Hin Ha;
    [by apply elem_of_nil in Hin|].
  cbn. destruct (decide (a = b)) as [->|Hne].
  - rewrite Ha.
    apply (accumulate_store_keeps (fun l' => is_Some (total l'))) with
      (l := set_total l (nadd run (quantity l))); try done.
    by rewrite lookup_insert_eq.
  - apply elem_of_cons in Hin as [?|Hin]; [done|].
    destruct (h !! b) as [lb|] eqn:Hb; [|by apply (IH _ _ l)].
    apply (IH _ _ l); [done|]. by rewrite lookup_insert_ne.
Qed.

Lemma percentages_store_sets refs m (h : gmap nat (OrderLevel N)) a l :
  a ∈ refs -> h !! a = Some l ->
  exists l', percentages_store m refs h !! a = Some l' /\ is_Some (percentage l').
Proof.
  revert h l. induction refs as [|b refs IH]; intros h l Hin Ha;
    [by apply elem_of_nil in Hin|].
  cbn. destruct (decide (a = b)) as [->|Hne].
  - rewrite Ha.
    apply (percentages_store_keeps (fun l' => is_Some (percentage l'))) with
      (l := set_percentage l (depth_percentage m l)); try done.
    by rewrite lookup_insert_eq.
  - apply elem_of_cons in Hin as [?|Hin]; [done|].
    destruct (h !! b) as [lb|] eqn:Hb; [|by apply (IH _ l)].
    apply (IH _ l); [done|]. by rewrite lookup_insert_ne.
Qed.
End StoreSets.

(** C8 (the code departs from the claim).  [processOrderBookData] copies
    the two arrays of its argument before it sorts them, but the copies
    hold the level objects of the argument, and the two loops assign
    [total] and [percentage] on them.  In every number model and for every
    book: each level object that is among the levels returned is, after
    the call, an object with a [total] and a [percentage] (its price and
    quantity are as before); so an argument whose levels had neither, as a
    parser delivers them, has been modified.  At a book with one bid and
    one ask, in binary64: both objects of the argument carry the two
    fields after the call. *)
Theorem aggregate_writes_input_levels :
  (forall (N : Type) (HN : Number N) (h : gmap nat (OrderLevel N)) (raw : BookRef)
          (a : nat) (l : OrderLevel N),
      let h' := (processOrderBookData_store h raw).1 in
      let out := (processOrderBookData_store h raw).2 in
      a ∈ bid_refs out ++ ask_refs out -> h !! a = Some l ->
      exists l', h' !! a = Some l' /\
                 price l' = price l /\ quantity l' = quantity l /\
                 is_Some (total l') /\ is_Some (percentage l'))
  /\ (sample_store !! 0%nat = Some (mkLevel 100 1 None None) /\
      sample_store !! 1%nat = Some (mkLevel 101 2 None None) /\
      (processOrderBookData_store sample_store sample_book_ref).1 !! 0%nat
        = Some (mkLevel 100 1 (Some 1) (Some 50)) /\
      (processOrderBookData_store sample_store sample_book_ref).1 !! 1%nat
        = Some (mkLevel 101 2 (Some 2) (Some 100)))%float.
Proof.
  split; [|repeat split; vm_compute; reflexivity].
  intros N HN h raw a l. unfold processOrderBookData_store.
  set (bids0 := take 15 (js_sort _ (bid_refs raw))).
  set (asks0 := take 15 (js_sort _ (ask_refs raw))).
  destruct (accumulate_store (of_Z 0) bids0 h) as [h1 bidTotal] eqn:E1.
  destruct (accumulate_store (of_Z 0) asks0 h1) as [h2 askTotal] eqn:E2.
  cbn [fst snd bid_refs ask_refs]. set (m := nmax bidTotal askTotal).
  intros Hin Ha.
  set (same := fun l' : OrderLevel N => price l' = price l /\ quantity l' = quantity l).
  set (written := fun l' : OrderLevel N => same l' /\ is_Some (total l')).
  assert (Hsame_t : forall l0 t, same l0 -> same (set_total l0 t)) by done.
  assert (Hsame_p : forall l0 p, same l0 -> same (set_percentage l0 p)) by done.
  assert (Hw_t : forall l0 t, written l0 -> written (set_total l0 t)).
  { intros l0 t [Hs _]. split; [done|]. by eexists. }
  assert (Hw_p : forall l0 p, written l0 -> written (set_percentage l0 p)) by done.
  (* after the two loops over the quantities the object has a total *)
  assert (exists l2, h2 !! a = Some l2 /\ written l2) as (l2 & H2 & Hl2).
  { destruct (accumulate_store_keeps same Hsame_t bids0 (of_Z 0) h a l Ha)
      as (l1 & H1 & Hs1); [done|].
    rewrite E1 in H1. cbn [fst] in H1.
    apply elem_of_app in Hin as [Hb|Has].
    - destruct (accumulate_store_sets bids0 (of_Z 0) h a l Hb Ha) as (l1' & H1' & Ht1).
      rewrite E1 in H1'. cbn [fst] in H1'.
      assert (l1' = l1) as -> by congruence.
      destruct (accumulate_store_keeps written Hw_t asks0 (of_Z 0) h1 a l1 H1)
        as (l2 & H2 & Hl2); [done|].
      rewrite E2 in H2. by exists l2.
    - destruct (accumulate_store_keeps same Hsame_t asks0 (of_Z 0) h1 a l1 H1 Hs1)
        as (l2 & H2 & Hs2).
      destruct (accumulate_store_sets asks0 (of_Z 0) h1 a l1 Has H1) as (l2' & H2' & Ht2).
      rewrite E2 in H2, H2'. cbn [fst] in H2, H2'.
      assert (l2' = l2) as -> by congruence. by exists l2. }
  clear Ha. set (full := fun l' : OrderLevel N => written l' /\ is_Some (percentage l')).
  assert (Hf_p : forall l0 p, full l0 -> full (set_percentage l0 p)).
  { intros l0 p [Hw _]. split; [by apply Hw_p|]. by eexists. }
  destruct (percentages_store_keeps written Hw_p bids0 m h2 a l2 H2 Hl2)
    as (l3 & H3 & Hl3).
  assert (exists l4, percentages_store m asks0 (percentages_store m bids0 h2) !! a
                     = Some l4 /\ full l4) as (l4 & H4 & [[[Hp Hq] Ht] Hpc]).
  { apply elem_of_app in Hin as [Hb|Has].
    - destruct (percentages_store_sets bids0 m h2 a l2 Hb H2) as (l3' & H3' & Hpc3).
      assert (l3' = l3) as -> by congruence.
      by apply (percentages_store_keeps full Hf_p asks0 m _ a l3).
    - destruct (percentages_store_keeps written Hw_p asks0 m _ a l3 H3 Hl3)
        as (l4 & H4 & Hl4).
      destruct (percentages_store_sets asks0 m _ a l3 Has H3) as (l4' & H4' & Hpc4).
      assert (l4' = l4) as -> by congruence. by exists l4. }
  by exists l4.
Qed.

(** ** Messages that are not order-book payloads *)

Section AdapterFacts.
Context {N : Type} `{!Number N}.
Variable parseFloat : value N -> outcome N.
Variable JSON_parse : string -> outcome (value N).
Variable now : N.

Local Abbreviation parse := (parseMessage parseFloat JSON_parse now).

Lemma try_catch_returns {A} (m : outcome A) (h : A) : exists r, try_catch m h = Return r.
Proof. destruct m; by eexists. Qed.

(** The only exception that leaves a parser is the one raised by reading
    a property of a [null] or [undefined] message, before the [try]. *)
Lemma parseMessage_returns (e : Exchange) (message : value N) :
  message <> VNull -> message <> VUndefined -> exists r, parse e message = Return r.
Proof.
  intros Hnull Hundef.
  destruct e; cbn; unfold parseMessage_OKX, parseMessage_Bybit, parseMessage_Deribit.
  - destruct message; try done; cbn;
      repeat case_match; try (by eexists); apply try_catch_returns.
  - destruct message; try done; cbn;
      repeat case_match; try (by eexists); apply try_catch_returns.
  - destruct message; try done; cbn; try by eexists.
    destruct (default VUndefined (properties !! "params")) eqn:Hp; cbn;
      repeat case_match; try (by eexists); apply try_catch_returns.
Qed.

Lemma bind_Return {A B} (m : outcome A) (k : A -> outcome B) (b : B) :
  m ≫= k = Return b -> exists a, m = Return a /\ k a = Return b.
Proof. destruct m as [a|]; [|done]. intros Hk. by exists a. Qed.

Lemma try_catch_Some {A} (m : outcome (option A)) (b : A) :
  try_catch m None = Return (Some b) -> m = Return (Some b).
Proof. by destruct m. Qed.

Lemma get_field_obj (v w : value N) (k : string) :
  get_field v k = Return w -> js_truthy w = true ->
  exists props, v = VObj props /\ props !! k = Some w.
Proof.
  destruct v; cbn; try done; try (by intros [= <-]).
  intros [= <-]. destruct (properties !! k) eqn:Hk; [|done]. by eexists.
Qed.

Lemma has_property_true (v : value N) (k : string) :
  has_property k v = Return true ->
  exists props w, v = VObj props /\ props !! k = Some w.
Proof.
  destruct v; cbn; try done. intros [= Hk%bool_decide_eq_true].
  destruct Hk as [w Hw]. by eexists _, _.
Qed.

Lemma array_elements_Return (v : value N) l :
  array_elements v = Return l -> v = VArr l.
Proof. destruct v; cbn; try done. by intros [= ->]. Qed.

Lemma parse_if_string_carried (d data : value N) :
  parse_if_string JSON_parse d = Return data -> carried_by JSON_parse d data.
Proof. destruct d; cbn; try done; by intros [= <-]. Qed.

(** A parser that returns a book was given a payload of its exchange. *)
Lemma parseMessage_Some_payload (e : Exchange) (message : value N) b :
  parse e message = Return (Some b) -> book_payload JSON_parse e message.
Proof.
  destruct e; cbn; unfold parseMessage_OKX, parseMessage_Bybit, parseMessage_Deribit.
  - intros (d & Hd & Hk)%bind_Return.
    destruct (js_truthy d) eqn:Htruthy; [|done]. cbn in Hk.
    apply get_field_obj in Hd as (props & -> & Hdata); [|done].
    apply try_catch_Some, bind_Return in Hk as (data & Hdata' & Hk).
    apply parse_if_string_carried in Hdata'.
    destruct data as [| | | | |elements|]; try done.
    destruct elements as [|d0 rest]; [done|]. cbn in Hk.
    destruct (js_truthy d0); [|done]. cbn in Hk.
    apply bind_Return in Hk as ([] & Hasks & Hk); [|done]. cbn in Hk.
    apply bind_Return in Hk as ([] & Hbids & Hk); [|done]. cbn in Hk.
    apply has_property_true in Hbids as (fields & w & -> & Hw).
    cbn in Hk. rewrite Hw in Hk. cbn in Hk.
    apply bind_Return in Hk as (bs & ->%array_elements_Return & Hk).
    apply bind_Return in Hk as (bids' & _ & Hk).
    destruct (fields !! "asks") as [w'|] eqn:Hw'; [|done]. cbn in Hk.
    apply bind_Return in Hk as (as' & ->%array_elements_Return & Hk).
    by exists props, d, rest, fields, bs, as'.
  - intros (d & Hd & Hk)%bind_Return.
    destruct (js_truthy d) eqn:Htruthy; [|done]. cbn in Hk.
    apply get_field_obj in Hd as (props & -> & Hdata); [|done].
    cbn in Hk. destruct (props !! "topic") as [[| | | |t| |]|] eqn:Htopic; try done.
    cbn in Hk. destruct (contains "orderbook" t) eqn:Hcontains; [|done]. cbn in Hk.
    apply try_catch_Some, bind_Return in Hk as (data & Hdata' & Hk).
    apply parse_if_string_carried in Hdata'.
    destruct (js_truthy data); [|done]. cbn in Hk.
    apply bind_Return in Hk as ([] & Ha & Hk); [|done]. cbn in Hk.
    apply bind_Return in Hk as ([] & Hb & Hk); [|done]. cbn in Hk.
    apply has_property_true in Hb as (fields & w & -> & Hw).
    cbn in Hk. rewrite Hw in Hk. cbn in Hk.
    apply bind_Return in Hk as (bs & ->%array_elements_Return & Hk).
    apply bind_Return in Hk as (bids' & _ & Hk).
    destruct (fields !! "a") as [w'|] eqn:Hw'; [|done]. cbn in Hk.
    apply bind_Return in Hk as (as' & ->%array_elements_Return & Hk).
    by exists props, d, t, fields, bs, as'.
  - intros (params & Hparams & Hk)%bind_Return.
    apply bind_Return in Hk as (d & Hd & Hk).
    destruct (js_truthy d) eqn:Htruthy; [|done]. cbn in Hk.
    assert (exists pfields, params = VObj pfields /\ pfields !! "data" = Some d)
      as (pfields & -> & Hdata).
    { destruct params; cbn in Hd; try (injection Hd as <-; done).
      destruct (properties !! "data") eqn:Hdata; cbn in Hd;
        injection Hd as <-; [by eexists|done]. }
    apply get_field_obj in Hparams as (props & -> & Hp); [|done].
    apply try_catch_Some, bind_Return in Hk as (bids_v & Hbids & Hk).
    apply bind_Return in Hk as (bs & ->%array_elements_Return & Hk).
    apply get_field_obj in Hbids as (fields & -> & Hb); [|done].
    apply bind_Return in Hk as (bids' & _ & Hk).
    cbn in Hk. destruct (fields !! "asks") as [w'|] eqn:Hw'; [|done]. cbn in Hk.
    apply bind_Return in Hk as (as' & ->%array_elements_Return & Hk).
    by exists props, pfields, fields, bs, as'.
Qed.

Lemma parseMessage_null_throws (e : Exchange) : parse e VNull = Throw TypeError.
Proof. by destruct e. Qed.

Lemma onmessage_returns (e : Exchange) (event_data : string) :
  exists r, onmessage parseFloat JSON_parse now e event_data = Return r.
Proof. apply try_catch_returns. Qed.
End AdapterFacts.

(** The claim as first stated also promises [null] for malformed
    messages.  A Deribit frame whose only bid is [["abc"]] (no number, no
    quantity) is returned as a book with price ["abc"] and an undefined
    quantity; an OKX frame whose price is the text [abc] is returned as a
    book with price [NaN]. *)
Lemma malformed_levels_are_returned :
  parseMessage parseFloat_exact not_json clock Deribit
    (obj [("params",
           obj [("data", obj [("bids", VArr [VArr [VStr "abc"]]); ("asks", VArr [])])])])
  = Return (Some {| bids := [mkLevel (VStr "abc") VUndefined None None];
                    asks := []; timestamp := VNum clock |})
  /\ parseMessage parseFloat_exact not_json clock OKX
       (obj [("data",
              VArr [obj [("bids", VArr [VArr [VStr "abc"; VStr "2"]]);
                         ("asks", VArr [])]])])
     = Return (Some {| bids := [mkLevel (VNum NaN) (VNum (Fin 2)) None None];
                       asks := []; timestamp := VNum clock |}).
Proof. split; reflexivity. Qed.

(** The example of the specification: the OKX frame
    [{data:[{bids:[["100.5","2"]], asks:[["101","3"]]}]}]. *)
Example okx_frame_normalizes :
  parseMessage parseFloat_exact not_json clock OKX
    (obj [("data",
           VArr [obj [("bids", VArr [VArr [VStr "100.5"; VStr "2"]]);
                      ("asks", VArr [VArr [VStr "101"; VStr "3"]])]])])
  = Return (Some {| bids := [mkLevel (VNum (Fin (201 # 2))) (VNum (Fin 2)) None None];
                    asks := [mkLevel (VNum (Fin 101)) (VNum (Fin 3)) None None];
                    timestamp := VNum clock |}).
Proof. reflexivity. Qed.

(** ** C7: the timestamp of a normalized book *)

(** C7 (the code departs from the claim).  On a payload that carries a
    timestamp [ts], the Bybit and Deribit parsers return [ts] itself when
    it is truthy and the clock otherwise ([or_now]); the OKX parser does
    not look at the [ts] field of its payload and stamps the clock
    whatever [ts] is.  For every engine and every value of the field. *)
Theorem okx_ignores_message_timestamp :
  forall (N : Type) (HN : Number N)
         (parseFloat : value N -> outcome N)
         (JSON_parse : string -> outcome (value N)) (now : N) (ts : value N),
    parseMessage parseFloat JSON_parse now OKX
      (obj [("data", VArr [obj [("asks", VArr []); ("bids", VArr []); ("ts", ts)]])])
    = Return (Some {| bids := []; asks := []; timestamp := VNum now |})
    /\ parseMessage parseFloat JSON_parse now Bybit
         (obj [("topic", VStr "orderbook.50.BTCUSDT");
               ("data", obj [("a", VArr []); ("b", VArr []); ("ts", ts)])])
       = Return (Some {| bids := []; asks := []; timestamp := or_now now ts |})
    /\ parseMessage parseFloat JSON_parse now Deribit
         (obj [("params",
                obj [("data", obj [("asks", VArr []); ("bids", VArr []);
                                   ("timestamp", ts)])])])
       = Return (Some {| bids := []; asks := []; timestamp := or_now now ts |}).
Proof. intros. repeat split; reflexivity. Qed.

(** The same at the timestamp of a real frame, in exact arithmetic. *)
Example timestamps_of_a_frame :
  let ts := VNum (Fin 1597026383085) in
  parseMessage parseFloat_exact not_json clock OKX
    (obj [("data", VArr [obj [("asks", VArr []); ("bids", VArr []); ("ts", ts)]])])
  = Return (Some {| bids := []; asks := []; timestamp := VNum clock |})
  /\ parseMessage parseFloat_exact not_json clock Bybit
       (obj [("topic", VStr "orderbook.50.BTCUSDT");
             ("data", obj [("a", VArr []); ("b", VArr []); ("ts", ts)])])
     = Return (Some {| bids := []; asks := []; timestamp := ts |}).
Proof. split; reflexivity. Qed.

(** ** C5: reconnection delays *)

Lemma attemptReconnect_exhausted (s : WebSocketService) :
  (maxReconnectAttempts <= reconnectAttempts s)%Z -> attemptReconnect s = s.
Proof.
  intros Hmax. unfold attemptReconnect.
  by rewrite (proj2 (Z.leb_le _ _) Hmax).
Qed.

Lemma attemptReconnect_delay (s : WebSocketService) :
  (reconnectAttempts s < maxReconnectAttempts)%Z ->
  timers (attemptReconnect s) =
    timers s ++ [Z.min (1000 * 2 ^ (reconnectAttempts s + 1)) 30000] /\
  reconnectAttempts (attemptReconnect s) = (reconnectAttempts s + 1)%Z.
Proof.
  intros Hlt. unfold attemptReconnect.
  by rewrite (proj2 (Z.leb_gt _ _) Hlt).
Qed.

(** C5.  From a service whose attempt counter is 0 (a new one, or one
    whose last connection opened), connected to a target: when the first
    connection and the five reconnections that follow all fail, each by a
    throwing constructor or by a socket that closes without opening, the
    timers set are exactly 2000, 4000, 8000, 16000 and 30000 ms: the
    counter is incremented before [min(1000 * 2^attempt, 30000)] is
    computed.  After the last failure the counter is 5, no timer is
    pending, and further close events or timer ticks set none. *)
Theorem reconnection_delays :
  forall (s0 : WebSocketService) (e : Exchange) (sym : string)
         (k0 k1 k2 k3 k4 k5 : bool),
    reconnectAttempts s0 = 0%Z -> sym <> "" ->
    let first := connect e sym k0 s0 in
    let s :=
      run ((if k0 then [] else [Closes]) ++ failed_retry k1 ++ failed_retry k2 ++
           failed_retry k3 ++ failed_retry k4 ++ failed_retry k5) first in
    timers s = timers s0 ++ [2000; 4000; 8000; 16000; 30000]%Z /\
    reconnectAttempts s = 5%Z /\
    timer_pending s = false /\
    isConnected s = false /\
    (forall evs, Forall (fun ev => ev <> Opens) evs -> timers (run evs s) = timers s).
Proof.
  intros s0 e sym k0 k1 k2 k3 k4 k5 Hfresh Hsym first s.
  destruct sym as [|c sym']; [done|]. clear Hsym.
  destruct s0 as [sock0 n0 timeout0 pending0 e0 sym0 mcb0 ecb0 timers0].
  cbn in Hfresh. subst n0.
  assert (Hs : s = {| socket := (if k5 then None else Some CLOSED);
                      reconnectAttempts := 5; reconnectTimeout := None;
                      timer_pending := false; currentExchange := Some e;
                      currentSymbol := Some (String c sym'); messageCallback := true;
                      errorCallback := true;
                      timers := ((((timers0 ++ [2000]) ++ [4000]) ++ [8000])
                                   ++ [16000]) ++ [30000] |}%Z).
  { subst s first. destruct k0, k1, k2, k3, k4, k5; reflexivity. }
  rewrite Hs. cbn [timers reconnectAttempts timer_pending].
  split; [by rewrite <- !app_assoc|]. split; [done|]. split; [done|].
  split; [by destruct k5|].
  intros evs Hevs. clear Hs s.
  set (t := {| socket := _ |}).
  assert (Hinv : forall evs s', Forall (fun ev => ev <> Opens) evs ->
            reconnectAttempts s' = 5%Z -> timer_pending s' = false ->
            timers (run evs s') = timers s').
  { clear. induction evs as [|ev evs IH]; intros s' Hevs Hn Hp; [done|].
    apply Forall_cons in Hevs as [Hev Hevs]. cbn.
    assert (step s' ev = s' \/ step s' ev = set_socket (Some CLOSED) s' \/
            step s' ev = set_socket None s') as Hstep.
    { destruct ev as [| | |k]; cbn; [done|by left| |].
      - unfold onclose.
        rewrite attemptReconnect_exhausted by (cbn; unfold maxReconnectAttempts; lia).
        destruct s' as [[r|] ? ? ? ? ? ? ? ?]; cbn; [right; by left|by left].
      - unfold timer_fires. rewrite Hp. by left. }
    unfold run in IH.
    destruct Hstep as [->|[->| ->]]; [by apply IH| |]; rewrite IH; done. }
  by apply Hinv.
Qed.

Lemma reconnection_delays_witness :
  reconnectAttempts new_service = 0%Z /\ "BTC-USDT" <> "" /\
  timers (run ([Closes] ++ failed_retry false ++ failed_retry false ++
               failed_retry false ++ failed_retry false ++ failed_retry false)
            (connect OKX "BTC-USDT" false new_service))
  = [2000; 4000; 8000; 16000; 30000]%Z.
Proof.
  split; [reflexivity|]. split; [discriminate|].
  exact (proj1 (reconnection_delays new_service OKX "BTC-USDT"
                  false false false false false false eq_refl ltac:(discriminate))).
Defined.

(** ** The simulator in exact arithmetic: what does hold of C6 and C10 *)

Lemma Qred_zero (x : Q) : (x == 0)%Q -> Qred x = 0%Q.
Proof. intros Hx. by rewrite (Qred_complete _ _ Hx). Qed.

Lemma Qred_hundred (x : Q) : (x == 100)%Q -> Qred x = 100%Q.
Proof. intros Hx. by rewrite (Qred_complete _ _ Hx). Qed.

(** The walk over valid levels: the remaining quantity goes down and stays
    non-negative, the value paid goes up, and it is bounded by the volume
    taken at any price that bounds the prices of the levels. *)
Lemma consume_exact (levels : list (OrderLevel xnum)) (r v : Q) (n : nat) :
  (0 <= r)%Q -> Forall valid_level levels ->
  exists r' v' n',
    consume levels (mkFill (Fin r) (Fin v) n) = mkFill (Fin r') (Fin v') n' /\
    (0 <= r' <= r)%Q /\ (v <= v')%Q /\ n <= n' <= n + length levels /\
    (forall P, Forall (price_at_most P) levels -> (v' - v <= P * (r - r'))%Q) /\
    (forall P, Forall (price_at_least P) levels -> (P * (r - r') <= v' - v)%Q) /\
    (forall l rest, levels = l :: rest -> (0 < r)%Q -> finite_pos (quantity l) ->
                    (r' < r)%Q) /\
    ((r' == r)%Q -> (v' == v)%Q).
Proof.
  intros Hr Hall. revert r v n Hr.
  induction Hall as [|l rest [Hp Hq] Hrest IH]; intros r v n Hr.
  - exists r, v, n. cbn. repeat split; try lra; try lia; try done; intros; lra.
  - cbn [consume]. cbn [remainingQuantity totalValue filledLevels].
    change (of_Z 0) with (Fin 0). cbn [nle xnum_number xle].
    destruct (Qle_bool r 0) eqn:Hr0.
    + apply Qle_bool_iff in Hr0.
      exists r, v, n. repeat split; try lra; try lia; try done; intros; lra.
    + apply Qle_bool_false in Hr0.
      apply fin_inv in Hp as (p & Hp & Hp0). apply fin_inv in Hq as (q & Hq & Hq0).
      rewrite Hp, Hq.
      assert (exists f, nmin (Fin r) (Fin q) = Fin f /\ (0 <= f <= r)%Q /\ (f <= q)%Q /\
                        ((0 < q)%Q -> (0 < f)%Q)) as (f & Hf & Hfr & Hfq & Hfpos).
      { cbn. destruct (Qle_bool r q) eqn:Hrq.
        - apply Qle_bool_iff in Hrq. exists r. repeat split; try lra.
        - apply Qle_bool_false in Hrq. exists q. repeat split; try lra. }
      rewrite Hf. cbn [nsub nadd nmul xnum_number xsub xadd xmul]. unfold fin.
      destruct (IH (Qred (r - f)) (Qred (v + Qred (f * p))) (S n))
        as (r' & v' & n' & Heq & Hr' & Hv' & Hn' & Hmost & Hleast & _ & Hsame).
      { rewrite Qred_correct. lra. }
      rewrite !Qred_correct in *.
      exists r', v', n'. split; [exact Heq|].
      assert (0 <= f * p)%Q by (apply Qmult_le_0_compat; lra).
      split; [lra|]. split; [lra|]. split; [cbn; lia|]. split; [|split; [|split]].
      * intros P HP. apply Forall_cons in HP as [(p' & Hp' & HpP) HP].
        rewrite Hp in Hp'. injection Hp' as <-.
        specialize (Hmost P HP). rewrite !Qred_correct in Hmost.
        assert (f * p <= P * f)%Q by nra. lra.
      * intros P HP. apply Forall_cons in HP as [(p' & Hp' & HpP) HP].
        rewrite Hp in Hp'. injection Hp' as <-.
        specialize (Hleast P HP). rewrite !Qred_correct in Hleast.
        assert (P * f <= f * p)%Q by nra. lra.
      * intros l' rest' [= <- <-] _ Hqpos.
        rewrite Hq in Hqpos. cbn in Hqpos. specialize (Hfpos Hqpos). lra.
      * intros Hrr. assert (Hf0 : (f == 0)%Q) by lra.
        assert (Hv1 : (v' == v + f * p)%Q) by (apply Hsame; lra).
        rewrite Hv1, Hf0. ring.
Qed.

Lemma ratio_times (a b c : Q) :
  (0 < b)%Q -> (0 <= a <= b)%Q -> (0 <= c)%Q ->
  exists x, xmul (xdiv (Fin a) (Fin b)) (Fin c) = Fin (Qred x) /\
            (x == a / b * c)%Q /\ (0 <= x <= c)%Q.
Proof.
  intros Hb Ha Hc. cbn.
  assert (Hb0 : ~ (b == 0)%Q) by lra. apply Qeq_bool_false in Hb0. rewrite Hb0.
  unfold fin. exists (Qred (a / b) * c)%Q. split; [done|].
  rewrite Qred_correct. split; [reflexivity|].
  assert (0 <= a / b)%Q by (apply Qle_shift_div_l; lra).
  assert (a / b <= 1)%Q by (apply Qle_shift_div_r; lra).
  nra.
Qed.

Lemma of_nat_exact (n : nat) : @of_nat xnum _ n = Fin (inject_Z (Z.of_nat n)).
Proof. reflexivity. Qed.

Lemma inject_nat_le (n m : nat) :
  n <= m -> (inject_Z (Z.of_nat n) <= inject_Z (Z.of_nat m))%Q.
Proof. intros Hnm. rewrite <- Zle_Qle. lia. Qed.

Lemma xmax_zero (s : Q) :
  exists y, xmax (Fin 0) (Fin (Qred s)) = Fin y /\ (0 <= y)%Q /\
            ((s <= 0)%Q -> y = 0%Q) /\ ((0 <= s)%Q -> y = Qred s).
Proof.
  cbn. destruct (Qle_bool 0 (Qred s)) eqn:Hs.
  - apply Qle_bool_iff in Hs. rewrite Qred_correct in Hs.
    exists (Qred s). split; [done|]. split; [by rewrite Qred_correct|].
    split; [|done]. intros Hle. apply Qred_zero. lra.
  - apply Qle_bool_false in Hs. rewrite Qred_correct in Hs.
    exists 0%Q. split; [done|]. split; [lra|]. split; [done|]. intros Hle. lra.
Qed.

Lemma filter_Forall {A} (f : A -> bool) (P : A -> Prop) (l : list A) :
  Forall P l -> Forall (fun x => P x /\ f x = true) (List.filter f l).
Proof.
  induction 1 as [|x l Hx Hl IH]; cbn; [constructor|].
  destruct (f x) eqn:Hfx; [constructor|]; done.
Qed.

Lemma filter_length_le {A} (f : A -> bool) (l : list A) :
  length (List.filter f l) <= length l.
Proof. induction l as [|x l IH]; cbn; [done|]. destruct (f x); cbn; lia. Qed.

Lemma find_position_bound (s : OrderSide) (p : xnum) (levels : list (OrderLevel xnum)) i :
  find_position s p levels i <= i + length levels.
Proof.
  revert i. induction levels as [|l rest IH]; intros i; cbn; [lia|].
  specialize (IH (S i)). destruct s; case_match; lia.
Qed.

Lemma fill_percentage_exact (q r' : Q) :
  (0 < q)%Q -> (0 <= r' <= q)%Q ->
  exists x, nmul (ndiv (nsub (Fin q) (Fin r')) (Fin q)) (of_Z 100) = Fin (Qred x) /\
            (x == (q - r') / q * 100)%Q /\ (0 <= x <= 100)%Q.
Proof.
  intros Hq Hr. cbn [nmul ndiv nsub xnum_number xsub]. unfold fin.
  destruct (ratio_times (Qred (q - r')) q 100) as (x & Hx & Hval & Hrange);
    [lra | rewrite Qred_correct; lra | lra |].
  exists x. split; [exact Hx|]. split; [|exact Hrange].
  rewrite Hval, Qred_correct. reflexivity.
Qed.

(** Market orders on valid input: the two percentages are in range, and
    the slippage is a non-negative number as soon as the first level of
    the consumed side has a positive price and a positive quantity. *)
Lemma simulateMarket_exact (f : OrderForm xnum) (book : OrderBook xnum) best rest :
  finite_pos (form_quantity f) ->
  consumed_side (side f) book = best :: rest ->
  Forall valid_level (best :: rest) ->
  exists r, simulateMarket f book = Return r /\
            in_range 0 100 (fillPercentage r) /\
            in_range 0 100 (marketImpact r) /\
            (finite_pos (price best) -> finite_pos (quantity best) ->
             finite_nonneg (slippage r)).
Proof.
  intros Hq Hside Hvalid.
  destruct (form_quantity f) as [q| | |] eqn:Hfq; try done. cbn in Hq.
  unfold simulateMarket.
  assert (Hlevels : match side f with Buy => asks book | Sell => bids book end
                    = best :: rest) by exact Hside.
  rewrite Hlevels, Hfq.
  destruct (consume_exact (best :: rest) q 0 0)
    as (r' & v' & n' & Heq & Hr' & Hv' & Hn' & _ & _ & Hfilled & _); [lra|done|].
  change (@of_Z xnum _ 0) with (Fin 0). rewrite !Heq.
  cbn [remainingQuantity totalValue filledLevels first_price mbind outcome_bind].
  destruct (fill_percentage_exact q r' Hq Hr') as (x & Hx & _ & Hxr).
  eexists. split; [reflexivity|]. cbn [fillPercentage marketImpact slippage].
  split; [|split].
  - rewrite Hx. exists (Qred x). split; [done|]. by rewrite Qred_correct.
  - rewrite !of_nat_exact.
    destruct (ratio_times (inject_Z (Z.of_nat n')) (inject_Z (Z.of_nat (length (best :: rest))))
                100) as (y & Hy & _ & Hyr).
    + change 0%Q with (inject_Z 0). rewrite <- Zlt_Qlt. cbn. lia.
    + split; [change 0%Q with (inject_Z 0); rewrite <- Zle_Qle; lia|].
      apply inject_nat_le. lia.
    + lra.
    + change (of_Z 100) with (Fin 100).
      change (nmul ?a ?b) with (xmul a b). change (ndiv ?a ?b) with (xdiv a b).
      rewrite Hy. exists (Qred y). split; [done|]. by rewrite Qred_correct.
  - intros Hbp Hbq.
    destruct (price best) as [bp| | |] eqn:Hbest; try done. cbn in Hbp.
    assert (Hlt : (r' < q)%Q) by (eapply Hfilled; done).
    assert (Hd : Qeq_bool (Qred (q - r')) 0 = false).
    { apply Qeq_bool_false. rewrite Qred_correct. lra. }
    assert (Hb : Qeq_bool bp 0 = false) by (apply Qeq_bool_false; lra).
    destruct (side f);
      cbn [nsub ndiv nmul nmax xnum_number xsub xdiv xmul fin]; rewrite Hd;
      cbn [xsub xdiv xmul fin]; rewrite Hb;
      change (@of_Z xnum _ 100) with (Fin 100); cbn [xmul fin]; unfold fin;
      match goal with
      | |- finite_nonneg (xmax (Fin 0) (Fin (Qred ?s))) =>
          destruct (xmax_zero s) as (y & Hy & Hy0 & _); rewrite Hy; exact Hy0
      end.
Qed.

Lemma or_else_pos (p : Q) (d : xnum) : (0 < p)%Q -> or_else (Fin p) d = Fin p.
Proof.
  intros Hp. unfold or_else. cbn.
  assert (Hp0 : Qeq_bool p 0 = false) by (apply Qeq_bool_false; lra).
  by rewrite Hp0.
Qed.

Lemma or_else_zero (x : Q) (d : xnum) : (x == 0)%Q -> or_else (Fin x) d = d.
Proof.
  intros Hx. unfold or_else. cbn.
  apply Qeq_bool_iff in Hx. by rewrite Hx.
Qed.

Lemma position_impact (pos depth : nat) :
  pos <= depth -> 1 <= depth ->
  in_range 0 50
    (xmul (xsub (Fin 1) (xdiv (@of_nat xnum _ pos) (of_nat depth))) (Fin 50)).
Proof.
  intros Hpos Hdepth. rewrite !of_nat_exact. cbn [xdiv].
  assert (Hd : (0 < inject_Z (Z.of_nat depth))%Q).
  { change 0%Q with (inject_Z 0). rewrite <- Zlt_Qlt. lia. }
  assert (Hp : (0 <= inject_Z (Z.of_nat pos) <= inject_Z (Z.of_nat depth))%Q).
  { split; [change 0%Q with (inject_Z 0); rewrite <- Zle_Qle; lia|].
    by apply inject_nat_le. }
  assert (Hd0 : Qeq_bool (inject_Z (Z.of_nat depth)) 0 = false)
    by (apply Qeq_bool_false; lra).
  rewrite Hd0. cbn [xsub xmul fin]. unfold fin.
  eexists. split; [reflexivity|]. rewrite !Qred_correct.
  assert (0 <= inject_Z (Z.of_nat pos) / inject_Z (Z.of_nat depth))%Q
    by (apply Qle_shift_div_l; lra).
  assert (inject_Z (Z.of_nat pos) / inject_Z (Z.of_nat depth) <= 1)%Q
    by (apply Qle_shift_div_r; lra).
  lra.
Qed.

Lemma xmin_hundred (x : xnum) : in_range 0 100 x -> in_range 0 100 (xmin (Fin 100) x).
Proof.
  intros (y & -> & Hy). cbn. destruct (Qle_bool 100 y); [|by exists y].
  exists 100%Q. split; [done|]. lra.
Qed.

Lemma in_range_weaken (lo hi hi' : Q) (x : xnum) :
  (hi <= hi')%Q -> in_range lo hi x -> in_range lo hi' x.
Proof. intros Hle (y & -> & Hy). exists y. split; [done|]. lra. Qed.

(** [max(0, a / p * 100)] when [a <= 0], and when [a = p]. *)
Lemma directional_zero (a p : Q) :
  (0 < p)%Q -> (a <= 0)%Q ->
  xmax (Fin 0) (xmul (xdiv (Fin (Qred a)) (Fin p)) (Fin 100)) = Fin 0.
Proof.
  intros Hp Ha. cbn [xdiv].
  assert (Hp0 : Qeq_bool p 0 = false) by (apply Qeq_bool_false; lra).
  rewrite Hp0. cbn [xmul fin]. unfold fin.
  destruct (xmax_zero (Qred (Qred a / p) * 100)) as (y & Hy & _ & Hzero & _).
  rewrite Hy. f_equal. apply Hzero. rewrite !Qred_correct.
  assert (a / p <= 0)%Q by (apply Qle_shift_div_r; lra). lra.
Qed.

Lemma directional_hundred (a p : Q) :
  (0 < p)%Q -> (a == p)%Q ->
  xmax (Fin 0) (xmul (xdiv (Fin (Qred a)) (Fin p)) (Fin 100)) = Fin 100.
Proof.
  intros Hp Ha. cbn [xdiv].
  assert (Hp0 : Qeq_bool p 0 = false) by (apply Qeq_bool_false; lra).
  rewrite Hp0. cbn [xmul fin]. unfold fin.
  destruct (xmax_zero (Qred (Qred a / p) * 100)) as (y & Hy & _ & _ & Hpos).
  assert (Hval : (Qred (Qred a / p) * 100 == 100)%Q).
  { rewrite !Qred_correct, Ha. field. lra. }
  rewrite Hy. f_equal. rewrite Hpos by (rewrite Hval; lra). by apply Qred_hundred.
Qed.

(** Limit orders on valid input: the two percentages are in range; a buy
    has slippage 0; a sell has slippage 0 when something is filled and 100
    when nothing is. *)
Lemma simulateLimit_exact (f : OrderForm xnum) (book : OrderBook xnum) (p : Q) :
  finite_pos (form_quantity f) ->
  form_price f = Some (Fin p) -> (0 < p)%Q ->
  bids book <> [] -> asks book <> [] ->
  Forall valid_level (bids book ++ asks book) ->
  exists r, simulateLimit f book = Return r /\
            in_range 0 100 (fillPercentage r) /\
            in_range 0 100 (marketImpact r) /\
            match side f with
            | Buy => slippage r = Fin 0
            | Sell => (fillPercentage r = Fin 0 /\ slippage r = Fin 100) \/
                      (fillPercentage r <> Fin 0 /\ slippage r = Fin 0)
            end.
Proof.
  intros Hq Hprice Hp Hbids Hasks Hvalid.
  destruct (form_quantity f) as [q| | |] eqn:Hfq; try done. cbn in Hq.
  apply Forall_app in Hvalid as [Hvb Hva].
  unfold simulateLimit. rewrite Hprice, Hfq, (or_else_pos p _ Hp).
  set (levels := match side f with Buy => asks book | Sell => bids book end).
  set (fillable := match side f with
                   | Buy => List.filter _ levels
                   | Sell => List.filter _ levels
                   end).
  set (relevant := match side f with Buy => bids book | Sell => asks book end).
  assert (Hlv : Forall valid_level levels) by (subst levels; by destruct (side f)).
  assert (Hlen : 1 <= length levels).
  { subst levels. destruct (side f); [destruct (asks book)|destruct (bids book)];
      try done; cbn; lia. }
  assert (Hdepth : 1 <= length relevant).
  { subst relevant. destruct (side f); [destruct (bids book)|destruct (asks book)];
      try done; cbn; lia. }
  assert (Hfv : Forall valid_level fillable).
  { subst fillable. destruct (side f);
      (eapply Forall_impl; [apply filter_Forall, Hlv|]); by intros l [Hl _]. }
  assert (Hfl : length fillable <= length levels).
  { subst fillable. destruct (side f); apply filter_length_le. }
  assert (Hbound : match side f with
                   | Buy => Forall (price_at_most p) fillable
                   | Sell => Forall (price_at_least p) fillable
                   end).
  { subst fillable. destruct (side f);
      (eapply Forall_impl; [apply filter_Forall, Hlv|]);
      intros l [[Hpl _] Hle]; cbn beta in Hle;
      apply fin_inv in Hpl as (pl & Hpl & _); rewrite Hpl in Hle;
      exists pl; (split; [done|]); cbn in Hle; by apply Qle_bool_iff in Hle. }
  destruct (consume_exact fillable q 0 0)
    as (r' & v' & n' & Heq & Hr' & Hv' & _ & Hmost & Hleast & _ & Hsame); [lra|done|].
  change (@of_Z xnum _ 0) with (Fin 0). rewrite !Heq.
  cbn [remainingQuantity totalValue filledLevels mbind outcome_bind].
  destruct (fill_percentage_exact q r' Hq Hr') as (x & Hx & Hxval & Hxr).
  rewrite Hx.
  eexists. split; [reflexivity|]. cbn [fillPercentage marketImpact slippage].
  split; [|split].
  - exists (Qred x). split; [done|]. by rewrite Qred_correct.
  - change (@of_Z xnum _ 100) with (Fin 100). change (@of_Z xnum _ 50) with (Fin 50).
    change (@of_Z xnum _ 75) with (Fin 75). change (@of_Z xnum _ 1) with (Fin 1).
    cbn [nmin nsub ndiv nmul nlt xnum_number].
    apply xmin_hundred. destruct (xlt (Fin (Qred x)) (Fin 100)).
    + apply (in_range_weaken 0 50); [lra|]. apply position_impact; [|done].
      apply (find_position_bound (side f) (Fin p) relevant 0).
    + rewrite !of_nat_exact.
      destruct (ratio_times (inject_Z (Z.of_nat (length fillable)))
                  (inject_Z (Z.of_nat (length levels))) 75) as (y & Hy & _ & Hyr).
      * change 0%Q with (inject_Z 0). rewrite <- Zlt_Qlt. lia.
      * split; [change 0%Q with (inject_Z 0); rewrite <- Zle_Qle; lia|].
        by apply inject_nat_le.
      * lra.
      * rewrite Hy. exists (Qred y). split; [done|]. rewrite Qred_correct. lra.
  - change (@of_Z xnum _ 100) with (Fin 100). change (@of_Z xnum _ 1) with (Fin 1).
    cbn [nsub xnum_number xsub fin]. unfold fin.
    destruct (Qeq_dec (q - r') 0) as [Hnone|Hsome].
    + (* nothing is filled *)
      rewrite or_else_zero by (by rewrite Qred_correct).
      assert (Hv0 : (v' == 0)%Q) by (apply Hsame; lra).
      assert (Hfill0 : Qred x = 0%Q).
      { apply Qred_zero. rewrite Hxval, Hnone. field. lra. }
      cbn [ndiv nmul nmax xnum_number xdiv xsub fin]. cbn. unfold fin.
      destruct (side f).
      * apply directional_zero; [done|]. rewrite Qred_correct, Hv0.
        unfold Qdiv. lra.
      * left. split; [by rewrite Hfill0|].
        apply directional_hundred; [done|]. rewrite Qred_correct, Hv0.
        unfold Qdiv. lra.
    + (* something is filled *)
      assert (Hd : (0 < q - r')%Q) by lra.
      rewrite or_else_pos by (by rewrite Qred_correct).
      cbn [ndiv nmul nmax xnum_number xdiv].
      assert (Hd0 : Qeq_bool (Qred (q - r')) 0 = false).
      { apply Qeq_bool_false. rewrite Qred_correct. lra. }
      rewrite Hd0. cbn [xsub fin]. unfold fin.
      assert (Hfill : Fin (Qred x) <> Fin 0).
      { intros [= Hx0]. assert (Hxz : (x == 0)%Q) by (rewrite <- (Qred_correct x), Hx0; done).
        rewrite Hxval in Hxz.
        assert ((q - r') / q * 100 == 0 -> q - r' == 0)%Q as Hcontra.
        { intros Hz. assert (Hqq : ((q - r') / q * q == q - r')%Q) by (field; lra).
          nra. }
        apply Hcontra in Hxz. lra. }
      destruct (side f).
      * specialize (Hmost p Hbound).
        apply directional_zero; [done|]. rewrite !Qred_correct.
        assert (v' / (q - r') <= p)%Q by (apply Qle_shift_div_r; lra). lra.
      * specialize (Hleast p Hbound).
        right. split; [exact Hfill|].
        apply directional_zero; [done|]. rewrite !Qred_correct.
        assert (p <= v' / (q - r'))%Q by (apply Qle_shift_div_l; lra). lra.
Qed.


(** In exact arithmetic, on a pre-validated form and a
    book of finite non-negative prices and quantities with both sides
    non-empty, [fillPercentage] and [marketImpact] are in [0,100]; the
    slippage of a limit order is a non-negative number, and so is that of
    a market order once the first level of the consumed side has a
    positive price and a positive quantity. *)
Lemma simulate_bounds_exact (f : OrderForm xnum) (book : OrderBook xnum) :
  valid_form f -> bids book <> [] -> asks book <> [] ->
  Forall valid_level (bids book ++ asks book) ->
  exists r, simulateOrder f (Some book) = Return r /\
            in_range 0 100 (fillPercentage r) /\
            in_range 0 100 (marketImpact r) /\
            (type f = Limit -> finite_nonneg (slippage r)) /\
            (type f = Market ->
             forall best rest, consumed_side (side f) book = best :: rest ->
                               finite_pos (price best) -> finite_pos (quantity best) ->
                               finite_nonneg (slippage r)).
Proof.
  intros [Hq Hlimit] Hbids Hasks Hvalid.
  rewrite simulateOrder_nonempty by done.
  destruct (type f) eqn:Hty.
  - assert (exists best rest, consumed_side (side f) book = best :: rest)
      as (best & rest & Hside).
    { unfold consumed_side. destruct (side f).
      - destruct (asks book) as [|a l]; [done|]. by exists a, l.
      - destruct (bids book) as [|a l]; [done|]. by exists a, l. }
    assert (Hlv : Forall valid_level (best :: rest)).
    { rewrite <- Hside. apply Forall_app in Hvalid as [Hvb Hva].
      unfold consumed_side. by destruct (side f). }
    destruct (simulateMarket_exact f book best rest Hq Hside Hlv)
      as (r & Hr & Hfill & Himpact & Hslip).
    exists r. split; [done|]. split; [done|]. split; [done|]. split; [done|].
    intros _ best' rest' Hside'. rewrite Hside in Hside'. injection Hside' as <- <-.
    exact Hslip.
  - destruct (Hlimit eq_refl) as (p & Hprice & Hp).
    destruct (simulateLimit_exact f book p Hq Hprice Hp Hbids Hasks Hvalid)
      as (r & Hr & Hfill & Himpact & Hslip).
    exists r. split; [done|]. split; [done|]. split; [done|]. split; [|done].
    intros _. destruct (side f).
    + rewrite Hslip. cbn. lra.
    + destruct Hslip as [[_ ->]| [_ ->]]; cbn; lra.
Qed.

(** In exact arithmetic, on the same inputs, a limit buy
    has slippage exactly 0, and a limit sell has slippage 0 unless nothing
    is filled, in which case it has slippage 100. *)
Lemma limit_slippage_exact (f : OrderForm xnum) (book : OrderBook xnum) :
  valid_form f -> type f = Limit -> bids book <> [] -> asks book <> [] ->
  Forall valid_level (bids book ++ asks book) ->
  exists r, simulateOrder f (Some book) = Return r /\
            match side f with
            | Buy => slippage r = Fin 0
            | Sell => (fillPercentage r = Fin 0 /\ slippage r = Fin 100) \/
                      (fillPercentage r <> Fin 0 /\ slippage r = Fin 0)
            end.
Proof.
  intros [Hq Hlimit] Hty Hbids Hasks Hvalid.
  rewrite simulateOrder_nonempty by done. rewrite Hty.
  destruct (Hlimit Hty) as (p & Hprice & Hp).
  destruct (simulateLimit_exact f book p Hq Hprice Hp Hbids Hasks Hvalid)
    as (r & Hr & _ & _ & Hslip).
  by exists r.
Qed.

(** ** The aggregator on a store and the aggregator on values

    When no level object occurs twice in the book, reading the book that
    [processOrderBookData_store] returns, in the store it leaves, gives
    [processOrderBookData] of the book read before the call. *)

Section StoreRefinement.
Context {N : Type} `{!Number N}.

Lemma sort_insert_Forall2 {A B} (R : A -> B -> Prop) cmpA cmpB x y l k :
  (forall a b a' b', R a a' -> R b b' -> cmpA a b = cmpB a' b') ->
  R x y -> Forall2 R l k ->
  Forall2 R (sort_insert (N:=N) cmpA x l) (sort_insert cmpB y k).
Proof.
  intros Hcmp Hxy. induction 1 as [|a b l k Hab Hlk IH]; cbn.
  - by repeat constructor.
  - rewrite (Hcmp a x b y) by done.
    destruct (nlt _ _); repeat constructor; done.
Qed.

Lemma js_sort_Forall2 {A B} (R : A -> B -> Prop) cmpA cmpB l k :
  (forall a b a' b', R a a' -> R b b' -> cmpA a b = cmpB a' b') ->
  Forall2 R l k -> Forall2 R (js_sort (N:=N) cmpA l) (js_sort cmpB k).
Proof.
  intros Hcmp. induction 1; cbn; [constructor|]. by apply sort_insert_Forall2.
Qed.

Lemma sort_insert_NoDup {A} (cmp : A -> A -> N) x l :
  x ∉ l -> NoDup l -> NoDup (sort_insert cmp x l).
Proof.
  intros Hx Hl. induction Hl as [|y l Hy Hl IH]; cbn.
  - apply NoDup_singleton.
  - apply not_elem_of_cons in Hx as [Hxy Hx].
    destruct (nlt _ _).
    + constructor; [|by apply IH].
      intros [->|Hin]%sort_insert_elem; done.
    + constructor; [|by constructor].
      apply not_elem_of_cons. done.
Qed.

Lemma js_sort_NoDup {A} (cmp : A -> A -> N) l : NoDup l -> NoDup (js_sort cmp l).
Proof.
  induction 1 as [|x l Hx Hl IH]; cbn; [constructor|].
  apply sort_insert_NoDup; [|done]. intros Hin%js_sort_elem. done.
Qed.

Lemma kept_refs_NoDup {A} (cmp : A -> A -> N) l :
  NoDup l -> NoDup (take 15 (js_sort cmp l)).
Proof.
  intros Hl. eapply sublist_NoDup; [by apply js_sort_NoDup|]. apply sublist_take.
Qed.

Lemma points_to_frame (h h' : gmap nat (OrderLevel N)) refs ls :
  (forall a, a ∈ refs -> h' !! a = h !! a) -> points_to h refs ls -> points_to h' refs ls.
Proof.
  intros Hsame Hpt. induction Hpt as [|a l refs ls Ha Hpt IH]; constructor.
  - rewrite Hsame; [done|left].
  - apply IH. intros b Hb. apply Hsame. by right.
Qed.

Lemma accumulate_store_spec refs ls run (h : gmap nat (OrderLevel N)) :
  NoDup refs -> points_to h refs ls ->
  (accumulate_store run refs h).2 = (accumulate run ls).2 /\
  points_to (accumulate_store run refs h).1 refs (accumulate run ls).1.
Proof.
  intros Hnd Hpt. revert run h ls Hpt.
  induction Hnd as [|a refs Ha Hnd IH]; intros run h ls Hpt.
  - inversion Hpt; subst. cbn. split; [done|constructor].
  - inversion Hpt as [|a' l refs' ls' Hl Hrest]; subst. cbn. rewrite Hl.
    destruct (IH (nadd run (quantity l)) (<[a := set_total l (nadd run (quantity l))]> h) ls')
      as [Htot Hpts].
    { eapply points_to_frame; [|exact Hrest].
      intros b Hb. rewrite lookup_insert_ne; [done|]. by intros ->. }
    destruct (accumulate (nadd run (quantity l)) ls') as [rest' final]. cbn in *.
    split; [done|]. constructor; [|done].
    rewrite accumulate_store_frame by done. by rewrite lookup_insert_eq.
Qed.

Lemma percentages_store_spec refs ls m (h : gmap nat (OrderLevel N)) :
  NoDup refs -> points_to h refs ls ->
  points_to (percentages_store m refs h) refs
    (map (fun l => set_percentage l (depth_percentage m l)) ls).
Proof.
  intros Hnd Hpt. revert h ls Hpt.
  induction Hnd as [|a refs Ha Hnd IH]; intros h ls Hpt.
  - inversion Hpt; subst. constructor.
  - inversion Hpt as [|a' l refs' ls' Hl Hrest]; subst. cbn. rewrite Hl.
    constructor.
    + rewrite percentages_store_frame by done. by rewrite lookup_insert_eq.
    + apply IH. eapply points_to_frame; [|exact Hrest].
      intros b Hb. rewrite lookup_insert_ne; [done|]. by intros ->.
Qed.

Lemma points_to_read (h : gmap nat (OrderLevel N)) refs ls : points_to h refs ls <-> read_levels h refs = Some ls.
Proof. unfold points_to, read_levels. by rewrite mapM_Some. Qed.

(** X15.  When no level object occurs twice in the book, the aggregator on
    shared objects computes what the aggregator on values computes: the
    book it returns, read in the store it leaves, is
    [processOrderBookData] of the book that was passed, read in the store
    before the call. *)
Theorem store_refines_values (h : gmap nat (OrderLevel N)) (raw : BookRef)
    (book : OrderBook N) :
  NoDup (bid_refs raw ++ ask_refs raw) ->
  read_book h raw = Some book ->
  read_book (processOrderBookData_store h raw).1 (processOrderBookData_store h raw).2
  = Some (processOrderBookData book).
Proof.
  intros Hnd Hread. apply NoDup_app in Hnd as (Hndb & Hdisj & Hnda).
  unfold read_book in Hread.
  destruct (read_levels h (bid_refs raw)) as [bs|] eqn:Hbs; [|done].
  destruct (read_levels h (ask_refs raw)) as [as'|] eqn:Has; [|done].
  cbn in Hread. injection Hread as <-.
  apply points_to_read in Hbs, Has.
  unfold processOrderBookData_store, processOrderBookData. cbn [bids asks timestamp].
  set (rb := take 15 (js_sort _ (bid_refs raw))).
  set (ra := take 15 (js_sort _ (ask_refs raw))).
  set (vb := take 15 (js_sort _ bs)). set (va := take 15 (js_sort _ as')).
  assert (Hcmp : forall a l, h !! a = Some l -> price_at h a = price l).
  { intros a l Hl. unfold price_at. by rewrite Hl. }
  assert (Hpb : points_to h rb vb).
  { apply Forall2_take, js_sort_Forall2; [|exact Hbs].
    intros a b a' b' Ha Hb. by rewrite (Hcmp a a'), (Hcmp b b'). }
  assert (Hpa : points_to h ra va).
  { apply Forall2_take, js_sort_Forall2; [|exact Has].
    intros a b a' b' Ha Hb. by rewrite (Hcmp a a'), (Hcmp b b'). }
  assert (Hnrb : NoDup rb) by by apply kept_refs_NoDup.
  assert (Hnra : NoDup ra) by by apply kept_refs_NoDup.
  assert (Hsep : forall a, a ∈ rb -> a ∉ ra).
  { intros a Hb Ha. apply kept_refs_subset in Hb, Ha. by apply (Hdisj a). }
  destruct (accumulate_store_spec rb vb (of_Z 0) h Hnrb Hpb) as [Htb Hb1].
  destruct (accumulate_store (of_Z 0) rb h) as [h1 bidTotal] eqn:Hacc1.
  cbn [fst snd] in Htb, Hb1.
  assert (Hpa1 : points_to h1 ra va).
  { eapply points_to_frame; [|exact Hpa]. intros a Ha.
    change h1 with (h1, bidTotal).1. rewrite <- Hacc1.
    apply accumulate_store_frame. intros Hb. by apply (Hsep a). }
  destruct (accumulate_store_spec ra va (of_Z 0) h1 Hnra Hpa1) as [Hta Ha2].
  destruct (accumulate_store (of_Z 0) ra h1) as [h2 askTotal] eqn:Hacc2.
  cbn [fst snd] in Hta, Ha2.
  assert (Hb2 : points_to h2 rb (accumulate (of_Z 0) vb).1).
  { eapply points_to_frame; [|exact Hb1]. intros a Hb.
    change h2 with (h2, askTotal).1. rewrite <- Hacc2.
    apply accumulate_store_frame. by apply Hsep. }
  destruct (accumulate (of_Z 0) vb) as [b1 bt]. destruct (accumulate (of_Z 0) va) as [a1 at'].
  cbn [fst snd] in *. subst bidTotal askTotal.
  set (m := nmax bt at').
  pose proof (percentages_store_spec rb b1 m h2 Hnrb Hb2) as Hb3.
  assert (Ha3 : points_to (percentages_store m rb h2) ra a1).
  { eapply points_to_frame; [|exact Ha2]. intros a Ha.
    apply percentages_store_frame. intros Hb. by apply (Hsep a). }
  pose proof (percentages_store_spec ra a1 m _ Hnra Ha3) as Ha4.
  assert (Hb4 : points_to (percentages_store m ra (percentages_store m rb h2)) rb
                  (map (fun l => set_percentage l (depth_percentage m l)) b1)).
  { eapply points_to_frame; [|exact Hb3]. intros a Hb.
    apply percentages_store_frame. by apply Hsep. }
  unfold read_book. cbn [bid_refs ask_refs ref_timestamp].
  apply points_to_read in Hb4, Ha4. rewrite Hb4, Ha4. reflexivity.
Qed.
End StoreRefinement.

Lemma filter_none {A} (f : A -> bool) (l : list A) :
  Forall (fun x => f x = false) l -> List.filter f l = [].
Proof. induction 1 as [|x l Hx _ IH]; cbn; [done|]. by rewrite Hx. Qed.

(** X5.  In exact arithmetic, a limit buy below every ask fills nothing, and its
    market impact, taken from its place among the bids, is in range. *)
Lemma limit_buy_below_asks (f : OrderForm xnum) (book : OrderBook xnum) (p : Q) :
  type f = Limit -> side f = Buy ->
  finite_pos (form_quantity f) -> form_price f = Some (Fin p) -> (0 < p)%Q ->
  bids book <> [] -> asks book <> [] ->
  Forall valid_level (bids book ++ asks book) ->
  Forall (fun l => exists a, price l = Fin a /\ (p < a)%Q) (asks book) ->
  exists r, simulateOrder f (Some book) = Return r /\
            fillPercentage r = Fin 0 /\ in_range 0 100 (marketImpact r) /\
            slippage r = Fin 0.
Proof.
  intros Hty Hside Hq Hprice Hp Hbids Hasks Hvalid Habove.
  destruct (simulateLimit_exact f book p Hq Hprice Hp Hbids Hasks Hvalid)
    as (r & Hr & _ & Himpact & Hslip).
  rewrite Hside in Hslip.
  rewrite simulateOrder_nonempty by done. rewrite Hty.
  exists r. split; [done|]. split; [|done].
  destruct (form_quantity f) as [q| | |] eqn:Hfq; try done. cbn in Hq.
  unfold simulateLimit in Hr.
  rewrite Hside, Hprice, Hfq, (or_else_pos p _ Hp) in Hr.
  rewrite filter_none in Hr.
  - cbn in Hr. assert (Hq0 : Qeq_bool q 0 = false) by (apply Qeq_bool_false; lra).
    rewrite Hq0 in Hr. injection Hr as <-. cbn [fillPercentage]. unfold fin.
    f_equal. apply Qred_zero. rewrite !Qred_correct. field. lra.
  - eapply Forall_impl; [exact Habove|]. intros l (a & Ha & Hlt). cbn beta.
    rewrite Ha. cbn. by apply Qle_bool_false.
Qed.

(** The same example in binary64: a Limit Buy at 99 against asks starting
    at 100. *)
Example limit_buy_99_binary64 :
  simulateOrder (mkForm OKX "BTC-USDT" Limit Buy (Some 99) 1 immediate)%float
    (Some (mkBook [lv 99.5 1; lv 98 2] [lv 100 1; lv 101 2] 1700000000000)%float)
  = Return {| form := (mkForm OKX "BTC-USDT" Limit Buy (Some 99) 1 immediate)%float;
              fillPercentage := 0%float; marketImpact := 25%float;
              slippage := 0%float;
              timeToFill := Some "Partial fill"; active := true |}.
Proof. reflexivity. Qed.

(** ** Simulation reads prices and quantities only *)

Section SameData.
Context {N : Type} `{!Number N}.

Lemma consume_same_data (l l' : list (OrderLevel N)) (st : fill_state) :
  Forall2 same_order_data l l' -> consume l st = consume l' st.
Proof.
  intros Hl. revert st.
  induction Hl as [|x y l l' [Hp Hq] _ IH]; intros st; cbn; [done|].
  rewrite Hp, Hq. by rewrite IH.
Qed.

Lemma filter_same_data (g : N -> bool) (l l' : list (OrderLevel N)) :
  Forall2 same_order_data l l' ->
  Forall2 same_order_data (List.filter (fun x => g (price x)) l)
                          (List.filter (fun x => g (price x)) l').
Proof.
  induction 1 as [|x y l l' [Hp Hq] _ IH]; cbn; [constructor|].
  rewrite Hp. destruct (g (price y)); [by constructor|done].
Qed.

Lemma find_position_same_data (s : OrderSide) (p : N) (l l' : list (OrderLevel N)) i :
  Forall2 same_order_data l l' -> find_position s p l i = find_position s p l' i.
Proof.
  intros Hl. revert i.
  induction Hl as [|x y l l' [Hp Hq] _ IH]; intros i; cbn; [done|].
  rewrite Hp. by rewrite IH.
Qed.

Lemma first_price_same_data (l l' : list (OrderLevel N)) :
  Forall2 same_order_data l l' -> first_price l = first_price l'.
Proof. destruct 1 as [|x y l l' [Hp _] _]; cbn; [done|]. by rewrite Hp. Qed.

Lemma simulateOrder_same_data (f : OrderForm N) (book book' : OrderBook N) :
  Forall2 same_order_data (bids book) (bids book') ->
  Forall2 same_order_data (asks book) (asks book') ->
  simulateOrder f (Some book) = simulateOrder f (Some book').
Proof.
  intros Hb Ha. unfold simulateOrder.
  rewrite (Forall2_length _ _ _ Hb), (Forall2_length _ _ _ Ha).
  destruct (_ || _); [done|].
  destruct (type f).
  - unfold simulateMarket.
    destruct (side f).
    + by rewrite (consume_same_data _ _ _ Ha), (first_price_same_data _ _ Ha),
        (Forall2_length _ _ _ Ha).
    + by rewrite (consume_same_data _ _ _ Hb), (first_price_same_data _ _ Hb),
        (Forall2_length _ _ _ Hb).
  - unfold simulateLimit.
    destruct (side f).
    + pose proof (filter_same_data
        (fun p => nle p (match form_price f with
                         | Some p0 => or_else p0 (of_Z 0)
                         | None => of_Z 0
                         end)) _ _ Ha) as Hf.
      by rewrite (consume_same_data _ _ _ Hf), (Forall2_length _ _ _ Hf),
        (Forall2_length _ _ _ Ha), (Forall2_length _ _ _ Hb),
        (find_position_same_data _ _ _ _ _ Hb).
    + pose proof (filter_same_data
        (fun p => nle (match form_price f with
                       | Some p0 => or_else p0 (of_Z 0)
                       | None => of_Z 0
                       end) p) _ _ Hb) as Hf.
      by rewrite (consume_same_data _ _ _ Hf), (Forall2_length _ _ _ Hf),
        (Forall2_length _ _ _ Ha), (Forall2_length _ _ _ Hb),
        (find_position_same_data _ _ _ _ _ Ha).
Qed.
End SameData.

(** X6.  The result of a simulation depends on the prices and quantities of
    the book only: the totals and percentages the aggregator attaches
    play no part, so simulating on an aggregated book is simulating on
    its sorted and truncated sides. *)
Theorem simulateOrder_ignores_annotations :
  forall (N : Type) (HN : Number N) (f : OrderForm N),
    (forall book book' : OrderBook N,
        Forall2 same_order_data (bids book) (bids book') ->
        Forall2 same_order_data (asks book) (asks book') ->
        simulateOrder f (Some book) = simulateOrder f (Some book'))
    /\ (forall raw : OrderBook N,
          simulateOrder f (Some (processOrderBookData raw)) =
          simulateOrder f
            (Some {| bids := take 15 (js_sort (fun a b => nsub (price b) (price a)) (bids raw));
                     asks := take 15 (js_sort (fun a b => nsub (price a) (price b)) (asks raw));
                     timestamp := timestamp raw |})).
Proof.
  intros N HN f. split; [apply simulateOrder_same_data|].
  intros raw. apply simulateOrder_same_data;
    rewrite processOrderBookData_unfold; cbn [bids asks]; apply annotated_same_data.
Qed.

Lemma simulateOrder_ignores_annotations_witness :
  Forall2 same_order_data
    (bids (mkBook [mkLevel 99 1 (Some 1) (Some 50)] [mkLevel 100 2 (Some 2) (Some 100)] 0)%float)
    (bids (mkBook [lv 99 1] [lv 100 2] 7)%float) /\
  Forall2 same_order_data
    (asks (mkBook [mkLevel 99 1 (Some 1) (Some 50)] [mkLevel 100 2 (Some 2) (Some 100)] 0)%float)
    (asks (mkBook [lv 99 1] [lv 100 2] 7)%float) /\
  simulateOrder sample_market_buy
    (Some (mkBook [mkLevel 99 1 (Some 1) (Some 50)] [mkLevel 100 2 (Some 2) (Some 100)] 0)%float)
  = simulateOrder sample_market_buy (Some (mkBook [lv 99 1] [lv 100 2] 7)%float).
Proof.
  assert (Hb : Forall2 same_order_data
    (bids (mkBook [mkLevel 99 1 (Some 1) (Some 50)] [mkLevel 100 2 (Some 2) (Some 100)] 0)%float)
    (bids (mkBook [lv 99 1] [lv 100 2] 7)%float)).
  { repeat constructor. }
  assert (Ha : Forall2 same_order_data
    (asks (mkBook [mkLevel 99 1 (Some 1) (Some 50)] [mkLevel 100 2 (Some 2) (Some 100)] 0)%float)
    (asks (mkBook [lv 99 1] [lv 100 2] 7)%float)).
  { repeat constructor. }
  split; [exact Hb|]. split; [exact Ha|].
  exact (proj1 (simulateOrder_ignores_annotations float _ sample_market_buy) _ _ Hb Ha).
Defined.

(** ** The walk of an order that is already filled *)

Lemma consume_nothing_left (levels : list (OrderLevel xnum)) (st : fill_state) (r : Q) :
  remainingQuantity st = Fin r -> (r <= 0)%Q -> consume levels st = st.
Proof.
  intros Hst Hr. destruct levels as [|l rest]; [done|].
  cbn [consume]. rewrite Hst. change (@of_Z xnum _ 0) with (Fin 0).
  cbn [nle xnum_number xle].
  apply Qle_bool_iff in Hr. by rewrite Hr.
Qed.

(** ** The sample book and forms *)

Lemma sample_exact_book_valid :
  Forall valid_level (bids sample_exact_book ++ asks sample_exact_book).
Proof. repeat constructor; cbn; discriminate. Defined.

Lemma sample_limit_buy_valid : valid_form sample_limit_buy.
Proof. split; [reflexivity|]. intros _. exists 100%Q. split; reflexivity. Defined.

Lemma limit_buy_below_asks_witness :
  let f := mkForm OKX "BTC-USDT" Limit Buy (Some (Fin 99)) (Fin 3) immediate in
  type f = Limit /\ side f = Buy /\ finite_pos (form_quantity f) /\
  form_price f = Some (Fin 99) /\ (0 < 99)%Q /\
  bids sample_exact_book <> [] /\ asks sample_exact_book <> [] /\
  Forall valid_level (bids sample_exact_book ++ asks sample_exact_book) /\
  Forall (fun l => exists a, price l = Fin a /\ (99 < a)%Q) (asks sample_exact_book) /\
  exists r, simulateOrder f (Some sample_exact_book) = Return r /\
            fillPercentage r = Fin 0 /\ in_range 0 100 (marketImpact r) /\
            slippage r = Fin 0.
Proof.
  assert (Hq : finite_pos (Fin 3)) by reflexivity.
  assert (Hp : (0 < 99)%Q) by reflexivity.
  assert (Hb : bids sample_exact_book <> []) by discriminate.
  assert (Ha : asks sample_exact_book <> []) by discriminate.
  assert (Habove : Forall (fun l => exists a, price l = Fin a /\ (99 < a)%Q)
                     (asks sample_exact_book)).
  { repeat constructor; eexists; (split; [reflexivity|reflexivity]). }
  split; [reflexivity|]. split; [reflexivity|]. split; [exact Hq|].
  split; [reflexivity|]. split; [exact Hp|]. split; [exact Hb|]. split; [exact Ha|].
  split; [exact sample_exact_book_valid|]. split; [exact Habove|].
  exact (limit_buy_below_asks
           (mkForm OKX "BTC-USDT" Limit Buy (Some (Fin 99)) (Fin 3) immediate)
           sample_exact_book 99 eq_refl eq_refl Hq eq_refl Hp Hb Ha
           sample_exact_book_valid Habove).
Defined.

(** ** The form hook: what [simulate] stores *)

Lemma simulateOrder_active {N : Type} `{!Number N} (f : OrderForm N) (book : OrderBook N) :
  bids book <> [] -> asks book <> [] ->
  exists r, simulateOrder f (Some book) = Return r /\ active r = true /\ form r = f.
Proof.
  intros Hb Ha. rewrite simulateOrder_nonempty by done.
  destruct (type f).
  - unfold simulateMarket.
    destruct (side f).
    + destruct (asks book) as [|a l]; [done|]. cbn. by eexists.
    + destruct (bids book) as [|b l]; [done|]. cbn. by eexists.
  - unfold simulateLimit. by eexists.
Qed.

Lemma empty_side_guard {N : Type} (book : OrderBook N) :
  ((bids book = [] \/ asks book = []) /\
   bool_decide (length (bids book) = 0%nat) ||
   bool_decide (length (asks book) = 0%nat) = true)
  \/ (bids book <> [] /\ asks book <> [] /\
      bool_decide (length (bids book) = 0%nat) ||
      bool_decide (length (asks book) = 0%nat) = false).
Proof.
  destruct (bids book), (asks book); cbn; [left|left|left|right]; split; auto.
Qed.

(** X8.  [simulate] of the hook never throws and never stores an inactive
    result: with an empty side it leaves the state [simulation] as it is
    and sets no timer; otherwise it stores the active result of
    [simulateOrder] for the current form, with a timer to clear it exactly
    when the form has a delay. *)
Theorem simulate_stores_active_results :
  forall (N : Type) (HN : Number N) (f : OrderForm N) (book : OrderBook N)
         (simulation : option (OrderSimulation N)),
    (bids book = [] \/ asks book = []) /\
      simulate f book simulation = Return (simulation, None)
    \/ exists r,
         simulate f book simulation = Return (Some r, clear_delay (delay f)) /\
         simulateOrder f (Some book) = Return r /\
         active r = true /\ form r = f /\
         (clear_delay (delay f) = None <-> delay f = immediate).
Proof.
  intros N HN f book simulation. unfold simulate.
  destruct (empty_side_guard book) as [[Hempty ->]|(Hb & Ha & ->)]; [by left|].
  right.
  destruct (simulateOrder_active f book Hb Ha) as (r & Hr & Hact & Hform).
  exists r. rewrite Hr. cbn [mbind outcome_bind].
  repeat split; try done.
  - by destruct (delay f).
  - by intros ->.
Qed.

(** ** Validation and simulation *)


Lemma simulateOrder_in_range (f : OrderForm xnum) (book : OrderBook xnum) :
  valid_form f -> bids book <> [] -> asks book <> [] ->
  Forall valid_level (bids book ++ asks book) ->
  exists r, simulateOrder f (Some book) = Return r /\
            in_range 0 100 (fillPercentage r) /\
            in_range 0 100 (marketImpact r) /\
            (type f = Limit -> finite_nonneg (slippage r)).
Proof.
  intros [Hq Hlimit] Hbids Hasks Hvalid.
  rewrite simulateOrder_nonempty by done.
  destruct (type f) eqn:Hty.
  - assert (exists best rest, consumed_side (side f) book = best :: rest /\
                              Forall valid_level (best :: rest))
      as (best & rest & Hside & Hlv).
    { apply Forall_app in Hvalid as [Hvb Hva]. unfold consumed_side.
      destruct (side f).
      - destruct (asks book) as [|a l]; [done|]. by exists a, l.
      - destruct (bids book) as [|a l]; [done|]. by exists a, l. }
    destruct (simulateMarket_exact f book best rest Hq Hside Hlv)
      as (r & Hr & Hfill & Himpact & _).
    by exists r.
  - destruct (Hlimit eq_refl) as (p & Hprice & Hp).
    destruct (simulateLimit_exact f book p Hq Hprice Hp Hbids Hasks Hvalid)
      as (r & Hr & Hfill & Himpact & Hslip).
    exists r. split; [done|]. split; [done|]. split; [done|].
    intros _. destruct (side f).
    + rewrite Hslip. cbn. lra.
    + destruct Hslip as [[_ ->]| [_ ->]]; cbn; lra.
Qed.



(** ** Time-to-fill labels *)

Lemma xlt_zero_of_threshold (c : Q) (x : xnum) :
  (0 <= c)%Q -> xlt (Fin c) x = true \/ xle (Fin c) x = true /\ (0 < c)%Q ->
  xlt (Fin 0) x = true.
Proof.
  intros Hc H. destruct x as [q| | |]; cbn in *; try done.
  - apply negb_true_iff, Qle_bool_false.
    destruct H as [H|[H Hpos]].
    + apply negb_true_iff, Qle_bool_false in H. lra.
    + apply Qle_bool_iff in H. lra.
  - by destruct H as [H|[H _]].
  - by destruct H as [H|[H _]].
Qed.

(** X7.  The label of a limit order, for every fill share, [NaN] and the
    infinities included: ["Immediate"] exactly for an order without delay
    that is filled completely, ["Partial fill"] for every other order
    without delay, and ["Unlikely to fill"] exactly for a delayed order
    whose fill share is not above zero. *)
Theorem time_to_fill_labels :
  forall (d : DelayOption) (x : xnum),
    (estimateTimeToFill d x = "Immediate" <->
     d = immediate /\ xle (Fin 100) x = true) /\
    (estimateTimeToFill d x = "Partial fill" <->
     d = immediate /\ xle (Fin 100) x = false) /\
    (estimateTimeToFill d x = "Unlikely to fill" <->
     d <> immediate /\ xlt (Fin 0) x = false).
Proof.
  intros d x. unfold estimateTimeToFill.
  change (@of_Z xnum _ 100) with (Fin 100). change (@of_Z xnum _ 75) with (Fin 75).
  change (@of_Z xnum _ 50) with (Fin 50). change (@of_Z xnum _ 0) with (Fin 0).
  cbn [nle nlt xnum_number].
  assert (H100 : xle (Fin 100) x = true -> xlt (Fin 0) x = true).
  { intros H. apply (xlt_zero_of_threshold 100); [done|]. right. by split. }
  assert (H75 : xlt (Fin 75) x = true -> xlt (Fin 0) x = true).
  { intros H. apply (xlt_zero_of_threshold 75); [done|]. by left. }
  assert (H50 : xlt (Fin 50) x = true -> xlt (Fin 0) x = true).
  { intros H. apply (xlt_zero_of_threshold 50); [done|]. by left. }
  destruct d;
    destruct (xle (Fin 100) x) eqn:E100;
    destruct (xlt (Fin 75) x) eqn:E75;
    destruct (xlt (Fin 50) x) eqn:E50;
    destruct (xlt (Fin 0) x) eqn:E0;
    try (specialize (H100 eq_refl)); try (specialize (H75 eq_refl));
    try (specialize (H50 eq_refl)); try discriminate;
    cbn; (repeat split); try (intros [? ?]); try done.
Qed.

(** ** What the aggregator keeps, and in which order *)

Section SortPermutation.
Context {N : Type} `{!Number N} {A : Type} (cmp : A -> A -> N).

Lemma sort_insert_Permutation x l : sort_insert cmp x l ≡ₚ x :: l.
Proof.
  induction l as [|y l IH]; cbn; [done|].
  destruct (nlt _ _); [|done].
  rewrite IH. apply Permutation_swap.
Qed.

Lemma js_sort_Permutation l : js_sort cmp l ≡ₚ l.
Proof.
  induction l as [|x l IH]; cbn; [done|].
  by rewrite sort_insert_Permutation, IH.
Qed.
End SortPermutation.

Lemma same_data_fmap {N : Type} `{!Number N} (l l' : list (OrderLevel N)) :
  Forall2 same_order_data l l' -> order_data <$> l = order_data <$> l'.
Proof.
  induction 1 as [|x y l l' [Hp Hq] _ IH]; cbn; [done|].
  unfold order_data at 1 3. by rewrite Hp, Hq, IH.
Qed.

(** X11.  Aggregation neither invents nor alters an order: on each side the
    prices and quantities of the result are, as a multiset, among those of
    the input, the result has [min(15, n)] of the [n] input levels (so all
    of them, rearranged, when there are at most 15), and the timestamp is
    the input's. *)
Theorem aggregate_keeps_orders :
  forall (N : Type) (HN : Number N) (book : OrderBook N),
    let out := processOrderBookData book in
    order_data <$> bids out ⊆+ order_data <$> bids book /\
    order_data <$> asks out ⊆+ order_data <$> asks book /\
    length (bids out) = Nat.min 15 (length (bids book)) /\
    length (asks out) = Nat.min 15 (length (asks book)) /\
    timestamp out = timestamp book.
Proof.
  intros N HN book out. subst out. rewrite processOrderBookData_unfold.
  cbn [bids asks timestamp].
  rewrite !(same_data_fmap _ _ (annotated_same_data _ _ _)), !annotated_length.
  rewrite !length_take, !js_sort_length.
  repeat split.
  - rewrite <- (js_sort_Permutation (fun a b => nsub (price b) (price a)) (bids book)) at 2.
    apply fmap_submseteq, sublist_submseteq, sublist_take.
  - rewrite <- (js_sort_Permutation (fun a b => nsub (price a) (price b)) (asks book)) at 2.
    apply fmap_submseteq, sublist_submseteq, sublist_take.
Qed.

(** ** The order of the aggregated sides, in exact arithmetic *)

Section PriceOrder.
(** [g] is the comparator on prices and [R a b] tells that a level priced
    [a] may stand before one priced [b]. *)
Variable g : xnum -> xnum -> xnum.
Variable R : xnum -> xnum -> bool.
Hypothesis g_asym :
  forall a b, xlt (g a b) (Fin 0) = true -> xlt (g b a) (Fin 0) = false.
Hypothesis R_of_g :
  forall a b, is_finite a -> is_finite b -> xlt (g b a) (Fin 0) = false -> R a b = true.
Hypothesis R_refl : forall a, is_finite a -> R a a = true.
Hypothesis R_trans :
  forall a b c, is_finite a -> is_finite b -> is_finite c ->
                R a b = true -> R b c = true -> R a c = true.

Local Abbreviation cmp := (fun a b : OrderLevel xnum => g (price a) (price b)).
Local Abbreviation finite_price := (fun l : OrderLevel xnum => is_finite (price l)).

Lemma ordered_head (x : OrderLevel xnum) (l : list (OrderLevel xnum)) :
  is_finite (price x) -> Forall finite_price l -> ordered cmp (x :: l) ->
  forall y, y ∈ l -> R (price x) (price y) = true.
Proof using R_of_g R_trans.
  intros Hx Hl. revert x Hx.
  induction Hl as [|y0 l Hy0 Hl IH]; intros x Hx Hord y Hy; [by apply elem_of_nil in Hy|].
  destruct Hord as [Hxy Hord].
  assert (Rxy : R (price x) (price y0) = true) by (by apply R_of_g).
  apply elem_of_cons in Hy as [->|Hy]; [done|].
  apply (R_trans _ (price y0)); try done.
  - rewrite Forall_forall in Hl. by apply Hl.
  - by apply IH.
Qed.

Lemma ordered_lookup (l : list (OrderLevel xnum)) :
  Forall finite_price l -> ordered cmp l ->
  forall i j x y, i <= j -> l !! i = Some x -> l !! j = Some y ->
                  R (price x) (price y) = true.
Proof using R_of_g R_refl R_trans.
  induction 1 as [|x0 l Hx0 Hl IH]; intros Hord i j x y Hij Hi Hj; [done|].
  destruct i as [|i], j as [|j]; cbn in Hi, Hj; try lia.
  - injection Hi as <-. injection Hj as <-. by apply R_refl.
  - injection Hi as <-. apply (ordered_head x0 l); try done.
    by eapply list_elem_of_lookup_2.
  - apply (IH (ordered_tail _ _ _ Hord) i j); [lia|done|done].
Qed.

Lemma side_finite (levels : list (OrderLevel xnum)) :
  Forall finite_price levels -> Forall finite_price (js_sort cmp levels).
Proof. apply js_sort_Forall. Qed.

Lemma side_sorted (levels : list (OrderLevel xnum)) (run m : xnum) :
  Forall finite_price levels ->
  forall i j x y,
    i <= j ->
    annotated run m (take 15 (js_sort cmp levels)) !! i = Some x ->
    annotated run m (take 15 (js_sort cmp levels)) !! j = Some y ->
    R (price x) (price y) = true.
Proof using g_asym R_of_g R_refl R_trans.
  intros Hfin i j x y Hij Hi Hj.
  pose proof (annotated_same_data (take 15 (js_sort cmp levels)) run m) as Hsame.
  destruct (Forall2_lookup_l _ _ _ _ _ Hsame Hi) as (x' & Hi' & [Hx _]).
  destruct (Forall2_lookup_l _ _ _ _ _ Hsame Hj) as (y' & Hj' & [Hy _]).
  rewrite Hx, Hy.
  apply lookup_take_Some in Hi' as [Hi' _]. apply lookup_take_Some in Hj' as [Hj' _].
  apply (ordered_lookup (js_sort cmp levels)) with i j; try done.
  - by apply side_finite.
  - apply (js_sort_ordered cmp). intros a b. apply g_asym.
Qed.

Lemma side_keeps_best (levels : list (OrderLevel xnum)) (run m : xnum) :
  Forall finite_price levels ->
  forall l, l ∈ levels ->
    (exists o, o ∈ annotated run m (take 15 (js_sort cmp levels)) /\
               order_data o = order_data l)
    \/ (forall o, o ∈ annotated run m (take 15 (js_sort cmp levels)) ->
                  R (price o) (price l) = true).
Proof using g_asym R_of_g R_refl R_trans.
  intros Hfin l Hl.
  pose proof (annotated_same_data (take 15 (js_sort cmp levels)) run m) as Hsame.
  rewrite <- (js_sort_Permutation cmp levels) in Hl.
  apply list_elem_of_lookup in Hl as (k & Hk).
  destruct (decide (k < 15)) as [Hlt|Hge].
  - left.
    assert (Hk' : take 15 (js_sort cmp levels) !! k = Some l)
      by (by apply lookup_take_Some).
    destruct (Forall2_lookup_r _ _ _ _ _ Hsame Hk') as (o & Ho & [Hp Hq]).
    exists o. split; [by eapply list_elem_of_lookup_2|].
    unfold order_data. by rewrite Hp, Hq.
  - right. intros o Ho.
    apply list_elem_of_lookup in Ho as (i & Hi).
    destruct (Forall2_lookup_l _ _ _ _ _ Hsame Hi) as (o' & Hi' & [Hp _]).
    apply lookup_take_Some in Hi' as [Hi' Hi15].
    rewrite Hp.
    apply (ordered_lookup (js_sort cmp levels)) with i k; try done.
    + by apply side_finite.
    + apply (js_sort_ordered cmp). intros a b. apply g_asym.
    + lia.
Qed.
End PriceOrder.

Lemma xle_of_sub (a b : xnum) :
  is_finite a -> is_finite b -> xlt (xsub a b) (Fin 0) = false -> xle b a = true.
Proof.
  intros (x & ->) (y & ->). cbn. unfold fin. intros H.
  apply negb_false_iff, Qle_bool_iff in H. rewrite Qred_correct in H.
  apply Qle_bool_iff. lra.
Qed.

Lemma xle_refl (a : xnum) : is_finite a -> xle a a = true.
Proof. intros (x & ->). cbn. apply Qle_bool_iff. lra. Qed.

Lemma xle_trans (a b c : xnum) :
  is_finite a -> is_finite b -> is_finite c ->
  xle a b = true -> xle b c = true -> xle a c = true.
Proof.
  intros (x & ->) (y & ->) (z & ->). cbn. rewrite !Qle_bool_iff. lra.
Qed.

(** X12.  The sides of an aggregated book are sorted, in exact arithmetic and
    for finite prices: along the bids no price is above an earlier one,
    along the asks no price is below an earlier one. *)
Theorem aggregate_sorted (book : OrderBook xnum) :
  Forall (fun l => is_finite (price l)) (bids book ++ asks book) ->
  let out := processOrderBookData book in
  (forall i j x y, i <= j -> bids out !! i = Some x -> bids out !! j = Some y ->
                   xle (price y) (price x) = true) /\
  (forall i j x y, i <= j -> asks out !! i = Some x -> asks out !! j = Some y ->
                   xle (price x) (price y) = true).
Proof.
  intros Hfin out. subst out. rewrite processOrderBookData_unfold.
  cbn [bids asks]. apply Forall_app in Hfin as [Hb Ha].
  split; intros i j x y Hij Hi Hj.
  - refine (side_sorted (fun a b => xsub b a) (fun a b => xle b a) _ _ _ _
              _ _ _ Hb i j x y Hij Hi Hj).
    + intros a b. apply xsub_asym.
    + intros a b Hfa Hfb. by apply xle_of_sub.
    + intros a Hfa. by apply xle_refl.
    + intros a b c Hfa Hfb Hfc Hab Hbc. by apply (xle_trans c b a).
  - refine (side_sorted xsub xle _ _ _ _ _ _ _ Ha i j x y Hij Hi Hj).
    + apply xsub_asym.
    + intros a b Hfa Hfb. by apply xle_of_sub.
    + intros a Hfa. by apply xle_refl.
    + apply xle_trans.
Qed.

Lemma aggregate_sorted_witness :
  Forall (fun l => is_finite (price l)) (bids sample_raw_book ++ asks sample_raw_book) /\
  (forall i j x y, i <= j ->
     bids (processOrderBookData sample_raw_book) !! i = Some x ->
     bids (processOrderBookData sample_raw_book) !! j = Some y ->
     xle (price y) (price x) = true) /\
  (forall i j x y, i <= j ->
     asks (processOrderBookData sample_raw_book) !! i = Some x ->
     asks (processOrderBookData sample_raw_book) !! j = Some y ->
     xle (price x) (price y) = true).
Proof.
  assert (Hfin : Forall (fun l => is_finite (price l))
                   (bids sample_raw_book ++ asks sample_raw_book)).
  { repeat constructor; eexists; reflexivity. }
  split; [exact Hfin|].
  exact (aggregate_sorted sample_raw_book Hfin).
Defined.

(** X13.  The aggregator keeps the best levels of each side, in exact
    arithmetic and for finite prices: an input bid is either in the
    result, with its price and quantity, or priced no higher than every
    bid of the result; an input ask is either in the result or priced no
    lower than every ask of the result. *)
Theorem aggregate_keeps_best (book : OrderBook xnum) :
  Forall (fun l => is_finite (price l)) (bids book ++ asks book) ->
  let out := processOrderBookData book in
  (forall l, l ∈ bids book ->
     (exists o, o ∈ bids out /\ order_data o = order_data l) \/
     (forall o, o ∈ bids out -> xle (price l) (price o) = true)) /\
  (forall l, l ∈ asks book ->
     (exists o, o ∈ asks out /\ order_data o = order_data l) \/
     (forall o, o ∈ asks out -> xle (price o) (price l) = true)).
Proof.
  intros Hfin out. subst out. rewrite processOrderBookData_unfold.
  cbn [bids asks]. apply Forall_app in Hfin as [Hb Ha].
  split; intros l Hl.
  - refine (side_keeps_best (fun a b => xsub b a) (fun a b => xle b a) _ _ _ _
              _ _ _ Hb l Hl).
    + intros a b. apply xsub_asym.
    + intros a b Hfa Hfb. by apply xle_of_sub.
    + intros a Hfa. by apply xle_refl.
    + intros a b c Hfa Hfb Hfc Hab Hbc. by apply (xle_trans c b a).
  - refine (side_keeps_best xsub xle _ _ _ _ _ _ _ Ha l Hl).
    + apply xsub_asym.
    + intros a b Hfa Hfb. by apply xle_of_sub.
    + intros a Hfa. by apply xle_refl.
    + apply xle_trans.
Qed.

Lemma aggregate_keeps_best_witness :
  Forall (fun l => is_finite (price l)) (bids sample_raw_book ++ asks sample_raw_book) /\
  (forall l, l ∈ bids sample_raw_book ->
     (exists o, o ∈ bids (processOrderBookData sample_raw_book) /\
                order_data o = order_data l) \/
     (forall o, o ∈ bids (processOrderBookData sample_raw_book) ->
                xle (price l) (price o) = true)) /\
  (forall l, l ∈ asks sample_raw_book ->
     (exists o, o ∈ asks (processOrderBookData sample_raw_book) /\
                order_data o = order_data l) \/
     (forall o, o ∈ asks (processOrderBookData sample_raw_book) ->
                xle (price o) (price l) = true)).
Proof.
  assert (Hfin : Forall (fun l => is_finite (price l))
                   (bids sample_raw_book ++ asks sample_raw_book)).
  { repeat constructor; eexists; reflexivity. }
  split; [exact Hfin|].
  exact (aggregate_keeps_best sample_raw_book Hfin).
Defined.

(** ** C2: bounds and order of the aggregated book *)




(** ** Totals and percentages *)

Section RunningTotals.
Context {N : Type} `{!Number N}.

Lemma accumulate_fold (levels : list (OrderLevel N)) (run : N) :
  (accumulate run levels).2 = fold_left (fun r l => nadd r (quantity l)) levels run.
Proof.
  revert run. induction levels as [|l rest IH]; intros run; [done|].
  cbn. specialize (IH (nadd run (quantity l))).
  destruct (accumulate _ rest). cbn in *. done.
Qed.

Lemma accumulate_lookup (levels : list (OrderLevel N)) (run : N) i l' :
  (accumulate run levels).1 !! i = Some l' ->
  total l' = Some (fold_left (fun r l => nadd r (quantity l)) (take (S i) levels) run).
Proof.
  revert run i. induction levels as [|l rest IH]; intros run i; [done|].
  cbn. specialize (IH (nadd run (quantity l))).
  destruct (accumulate _ rest) as [rest' final]. cbn in *.
  destruct i as [|i]; cbn.
  - intros [= <-]. cbn. by rewrite take_0.
  - apply IH.
Qed.

Lemma fold_same_data (l l' : list (OrderLevel N)) (run : N) :
  Forall2 same_order_data l l' ->
  fold_left (fun r x => nadd r (quantity x)) l run
  = fold_left (fun r x => nadd r (quantity x)) l' run.
Proof.
  intros H2. revert run. induction H2 as [|a b l l' [_ Hq] _ IH]; intros run; [done|].
  cbn. by rewrite Hq, IH.
Qed.

Lemma annotated_lookup (levels : list (OrderLevel N)) (m : N) i l' :
  annotated (of_Z 0) m levels !! i = Some l' ->
  let t := quantity_sum (take (S i) (annotated (of_Z 0) m levels)) in
  total l' = Some t /\
  percentage l' = Some (if truthy t then nmul (ndiv t m) (of_Z 100) else of_Z 0).
Proof.
  intros Hl t.
  assert (Ht : t = fold_left (fun r x => nadd r (quantity x)) (take (S i) levels) (of_Z 0)).
  { subst t. unfold quantity_sum. apply fold_same_data.
    apply Forall2_take, annotated_same_data. }
  unfold annotated in Hl. rewrite list_lookup_fmap in Hl.
  destruct ((accumulate (of_Z 0) levels).1 !! i) as [l1|] eqn:Hl1; [|done].
  injection Hl as <-. apply accumulate_lookup in Hl1.
  cbn [total percentage set_percentage]. unfold depth_percentage.
  rewrite Hl1, <- Ht. done.
Qed.

Lemma annotated_sum (levels : list (OrderLevel N)) (m : N) :
  quantity_sum (annotated (of_Z 0) m levels) = (accumulate (of_Z 0) levels).2.
Proof.
  rewrite accumulate_fold. unfold quantity_sum.
  apply fold_same_data, annotated_same_data.
Qed.
End RunningTotals.

(** X14.  In every number model, each level of an aggregated side carries
    as [total] the quantities of that side added in order from 0 up to and
    including the level (the additions of the program, in their order), and
    as [percentage] that total divided by the larger of the two last
    totals, times 100, or 0 when the total is falsy (0 or NaN): the
    expression [(total / maxTotal) * 100] of the program, with [maxTotal]
    the greater of the two sides' sums. *)
Theorem aggregate_running_totals :
  forall (N : Type) (HN : Number N) (raw : OrderBook N),
    let out := processOrderBookData raw in
    let maxTotal := nmax (quantity_sum (bids out)) (quantity_sum (asks out)) in
    forall side i l,
      side = bids out \/ side = asks out ->
      side !! i = Some l ->
      let t := quantity_sum (take (S i) side) in
      total l = Some t /\
      percentage l = Some (if truthy t then nmul (ndiv t maxTotal) (of_Z 100) else of_Z 0).
Proof.
  intros N HN raw out maxTotal side i l Hside Hl.
  subst maxTotal out. revert Hside Hl.
  rewrite processOrderBookData_unfold. cbn zeta. cbn [bids asks].
  rewrite !annotated_sum.
  intros [->| ->] Hl; by apply annotated_lookup.
Qed.

Lemma aggregate_running_totals_witness :
  let raw := (mkBook [lv 99 1; lv 98 4] [lv 100 1; lv 101 2] 1700000000000)%float in
  let out := processOrderBookData raw in
  (bids out = bids out \/ bids out = asks out) /\
  bids out !! 1 = Some (mkLevel 98 4 (Some 5) (Some 100))%float /\
  quantity_sum (take 2 (bids out)) = 5%float /\
  nmax (quantity_sum (bids out)) (quantity_sum (asks out)) = 5%float /\
  total (mkLevel 98 4 (Some 5) (Some 100))%float
    = Some (quantity_sum (take 2 (bids out))).
Proof.
  intros raw out.
  assert (Hside : bids out = bids out \/ bids out = asks out) by (left; reflexivity).
  assert (Hl : bids out !! 1 = Some (mkLevel 98 4 (Some 5) (Some 100))%float)
    by reflexivity.
  split; [exact Hside|]. split; [exact Hl|].
  split; [reflexivity|]. split; [reflexivity|].
  exact (proj1 (aggregate_running_totals float _ raw (bids out) 1 _ Hside Hl)).
Defined.

(** ** The shared-object aggregator at a sample store *)

Lemma store_refines_values_witness :
  NoDup (bid_refs sample_book_ref ++ ask_refs sample_book_ref) /\
  read_book sample_store sample_book_ref
    = Some (mkBook [lv 100 1] [lv 101 2] 1700000000000)%float /\
  read_book (processOrderBookData_store sample_store sample_book_ref).1
            (processOrderBookData_store sample_store sample_book_ref).2
    = Some (processOrderBookData (mkBook [lv 100 1] [lv 101 2] 1700000000000)%float).
Proof.
  assert (Hnd : NoDup (bid_refs sample_book_ref ++ ask_refs sample_book_ref)).
  { apply (bool_decide_unpack _). reflexivity. }
  assert (Hread : read_book sample_store sample_book_ref
                  = Some (mkBook [lv 100 1] [lv 101 2] 1700000000000)%float)
    by reflexivity.
  split; [exact Hnd|]. split; [exact Hread|].
  exact (store_refines_values sample_store sample_book_ref _ Hnd Hread).
Defined.

(** ** What the parsers return *)

Section ParsedBooks.
Context {N : Type} `{!Number N}.
Variable parseFloat : value N -> outcome N.
Variable JSON_parse : string -> outcome (value N).
Variable now : N.

Local Abbreviation parse := (parseMessage parseFloat JSON_parse now).

Lemma map_outcome_length {A B} (f : A -> outcome B) (l : list A) (l' : list B) :
  map_outcome f l = Return l' -> length l' = length l.
Proof.
  revert l'. induction l as [|x l IH]; intros l'; cbn; [by intros [= <-]|].
  intros (y & _ & Hk)%bind_Return. apply bind_Return in Hk as (ys & Hys & [= <-]).
  cbn. f_equal. by apply IH.
Qed.

Lemma map_outcome_Forall {A B} (f : A -> outcome B) (P : B -> Prop)
    (l : list A) (l' : list B) :
  (forall x y, f x = Return y -> P y) ->
  map_outcome f l = Return l' -> Forall P l'.
Proof.
  intros Hf. revert l'. induction l as [|x l IH]; intros l'; cbn; [by intros [= <-]|].
  intros (y & Hy & Hk)%bind_Return. apply bind_Return in Hk as (ys & Hys & [= <-]).
  constructor; [by eapply Hf|by apply IH].
Qed.

Lemma parse_level_numeric (v : value N) (l : OrderLevel (value N)) :
  parse_level parseFloat v = Return l -> numeric_level l.
Proof.
  unfold parse_level.
  intros (p0 & _ & Hk)%bind_Return. apply bind_Return in Hk as (p & _ & Hk).
  apply bind_Return in Hk as (q0 & _ & Hk). apply bind_Return in Hk as (q & _ & [= <-]).
  by exists p, q.
Qed.

Lemma raw_level_fresh (v : value N) (l : OrderLevel (value N)) :
  raw_level v = Return l -> fresh_level l.
Proof.
  unfold raw_level.
  intros (p & _ & Hk)%bind_Return. apply bind_Return in Hk as (q & _ & [= <-]).
  done.
Qed.

(** The book a parser returns is made by its level callback from the two
    arrays of the payload. *)
Lemma parseMessage_Some_levels (e : Exchange) (message : value N) b :
  parse e message = Return (Some b) ->
  exists bs as',
    match e with
    | OKX =>
        map_outcome (parse_level parseFloat) bs = Return (bids b) /\
        map_outcome (parse_level parseFloat) as' = Return (asks b) /\
        timestamp b = VNum now
    | Bybit =>
        map_outcome (parse_level parseFloat) (take 50 bs) = Return (bids b) /\
        map_outcome (parse_level parseFloat) (take 50 as') = Return (asks b)
    | Deribit =>
        map_outcome raw_level bs = Return (bids b) /\
        map_outcome raw_level as' = Return (asks b)
    end.
Proof.
  destruct e; cbn; unfold parseMessage_OKX, parseMessage_Bybit, parseMessage_Deribit.
  - intros (d & Hd & Hk)%bind_Return.
    destruct (js_truthy d) eqn:Htruthy; [|done]. cbn in Hk.
    apply try_catch_Some, bind_Return in Hk as (data & Hdata' & Hk).
    destruct data as [| | | | |elements|]; try done.
    destruct elements as [|d0 rest]; [done|]. cbn in Hk.
    destruct (js_truthy d0); [|done]. cbn in Hk.
    apply bind_Return in Hk as ([] & Hasks & Hk); [|done]. cbn in Hk.
    apply bind_Return in Hk as ([] & Hbids & Hk); [|done]. cbn in Hk.
    apply bind_Return in Hk as (bv & _ & Hk).
    apply bind_Return in Hk as (bs & _ & Hk).
    apply bind_Return in Hk as (bids' & Hbids' & Hk).
    apply bind_Return in Hk as (av & _ & Hk).
    apply bind_Return in Hk as (as' & _ & Hk).
    apply bind_Return in Hk as (asks' & Hasks' & [= <-]).
    by exists bs, as'.
  - intros (d & Hd & Hk)%bind_Return.
    destruct (js_truthy d) eqn:Htruthy; [|done]. cbn in Hk.
    apply bind_Return in Hk as (topic & _ & Hk).
    destruct topic as [| | | |t| |]; try done.
    destruct (contains "orderbook" t) eqn:Hcontains; [|done]. cbn in Hk.
    apply try_catch_Some, bind_Return in Hk as (data & Hdata' & Hk).
    destruct (js_truthy data); [|done]. cbn in Hk.
    apply bind_Return in Hk as ([] & Ha & Hk); [|done]. cbn in Hk.
    apply bind_Return in Hk as ([] & Hb & Hk); [|done]. cbn in Hk.
    apply bind_Return in Hk as (bv & _ & Hk).
    apply bind_Return in Hk as (bs & _ & Hk).
    apply bind_Return in Hk as (bids' & Hbids' & Hk).
    apply bind_Return in Hk as (av & _ & Hk).
    apply bind_Return in Hk as (as' & _ & Hk).
    apply bind_Return in Hk as (asks' & Hasks' & Hk).
    apply bind_Return in Hk as (ts & _ & [= <-]).
    by exists bs, as'.
  - intros (params & Hparams & Hk)%bind_Return.
    apply bind_Return in Hk as (d & Hd & Hk).
    destruct (js_truthy d) eqn:Htruthy; [|done]. cbn in Hk.
    apply try_catch_Some, bind_Return in Hk as (bv & _ & Hk).
    apply bind_Return in Hk as (bs & _ & Hk).
    apply bind_Return in Hk as (bids' & Hbids' & Hk).
    apply bind_Return in Hk as (av & _ & Hk).
    apply bind_Return in Hk as (as' & _ & Hk).
    apply bind_Return in Hk as (asks' & Hasks' & Hk).
    apply bind_Return in Hk as (ts & _ & [= <-]).
    by exists bs, as'.
Qed.
End ParsedBooks.

(** X16.  Whatever the message, a book that a parser returns has levels without
    [total] and [percentage].  From OKX and Bybit every price and quantity
    is a number (possibly [NaN]), from Bybit with at most 50 levels a side,
    from OKX with the local clock as timestamp; from Deribit the prices and
    quantities are the payload's values as they came. *)
Theorem parsed_book_shape :
  forall (N : Type) (HN : Number N)
         (parseFloat : value N -> outcome N)
         (JSON_parse : string -> outcome (value N)) (now : N)
         (e : Exchange) (message : value N) (b : OrderBook (value N)),
    parseMessage parseFloat JSON_parse now e message = Return (Some b) ->
    Forall fresh_level (bids b ++ asks b) /\
    match e with
    | OKX => Forall numeric_level (bids b ++ asks b) /\ timestamp b = VNum now
    | Bybit => Forall numeric_level (bids b ++ asks b) /\
               length (bids b) <= 50 /\ length (asks b) <= 50
    | Deribit => True
    end.
Proof.
  intros N HN parseFloat JSON_parse now e message b Hb.
  assert (Hnf : forall l : OrderLevel (value N), numeric_level l -> fresh_level l).
  { by intros l (p & q & ->). }
  destruct (parseMessage_Some_levels _ _ _ _ _ _ Hb) as (bs & as' & H).
  destruct e.
  - destruct H as (Hbids & Hasks & Hts).
    assert (Hnum : Forall numeric_level (bids b ++ asks b)).
    { apply Forall_app; split;
        eapply map_outcome_Forall; try eassumption; apply parse_level_numeric. }
    split; [by eapply Forall_impl|done].
  - destruct H as (Hbids & Hasks).
    assert (Hnum : Forall numeric_level (bids b ++ asks b)).
    { apply Forall_app; split;
        eapply map_outcome_Forall; try eassumption; apply parse_level_numeric. }
    split; [by eapply Forall_impl|]. split; [done|].
    apply map_outcome_length in Hbids, Hasks.
    rewrite Hbids, Hasks, !length_take. lia.
  - destruct H as (Hbids & Hasks). split; [|done].
    apply Forall_app; split;
      eapply map_outcome_Forall; try eassumption; apply raw_level_fresh.
Qed.

Lemma parsed_book_shape_witness :
  let message : value xnum :=
    obj [("topic", VStr "orderbook.50.BTCUSDT");
         ("data", obj [("b", VArr [VArr [VStr "100.5"; VStr "2"]]);
                       ("a", VArr [VArr [VStr "abc"; VStr "3"]]);
                       ("ts", VNum (Fin 1597026383085))])] in
  let b := {| bids := [lv (VNum (Fin (201 # 2))) (VNum (Fin 2))];
              asks := [lv (VNum NaN) (VNum (Fin 3))];
              timestamp := VNum (Fin 1597026383085) |} in
  parseMessage parseFloat_exact not_json clock Bybit message = Return (Some b) /\
  Forall fresh_level (bids b ++ asks b) /\
  Forall numeric_level (bids b ++ asks b) /\
  length (bids b) <= 50 /\ length (asks b) <= 50.
Proof.
  intros message b.
  assert (Hb : parseMessage parseFloat_exact not_json clock Bybit message
               = Return (Some b)) by reflexivity.
  split; [exact Hb|].
  exact (parsed_book_shape xnum _ parseFloat_exact not_json clock Bybit message b Hb).
Defined.

(** ** Payloads that are parsed *)

Section AcceptedPayloads.
Context {N : Type} `{!Number N}.
Variable parseFloat : value N -> outcome N.
Variable JSON_parse : string -> outcome (value N).
Variable now : N.

Local Abbreviation parse := (parseMessage parseFloat JSON_parse now).

Lemma map_outcome_Forall2 {A B} (f : A -> outcome B) (R : A -> B -> Prop) (l : list A) :
  Forall (fun x => exists y, f x = Return y /\ R x y) l ->
  exists l', map_outcome f l = Return l' /\ Forall2 R l l'.
Proof.
  induction 1 as [|x l (y & Hy & HR) _ (l' & Hl' & HF)]; cbn; [by exists []|].
  rewrite Hy, Hl'. cbn. exists (y :: l'). split; [done|by constructor].
Qed.

Lemma get_index_indexable (v : value N) (i : nat) :
  indexable v -> exists w, get_index v i = Return w.
Proof. intros [Hnull Hundef]. destruct v; cbn; try done; by eexists. Qed.

Lemma parse_level_total (v : value N) :
  (forall w, exists n, parseFloat w = Return n) -> indexable v ->
  exists l, parse_level parseFloat v = Return l /\ parsed_from parseFloat v l.
Proof.
  intros Hpf Hv. unfold parse_level, parsed_from.
  destruct (get_index_indexable v 0 Hv) as (p0 & Hp0).
  destruct (get_index_indexable v 1 Hv) as (q0 & Hq0). rewrite Hp0, Hq0. cbn.
  destruct (Hpf p0) as (p & Hp). destruct (Hpf q0) as (q & Hq). rewrite Hp. cbn.
  rewrite Hq. cbn. eexists. split; [done|]. by exists p0, q0, p, q.
Qed.

Lemma raw_level_total (v : value N) :
  indexable v -> exists l, raw_level v = Return l /\ taken_from v l.
Proof.
  intros Hv. unfold raw_level, taken_from.
  destruct (get_index_indexable v 0 Hv) as (p0 & Hp0).
  destruct (get_index_indexable v 1 Hv) as (q0 & Hq0). rewrite Hp0, Hq0. cbn.
  eexists. split; [done|]. by exists p0, q0.
Qed.

Lemma parsed_levels (l : list (value N)) :
  (forall w, exists n, parseFloat w = Return n) -> Forall indexable l ->
  exists l', map_outcome (parse_level parseFloat) l = Return l' /\
             Forall2 (parsed_from parseFloat) l l'.
Proof.
  intros Hpf Hl. apply map_outcome_Forall2.
  eapply Forall_impl; [exact Hl|]. intros v Hv. by apply parse_level_total.
Qed.

Lemma carried_by_parse (d data : value N) :
  carried_by JSON_parse d data -> parse_if_string JSON_parse d = Return data.
Proof. destruct d; cbn; try done; by intros ->. Qed.

(** X17.  An OKX frame whose [data] is (or, as text, parses to) an array that
    starts with an object holding the arrays [bids] and [asks] is parsed
    into a book with every level of the payload, in order, each made by
    the level callback, and with the local clock as timestamp.
    ([parseFloat] does not throw on the values of a frame, and an entry
    can be indexed unless it is [null].) *)
Theorem okx_payload_is_parsed (props fields : gmap string (value N))
    (d : value N) (rest bs as' : list (value N)) :
  props !! "data" = Some d -> js_truthy d = true ->
  carried_by JSON_parse d (VArr (VObj fields :: rest)) ->
  fields !! "bids" = Some (VArr bs) -> fields !! "asks" = Some (VArr as') ->
  Forall indexable (bs ++ as') ->
  (forall w, exists n, parseFloat w = Return n) ->
  exists bids' asks',
    Forall2 (parsed_from parseFloat) bs bids' /\
    Forall2 (parsed_from parseFloat) as' asks' /\
    parse OKX (VObj props)
      = Return (Some {| bids := bids'; asks := asks'; timestamp := VNum now |}).
Proof.
  intros Hd Htruthy Hcarried Hbids Hasks Hidx Hpf.
  apply Forall_app in Hidx as [Hib Hia].
  destruct (parsed_levels bs Hpf Hib) as (bids' & Hb' & HFb).
  destruct (parsed_levels as' Hpf Hia) as (asks' & Ha' & HFa).
  exists bids', asks'. split; [done|]. split; [done|].
  cbn. unfold parseMessage_OKX. cbn. rewrite Hd. cbn. rewrite Htruthy. cbn.
  rewrite (carried_by_parse _ _ Hcarried). cbn.
  rewrite Hbids, Hasks. cbn. by rewrite Hb', Ha'.
Qed.

Lemma bybit_payload (props fields : gmap string (value N))
    (d : value N) (t : string) (bs as' : list (value N)) :
  props !! "data" = Some d -> js_truthy d = true ->
  props !! "topic" = Some (VStr t) -> contains "orderbook" t = true ->
  carried_by JSON_parse d (VObj fields) ->
  fields !! "b" = Some (VArr bs) -> fields !! "a" = Some (VArr as') ->
  Forall indexable (take 50 bs ++ take 50 as') ->
  (forall w, exists n, parseFloat w = Return n) ->
  exists bids' asks',
    Forall2 (parsed_from parseFloat) (take 50 bs) bids' /\
    Forall2 (parsed_from parseFloat) (take 50 as') asks' /\
    parse Bybit (VObj props)
      = Return (Some {| bids := bids'; asks := asks';
                        timestamp := or_now now (default VUndefined (fields !! "ts")) |}).
Proof.
  intros Hd Htruthy Htopic Hcontains Hcarried Hb Ha Hidx Hpf.
  apply Forall_app in Hidx as [Hib Hia].
  destruct (parsed_levels (take 50 bs) Hpf Hib) as (bids' & Hb' & HFb).
  destruct (parsed_levels (take 50 as') Hpf Hia) as (asks' & Ha' & HFa).
  exists bids', asks'. split; [done|]. split; [done|].
  cbn. unfold parseMessage_Bybit. cbn. rewrite Hd. cbn. rewrite Htruthy. cbn.
  rewrite Htopic. cbn. rewrite Hcontains. cbn.
  rewrite (carried_by_parse _ _ Hcarried). cbn.
  rewrite Hb, Ha. cbn. by rewrite Hb', Ha'.
Qed.

(** X19.  A Deribit notification whose [params.data] holds the arrays [bids]
    and [asks] is parsed into a book with every level of the payload, in
    order; the price and the quantity of a level are the first two
    elements of its entry as they came, with no conversion, and the
    timestamp is the payload's, or the clock when that is missing. *)
Theorem deribit_payload_is_passed_through (props params fields : gmap string (value N))
    (bs as' : list (value N)) :
  props !! "params" = Some (VObj params) -> params !! "data" = Some (VObj fields) ->
  fields !! "bids" = Some (VArr bs) -> fields !! "asks" = Some (VArr as') ->
  Forall indexable (bs ++ as') ->
  exists bids' asks',
    Forall2 taken_from bs bids' /\ Forall2 taken_from as' asks' /\
    parse Deribit (VObj props)
      = Return (Some {| bids := bids'; asks := asks';
                        timestamp :=
                          or_now now (default VUndefined (fields !! "timestamp")) |}).
Proof.
  intros Hparams Hdata Hbids Hasks Hidx.
  apply Forall_app in Hidx as [Hib Hia].
  destruct (map_outcome_Forall2 raw_level taken_from bs) as (bids' & Hb' & HFb).
  { eapply Forall_impl; [exact Hib|]. intros v Hv. by apply raw_level_total. }
  destruct (map_outcome_Forall2 raw_level taken_from as') as (asks' & Ha' & HFa).
  { eapply Forall_impl; [exact Hia|]. intros v Hv. by apply raw_level_total. }
  exists bids', asks'. split; [done|]. split; [done|].
  cbn. unfold parseMessage_Deribit. cbn. rewrite Hparams. cbn. rewrite Hdata. cbn.
  rewrite Hbids, Hasks. cbn. by rewrite Hb', Ha'.
Qed.
End AcceptedPayloads.

Lemma parseFloat_exact_total (w : value xnum) : exists n, parseFloat_exact w = Return n.
Proof. destruct w; eexists; reflexivity. Defined.

Lemma okx_payload_is_parsed_witness :
  let fields : gmap string (value xnum) :=
    list_to_map [("bids", VArr [VArr [VStr "100.5"; VStr "2"]]);
                 ("asks", VArr [VArr [VStr "101"; VStr "3"]])] in
  let props : gmap string (value xnum) :=
    list_to_map [("data", VArr [VObj fields])] in
  props !! "data" = Some (VArr [VObj fields]) /\
  js_truthy (VArr [VObj fields]) = true /\
  carried_by not_json (VArr [VObj fields]) (VArr (VObj fields :: [])) /\
  fields !! "bids" = Some (VArr [VArr [VStr "100.5"; VStr "2"]]) /\
  fields !! "asks" = Some (VArr [VArr [VStr "101"; VStr "3"]]) /\
  exists bids' asks',
    Forall2 (parsed_from parseFloat_exact) [VArr [VStr "100.5"; VStr "2"]] bids' /\
    Forall2 (parsed_from parseFloat_exact) [VArr [VStr "101"; VStr "3"]] asks' /\
    parseMessage parseFloat_exact not_json clock OKX (VObj props)
      = Return (Some {| bids := bids'; asks := asks'; timestamp := VNum clock |}).
Proof.
  intros fields props.
  assert (Hidx : Forall (@indexable xnum)
                   ([VArr [VStr "100.5"; VStr "2"]] ++ [VArr [VStr "101"; VStr "3"]])).
  { repeat constructor; discriminate. }
  split; [reflexivity|]. split; [reflexivity|]. split; [reflexivity|].
  split; [reflexivity|]. split; [reflexivity|].
  exact (okx_payload_is_parsed parseFloat_exact not_json clock props fields
           (VArr [VObj fields]) [] _ _ eq_refl eq_refl eq_refl eq_refl eq_refl
           Hidx parseFloat_exact_total).
Defined.

Lemma deribit_payload_is_passed_through_witness :
  let fields : gmap string (value xnum) :=
    list_to_map [("bids", VArr [VArr [VNum (Fin 100); VNum (Fin 2)]]);
                 ("asks", VArr [VArr [VStr "abc"]]);
                 ("timestamp", VNum (Fin 1597026383085))] in
  let params : gmap string (value xnum) := list_to_map [("data", VObj fields)] in
  let props : gmap string (value xnum) := list_to_map [("params", VObj params)] in
  props !! "params" = Some (VObj params) /\ params !! "data" = Some (VObj fields) /\
  fields !! "bids" = Some (VArr [VArr [VNum (Fin 100); VNum (Fin 2)]]) /\
  fields !! "asks" = Some (VArr [VArr [VStr "abc"]]) /\
  exists bids' asks',
    Forall2 taken_from [VArr [VNum (Fin 100); VNum (Fin 2)]] bids' /\
    Forall2 taken_from [VArr [VStr "abc"]] asks' /\
    parseMessage parseFloat_exact not_json clock Deribit (VObj props)
      = Return (Some {| bids := bids'; asks := asks';
                        timestamp :=
                          or_now clock (default VUndefined (fields !! "timestamp")) |}).
Proof.
  intros fields params props.
  assert (Hidx : Forall (@indexable xnum)
                   ([VArr [VNum (Fin 100); VNum (Fin 2)]] ++ [VArr [VStr "abc"]])).
  { repeat constructor; discriminate. }
  split; [reflexivity|]. split; [reflexivity|]. split; [reflexivity|].
  split; [reflexivity|].
  exact (deribit_payload_is_passed_through parseFloat_exact not_json clock
           props params fields _ _ eq_refl eq_refl eq_refl eq_refl Hidx).
Defined.

Lemma bybit_subscription_args {N : Type} `{!Number N} (sym : string) :
  get_field (subscriptionMessage (N := N) Bybit sym) "args"
  = Return (VArr [VStr ("orderbook.50." +:+ sym)]).
Proof. reflexivity. Qed.

(** X18.  A frame of the channel that the Bybit subscription names, as long as
    it carries the two arrays [b] and [a], is parsed into a book: the first
    50 entries of each side, in order, each through the level callback;
    the timestamp is the payload's [ts], or the clock when that is
    missing.  ([parseFloat] does not throw on the values of a frame.) *)
Theorem bybit_subscribed_frame_is_parsed :
  forall (N : Type) (HN : Number N)
         (parseFloat : value N -> outcome N)
         (JSON_parse : string -> outcome (value N)) (now : N)
         (sym t : string) (props fields : gmap string (value N))
         (bs as' : list (value N)),
    get_field (subscriptionMessage (N := N) Bybit sym) "args" = Return (VArr [VStr t]) ->
    props !! "topic" = Some (VStr t) ->
    props !! "data" = Some (VObj fields) ->
    fields !! "b" = Some (VArr bs) -> fields !! "a" = Some (VArr as') ->
    Forall indexable (take 50 bs ++ take 50 as') ->
    (forall w, exists n, parseFloat w = Return n) ->
    exists bids' asks',
      Forall2 (parsed_from parseFloat) (take 50 bs) bids' /\
      Forall2 (parsed_from parseFloat) (take 50 as') asks' /\
      length bids' = Nat.min 50 (length bs) /\ length asks' = Nat.min 50 (length as') /\
      parseMessage parseFloat JSON_parse now Bybit (VObj props)
        = Return (Some {| bids := bids'; asks := asks';
                          timestamp :=
                            or_now now (default VUndefined (fields !! "ts")) |}).
Proof.
  intros N HN parseFloat JSON_parse now sym t props fields bs as'
         Hargs Htopic Hdata Hb Ha Hidx Hpf.
  rewrite bybit_subscription_args in Hargs. injection Hargs as <-.
  destruct (bybit_payload parseFloat JSON_parse now props fields (VObj fields)
              ("orderbook.50." +:+ sym) bs as')
    as (bids' & asks' & HFb & HFa & Hparse); try done.
  exists bids', asks'. split; [done|]. split; [done|].
  split; [by rewrite <- (Forall2_length _ _ _ HFb), length_take|].
  split; [by rewrite <- (Forall2_length _ _ _ HFa), length_take|]. done.
Qed.

Lemma bybit_subscribed_frame_is_parsed_witness :
  let props : gmap string (value xnum) :=
    list_to_map
      [("topic", VStr "orderbook.50.BTCUSDT");
       ("data", obj [("b", VArr [VArr [VStr "100.5"; VStr "2"]]);
                     ("a", VArr [VArr [VStr "101"; VStr "3"]]);
                     ("ts", VNum (Fin 1597026383085))])] in
  let fields : gmap string (value xnum) :=
    list_to_map [("b", VArr [VArr [VStr "100.5"; VStr "2"]]);
                 ("a", VArr [VArr [VStr "101"; VStr "3"]]);
                 ("ts", VNum (Fin 1597026383085))] in
  get_field (subscriptionMessage (N := xnum) Bybit "BTCUSDT") "args"
    = Return (VArr [VStr "orderbook.50.BTCUSDT"]) /\
  props !! "topic" = Some (VStr "orderbook.50.BTCUSDT") /\
  props !! "data" = Some (VObj fields) /\
  fields !! "b" = Some (VArr [VArr [VStr "100.5"; VStr "2"]]) /\
  fields !! "a" = Some (VArr [VArr [VStr "101"; VStr "3"]]) /\
  exists bids' asks',
    Forall2 (parsed_from parseFloat_exact) (take 50 [VArr [VStr "100.5"; VStr "2"]]) bids' /\
    Forall2 (parsed_from parseFloat_exact) (take 50 [VArr [VStr "101"; VStr "3"]]) asks' /\
    length bids' = Nat.min 50 1 /\ length asks' = Nat.min 50 1 /\
    parseMessage parseFloat_exact not_json clock Bybit (VObj props)
      = Return (Some {| bids := bids'; asks := asks';
                        timestamp :=
                          or_now clock (default VUndefined (fields !! "ts")) |}).
Proof.
  intros props fields.
  assert (Hidx : Forall (@indexable xnum)
                   (take 50 [VArr [VStr "100.5"; VStr "2"]] ++
                    take 50 [VArr [VStr "101"; VStr "3"]])).
  { repeat constructor; discriminate. }
  split; [reflexivity|]. split; [reflexivity|]. split; [reflexivity|].
  split; [reflexivity|]. split; [reflexivity|].
  exact (bybit_subscribed_frame_is_parsed xnum _ parseFloat_exact not_json clock
           "BTCUSDT" "orderbook.50.BTCUSDT" props fields _ _
           eq_refl eq_refl eq_refl eq_refl eq_refl Hidx parseFloat_exact_total).
Defined.

(** ** C4: what a parser returns on a payload *)

Section PayloadResults.
Context {N : Type} `{!Number N}.
Variable parseFloat : value N -> outcome N.
Variable JSON_parse : string -> outcome (value N).
Variable now : N.

Local Abbreviation parse := (parseMessage parseFloat JSON_parse now).

(** On a payload, a parser maps its callback over the entries it reads of
    both arrays; anything thrown on the way is caught. *)
Lemma payload_evaluates (e : Exchange) (message : value N) (bs as' : list (value N)) :
  payload_with JSON_parse e message bs as' ->
  exists ts,
    parse e message =
      try_catch
        (bids' ← map_outcome (level_of parseFloat e) (entries_read e bs);
         asks' ← map_outcome (level_of parseFloat e) (entries_read e as');
         Return (Some {| bids := bids'; asks := asks'; timestamp := ts |}))
        None.
Proof.
  destruct e; cbn [payload_with level_of entries_read parseMessage].
  - intros (props & d & rest & fields & -> & Hd & Htruthy & Hcarried & Hbids & Hasks).
    exists (VNum now). unfold parseMessage_OKX. cbn. rewrite Hd. cbn.
    rewrite Htruthy. cbn. rewrite (carried_by_parse _ _ _ Hcarried). cbn.
    rewrite Hbids, Hasks. cbn.
    destruct (map_outcome _ bs) as [bids'|]; [|done]. cbn.
    by destruct (map_outcome _ as').
  - intros (props & d & t & fields & -> & Hd & Htruthy & Htopic & Hcontains &
            Hcarried & Hb & Ha).
    exists (or_now now (default VUndefined (fields !! "ts"))).
    unfold parseMessage_Bybit. cbn. rewrite Hd. cbn. rewrite Htruthy. cbn.
    rewrite Htopic. cbn. rewrite Hcontains. cbn.
    rewrite (carried_by_parse _ _ _ Hcarried). cbn. rewrite Hb, Ha. cbn.
    destruct (map_outcome _ (take 50 bs)) as [bids'|]; [|done]. cbn.
    by destruct (map_outcome _ (take 50 as')).
  - intros (props & params & fields & -> & Hparams & Hdata & Hbids & Hasks).
    exists (or_now now (default VUndefined (fields !! "timestamp"))).
    unfold parseMessage_Deribit. cbn. rewrite Hparams. cbn. rewrite Hdata. cbn.
    rewrite Hbids, Hasks. cbn.
    destruct (map_outcome _ bs) as [bids'|]; [|done]. cbn.
    by destruct (map_outcome _ as').
Qed.

Lemma map_outcome_throws {A B} (f : A -> outcome B) (l : list A) :
  Exists (fun x => exists err, f x = Throw err) l -> exists err, map_outcome f l = Throw err.
Proof.
  induction 1 as [x l (err & Hx)|x l _ (err & IH)]; cbn.
  - rewrite Hx. by exists err.
  - destruct (f x) as [y|err']; cbn; [|by exists err'].
    rewrite IH. by exists err.
Qed.

Lemma map_outcome_reads {A B} (f : A -> outcome B) (l : list A) :
  Forall (fun x => ~ exists err, f x = Throw err) l ->
  exists l', map_outcome f l = Return l' /\ Forall2 (fun x y => f x = Return y) l l'.
Proof.
  induction 1 as [|x l Hx _ (l' & Hl' & HF)]; cbn; [by exists []|].
  destruct (f x) as [y|err] eqn:Hfx; [|exfalso; apply Hx; by exists err].
  cbn. rewrite Hl'. cbn. exists (y :: l'). split; [done|by constructor].
Qed.

Lemma level_of_made (e : Exchange) (v : value N) (l : OrderLevel (value N)) :
  level_of parseFloat e v = Return l -> level_made parseFloat e v l.
Proof.
  assert (Hparsed : parse_level parseFloat v = Return l -> parsed_from parseFloat v l).
  { unfold parse_level.
    intros (p0 & Hp0 & Hk)%bind_Return. apply bind_Return in Hk as (p & Hp & Hk).
    apply bind_Return in Hk as (q0 & Hq0 & Hk).
    apply bind_Return in Hk as (q & Hq & [= <-]). by exists p0, q0, p, q. }
  destruct e; cbn; try done.
  unfold raw_level.
  intros (p & Hp & Hk)%bind_Return. apply bind_Return in Hk as (q & Hq & [= <-]).
  by exists p, q.
Qed.

Lemma null_entry_unreadable (e : Exchange) (v : value N) :
  v = VNull \/ v = VUndefined -> unreadable parseFloat e v.
Proof. intros [-> | ->]; exists TypeError; by destruct e. Qed.

Lemma payload_data_truthy (e : Exchange) (message : value N) :
  book_payload JSON_parse e message ->
  parse e message = Return None \/
  exists bs as', payload_with JSON_parse e message bs as'.
Proof.
  destruct e; cbn [book_payload payload_with].
  - intros (props & d & rest & fields & bs & as' & -> & Hd & Hcarried & Hbids & Hasks).
    destruct (js_truthy d) eqn:Htruthy.
    + right. by exists bs, as', props, d, rest, fields.
    + left. cbn. unfold parseMessage_OKX. cbn. rewrite Hd. cbn. by rewrite Htruthy.
  - intros (props & d & t & fields & bs & as' & -> & Hd & Htopic & Hcontains &
            Hcarried & Hb & Ha).
    destruct (js_truthy d) eqn:Htruthy.
    + right. by exists bs, as', props, d, t, fields.
    + left. cbn. unfold parseMessage_Bybit. cbn. rewrite Hd. cbn. by rewrite Htruthy.
  - intros (props & params & fields & bs & as' & -> & Hparams & Hdata & Hbids & Hasks).
    right. by exists bs, as', props, params, fields.
Qed.

Lemma payload_unreadable (e : Exchange) (message : value N) (bs as' : list (value N)) :
  payload_with JSON_parse e message bs as' ->
  Exists (unreadable parseFloat e) (entries_read e bs ++ entries_read e as') ->
  parse e message = Return None.
Proof.
  intros (ts & ->)%payload_evaluates [Hb|Ha]%Exists_app.
  - by destruct (map_outcome_throws _ _ Hb) as (err & ->).
  - destruct (map_outcome_throws _ _ Ha) as (err & Herr).
    destruct (map_outcome _ (entries_read e bs)); [|done]. cbn. by rewrite Herr.
Qed.

Lemma payload_readable (e : Exchange) (message : value N) (bs as' : list (value N)) :
  payload_with JSON_parse e message bs as' ->
  Forall (fun v => ~ unreadable parseFloat e v) (entries_read e bs ++ entries_read e as') ->
  exists b, parse e message = Return (Some b) /\
            Forall2 (level_made parseFloat e) (entries_read e bs) (bids b) /\
            Forall2 (level_made parseFloat e) (entries_read e as') (asks b).
Proof.
  intros (ts & ->)%payload_evaluates [Hb Ha]%Forall_app.
  destruct (map_outcome_reads _ _ Hb) as (bids' & -> & HFb).
  destruct (map_outcome_reads _ _ Ha) as (asks' & -> & HFa).
  eexists. split; [reflexivity|]. cbn [bids asks].
  split; (eapply Forall2_impl; [eassumption|]); intros v l; apply level_of_made.
Qed.
End PayloadResults.

(** C4 (amended).  For every exchange and every engine:
    - a parser applied to a message other than [null] or [undefined] does
      not throw, and it returns [null] when the message does not have the
      envelope of an order-book payload of that exchange;
    - on a message that has the envelope it returns [null] when [data] is
      the empty text, and otherwise it returns [null] as soon as its
      callback throws on one of the entries it reads (a [null] entry, for
      one), and a book when the callback throws on none;
    - that book has a level for every entry read, in order, made by the
      callback from the first two elements of the entry: whatever
      [parseFloat] gives for them on OKX and Bybit, the elements
      themselves on Deribit.  No price and no quantity is checked;
    - the subscription acknowledgments and the heartbeat give [null], and
      the [onmessage] handler, which calls the parser, never throws. *)
Theorem parseMessage_not_payload :
  forall (N : Type) (HN : Number N)
         (parseFloat : value N -> outcome N)
         (JSON_parse : string -> outcome (value N)) (now : N) (e : Exchange),
    (forall message : value N,
        message <> VNull -> message <> VUndefined ->
        (exists r, parseMessage parseFloat JSON_parse now e message = Return r) /\
        (~ book_payload JSON_parse e message ->
         parseMessage parseFloat JSON_parse now e message = Return None))
    /\ (forall message : value N,
          book_payload JSON_parse e message ->
          parseMessage parseFloat JSON_parse now e message = Return None \/
          exists bs as', payload_with JSON_parse e message bs as')
    /\ (forall (message : value N) (bs as' : list (value N)),
          payload_with JSON_parse e message bs as' ->
          (Exists (unreadable parseFloat e) (entries_read e bs ++ entries_read e as') ->
           parseMessage parseFloat JSON_parse now e message = Return None) /\
          (Forall (fun v => ~ unreadable parseFloat e v)
                  (entries_read e bs ++ entries_read e as') ->
           exists b,
             parseMessage parseFloat JSON_parse now e message = Return (Some b) /\
             Forall2 (level_made parseFloat e) (entries_read e bs) (bids b) /\
             Forall2 (level_made parseFloat e) (entries_read e as') (asks b)))
    /\ (forall v : value N, v = VNull \/ v = VUndefined -> unreadable parseFloat e v)
    /\ parseMessage parseFloat JSON_parse now e (ack e) = Return None
    /\ parseMessage parseFloat JSON_parse now Deribit deribit_heartbeat = Return None
    /\ (forall event_data : string,
          exists r, onmessage parseFloat JSON_parse now e event_data = Return r).
Proof.
  intros N HN parseFloat JSON_parse now e.
  split; [|split; [|split; [|split; [|split; [|split]]]]].
  - intros message Hnull Hundef.
    destruct (parseMessage_returns parseFloat JSON_parse now e message Hnull Hundef)
      as [r Hr].
    split; [by exists r|]. intros Hnot.
    destruct r as [b|]; [|done].
    exfalso. apply Hnot. eapply parseMessage_Some_payload, Hr.
  - intros message. apply payload_data_truthy.
  - intros message bs as' Hpayload. split.
    + by apply payload_unreadable.
    + by apply payload_readable.
  - intros v. apply null_entry_unreadable.
  - by destruct e.
  - reflexivity.
  - intros event_data. apply onmessage_returns.
Qed.

Lemma parseMessage_not_payload_witness :
  let unread : value xnum :=
    obj [("params", obj [("data", obj [("bids", VArr [VNull]); ("asks", VArr [])])])] in
  (@ack xnum _ Bybit <> VNull /\ @ack xnum _ Bybit <> VUndefined /\
   ~ book_payload not_json Bybit (ack Bybit) /\
   parseMessage parseFloat_exact not_json clock Bybit (ack Bybit) = Return None) /\
  (payload_with not_json Deribit unread [VNull] [] /\
   Exists (unreadable parseFloat_exact Deribit)
     (entries_read Deribit [VNull] ++ entries_read Deribit []) /\
   parseMessage parseFloat_exact not_json clock Deribit unread = Return None).
Proof.
  intros unread.
  assert (Hnot : ~ book_payload not_json Bybit (@ack xnum _ Bybit)).
  { intros (props & d & t & fields & bs & as' & Hmsg & Hd & _).
    injection Hmsg as <-. vm_compute in Hd. discriminate. }
  assert (Hpayload : payload_with not_json Deribit unread [VNull] []).
  { eexists _, _, _. repeat split; reflexivity. }
  assert (Hunread : Exists (unreadable parseFloat_exact Deribit)
                      (entries_read Deribit [VNull] ++ entries_read Deribit [])).
  { apply Exists_cons_hd. by exists TypeError. }
  split.
  - split; [discriminate|]. split; [discriminate|]. split; [exact Hnot|].
    apply (proj1 (parseMessage_not_payload xnum _ parseFloat_exact not_json clock Bybit));
      [discriminate | discriminate | exact Hnot].
  - split; [exact Hpayload|]. split; [exact Hunread|].
    exact (proj1 (proj1 (proj2 (proj2
             (parseMessage_not_payload xnum _ parseFloat_exact not_json clock Deribit)))
             unread [VNull] [] Hpayload) Hunread).
Defined.

(** ** The service under arbitrary calls and events *)

Lemma attemptReconnect_backoff (s : WebSocketService) :
  backoff_state s -> backoff_state (attemptReconnect s).
Proof.
  intros [Hrange Htimers]. unfold backoff_state, attemptReconnect, maxReconnectAttempts in *.
  destruct (Z.leb_spec 5 (reconnectAttempts s)) as [Hle|Hlt]; [done|].
  split; [cbn [reconnectAttempts]; lia|]. cbn [timers].
  apply Forall_app; split; [done|]. constructor; [|constructor].
  assert (Hcases : (reconnectAttempts s = 0 \/ reconnectAttempts s = 1 \/
                    reconnectAttempts s = 2 \/ reconnectAttempts s = 3 \/
                    reconnectAttempts s = 4)%Z) by lia.
  unfold backoff_delay.
  destruct Hcases as [H|[H|[H|[H|H]]]]; rewrite H; cbn; repeat constructor.
Qed.

Lemma disconnect_backoff (s : WebSocketService) :
  backoff_state s -> backoff_state (disconnect s).
Proof. by intros [Hrange Htimers]. Qed.

Lemma connect_backoff e sym k (s : WebSocketService) :
  backoff_state s -> backoff_state (connect e sym k s).
Proof.
  intros Hs. unfold connect. destruct k.
  - apply attemptReconnect_backoff. by destruct Hs.
  - by destruct Hs.
Qed.

Lemma step_backoff (s : WebSocketService) (ev : event) :
  backoff_state s -> backoff_state (step s ev).
Proof.
  intros Hs. destruct ev as [| | |k]; cbn.
  - destruct Hs as [Hrange Htimers]. split; [cbn; unfold maxReconnectAttempts; lia|done].
  - done.
  - apply attemptReconnect_backoff. by destruct Hs.
  - unfold timer_fires. destruct (timer_pending s); [|done].
    cbn. destruct (currentExchange s) as [e|]; [|by destruct Hs].
    destruct (currentSymbol s) as [sym|]; [|by destruct Hs].
    destruct (_ && _); [|by destruct Hs].
    apply connect_backoff. by destruct Hs.
Qed.

(** X20.  Whatever the calls of [connect] and [disconnect] and the socket and
    timer events that reach a service, in any order, its attempt counter
    stays between 0 and 5 and every reconnection timer it has set has one
    of the delays 2000, 4000, 8000, 16000 and 30000 ms. *)
Theorem backoff_invariant :
  forall acts : list action,
    let s := history acts new_service in
    (0 <= reconnectAttempts s <= 5)%Z /\
    Forall (fun d => d ∈ [2000; 4000; 8000; 16000; 30000]%Z) (timers s).
Proof.
  intros acts.
  enough (H : forall s0, backoff_state s0 -> backoff_state (history acts s0)).
  { apply (H new_service). split; [cbn; unfold maxReconnectAttempts; lia|constructor]. }
  unfold history. induction acts as [|a acts IH]; intros s0 Hs0; [done|].
  cbn. apply IH. destruct a as [e sym k| |ev]; cbn.
  - by apply connect_backoff.
  - by apply disconnect_backoff.
  - by apply step_backoff.
Qed.

(** ** After [disconnect] *)

Lemma step_released (s : WebSocketService) (ev : event) :
  ev <> Opens -> released s -> released (step s ev).
Proof.
  intros Hev (Hsock & Hex & Hsym & Hcb). destruct ev as [| | |k]; [done|done| |].
  - cbn. unfold onclose, attemptReconnect. rewrite Hsock.
    by destruct (_ <=? _)%Z.
  - cbn. unfold timer_fires. destruct (timer_pending s); [|done].
    cbn. by rewrite Hex.
Qed.

(** X21.  [disconnect] is final.  After it the service holds no socket, no
    target and no callback, the pending reconnection timer is cancelled
    (its callback changes nothing), a second [disconnect] changes nothing,
    and no later close, error or timer event brings a socket or a target
    back: only a call of [connect] reconnects.  (A socket that was closed
    by [disconnect] does not open, so [Opens] is not among the events.) *)
Theorem disconnect_is_final (s : WebSocketService) (evs : list event) :
  Forall (fun ev => ev <> Opens) evs ->
  let s' := run evs (disconnect s) in
  socket s' = None /\ currentExchange s' = None /\ currentSymbol s' = None /\
  messageCallback s' = false /\ isConnected s' = false /\
  disconnect (disconnect s) = disconnect s /\
  (forall k, timer_fires k (disconnect s) = disconnect s).
Proof.
  intros Hevs s'.
  assert (Hrel : released s').
  { subst s'. unfold run.
    assert (H0 : released (disconnect s)) by done.
    revert H0. generalize (disconnect s).
    induction Hevs as [|ev evs Hev _ IH]; intros s0 H0; [done|].
    cbn. apply IH. by apply step_released. }
  destruct Hrel as (Hsock & Hex & Hsym & Hcb).
  repeat (split; [done|]). split; [|done].
  unfold isConnected. by rewrite Hsock.
Qed.

Lemma disconnect_is_final_witness :
  let s := run [Opens] (connect OKX "BTC-USDT" false new_service) in
  let evs := [Closes; Errors; TimerFires false; TimerFires true; Closes] in
  Forall (fun ev => ev <> Opens) evs /\
  isConnected s = true /\
  socket (run evs (disconnect s)) = None /\
  currentExchange (run evs (disconnect s)) = None /\
  currentSymbol (run evs (disconnect s)) = None /\
  messageCallback (run evs (disconnect s)) = false /\
  isConnected (run evs (disconnect s)) = false /\
  disconnect (disconnect s) = disconnect s /\
  (forall k, timer_fires k (disconnect s) = disconnect s).
Proof.
  intros s evs.
  assert (Hevs : Forall (fun ev => ev <> Opens) evs).
  { repeat constructor; discriminate. }
  split; [exact Hevs|]. split; [reflexivity|].
  exact (disconnect_is_final s evs Hevs).
Defined.

(** ** After the retries are exhausted *)

(** X22.  The attempt counter is reset by an [open] event only.  Once it has
    reached 5, a call of [connect] whose socket fails to open is not
    retried: no close, error or timer event sets another timer, and the
    service stays unconnected.  If the socket does open, the next close is
    retried after 2000 ms again. *)
Theorem exhausted_retries_need_an_open
    (s : WebSocketService) (e : Exchange) (sym : string) (k : bool) (evs : list event) :
  reconnectAttempts s = 5%Z ->
  Forall (fun ev => ev <> Opens) evs ->
  let s' := run evs (connect e sym k s) in
  timers s' = timers s /\ reconnectAttempts s' = 5%Z /\
  timer_pending s' = false /\ isConnected s' = false /\
  timers (run [Opens; Closes] (connect e sym false s)) = timers s ++ [2000%Z].
Proof.
  intros Hs Hevs s'.
  assert (Hinv : timers s' = timers s /\ reconnectAttempts s' = 5%Z /\
                 timer_pending s' = false /\ socket s' <> Some OPEN).
  { subst s'. unfold run.
    assert (H0 : timers (connect e sym k s) = timers s /\
                 reconnectAttempts (connect e sym k s) = 5%Z /\
                 timer_pending (connect e sym k s) = false /\
                 socket (connect e sym k s) <> Some OPEN).
    { unfold connect. destruct k; [|by cbn].
      rewrite attemptReconnect_exhausted; [by cbn|]. cbn.
      unfold maxReconnectAttempts. lia. }
    revert H0. generalize (connect e sym k s).
    induction Hevs as [|ev evs Hev _ IH]; intros s0 H0; [done|].
    cbn. apply IH. destruct H0 as (Ht & Ha & Hp & Hsock).
    destruct ev as [| | |k']; [done|done| |].
    - cbn. unfold onclose. rewrite attemptReconnect_exhausted.
      + cbn. repeat (split; [done|]). by destruct (socket s0).
      + cbn. unfold maxReconnectAttempts. lia.
    - cbn. unfold timer_fires. by rewrite Hp. }
  destruct Hinv as (Ht & Ha & Hp & Hsock).
  repeat (split; [done|]). split.
  - unfold isConnected. destruct (socket s') as [[]|]; done.
  - cbn. unfold onclose, attemptReconnect. cbn. done.
Qed.

Lemma exhausted_retries_need_an_open_witness :
  let s := mkService (Some CLOSED) 5 (Some 30000%Z) false (Some OKX) (Some "BTC-USDT")
                     true true [2000; 4000; 8000; 16000; 30000]%Z in
  let evs := [Closes; TimerFires false; Errors; Closes] in
  reconnectAttempts s = 5%Z /\ Forall (fun ev => ev <> Opens) evs /\
  timers (run evs (connect Bybit "BTCUSDT" false s)) = timers s /\
  reconnectAttempts (run evs (connect Bybit "BTCUSDT" false s)) = 5%Z /\
  timer_pending (run evs (connect Bybit "BTCUSDT" false s)) = false /\
  isConnected (run evs (connect Bybit "BTCUSDT" false s)) = false /\
  timers (run [Opens; Closes] (connect Bybit "BTCUSDT" false s)) = timers s ++ [2000%Z].
Proof.
  intros s evs.
  assert (Hevs : Forall (fun ev => ev <> Opens) evs).
  { repeat constructor; discriminate. }
  split; [reflexivity|]. split; [exact Hevs|].
  exact (exhausted_retries_need_an_open s Bybit "BTCUSDT" false evs eq_refl Hevs).
Defined.

(** ** The order form *)

(** X10.  An update that changes the exchange sets the symbol to the
    first one listed for the new exchange, whatever symbol the update
    names; an update to [Market] clears the price, whatever price the
    update names.  Hence the symbol of the form stays one that
    [getAvailableSymbols] lists for the exchange of the form, provided it
    was so before and the symbol named by an update that keeps the
    exchange, if any, is listed for it; nothing is asked of the symbol
    named by an update that changes the exchange.  The update of the
    page's [handleExchangeChange] always leaves a listed symbol, the first
    one of the exchange chosen, and the default form has a listed
    symbol. *)
Theorem updateForm_keeps_symbol_available :
  forall (N : Type) (HN : Number N) (updates : OrderFormUpdate N) (prev : OrderForm N),
    let f := updateForm updates prev in
    let listed (g : OrderForm N) :=
      symbol g ∈ getAvailableSymbols (exchange_name (exchange g)) in
    (forall e, upd_exchange updates = Some e -> e <> exchange prev ->
               exchange f = e /\
               head (getAvailableSymbols (exchange_name e)) = Some (symbol f) /\
               listed f) /\
    (upd_type updates = Some Market -> form_price f = None) /\
    (listed prev ->
     (exchange f = exchange prev ->
      forall sym, upd_symbol updates = Some sym ->
                  sym ∈ getAvailableSymbols (exchange_name (exchange prev))) ->
     listed f) /\
    (forall e, let g := updateForm (handleExchangeChange e) prev in
               exchange g = e /\
               head (getAvailableSymbols (exchange_name e)) = Some (symbol g) /\
               listed g) /\
    listed (@DEFAULT_FORM N HN).
Proof.
  intros N HN updates prev f listed. subst f listed. cbn beta.
  destruct updates as [ue us ut usd up uq ud]. cbn [upd_exchange upd_symbol upd_type] in *.
  split; [|split; [|split; [|split]]].
  - intros e [= ->] Hne. unfold updateForm.
    cbn [upd_exchange upd_symbol upd_type upd_side upd_price upd_quantity upd_delay].
    destruct e, (exchange prev) eqn:He; destruct ut as [[]|]; cbn;
      try done; (split; [done|]); (split; [done|]); repeat constructor.
  - intros [= ->]. unfold updateForm.
    cbn [upd_exchange upd_symbol upd_type upd_side upd_price upd_quantity upd_delay].
    destruct ue as [e|]; [|done].
    by destruct (negb _).
  - intros Hprev Hupd. revert Hupd. unfold updateForm.
    cbn [upd_exchange upd_symbol upd_type upd_side upd_price upd_quantity upd_delay].
    destruct ue as [e|].
    + destruct e, (exchange prev) eqn:He; destruct ut as [[]|];
        cbn in *; intros Hupd; try (repeat constructor; done);
        (destruct us as [sym|]; [by apply Hupd|done]).
    + destruct ut as [[]|]; cbn; intros Hupd;
        (destruct us as [sym|]; [by apply Hupd|done]).
  - intros e. unfold updateForm, handleExchangeChange.
    cbn [upd_exchange upd_symbol upd_type upd_side upd_price upd_quantity upd_delay].
    destruct e, (exchange prev) eqn:He; cbn;
      (split; [done|]); (split; [done|]); repeat constructor.
  - cbn. repeat constructor.
Qed.

Lemma updateForm_keeps_symbol_available_witness :
  let prev : OrderForm float := DEFAULT_FORM in
  let updates : OrderFormUpdate float :=
    mkUpdate (Some Deribit) (Some "ETH-USDT") (Some Market) None (Some (Some 100%float))
             None None in
  upd_exchange updates = Some Deribit /\
  (Deribit = exchange prev -> False) /\
  updateForm updates prev
    = mkForm Deribit "BTC-PERPETUAL" Market Buy None 1%float immediate /\
  updateForm (handleExchangeChange Bybit) prev
    = mkForm Bybit "BTCUSDT" Limit Buy (form_price prev) 1%float immediate /\
  (exchange (updateForm updates prev) = Deribit /\
   head (getAvailableSymbols (exchange_name Deribit))
     = Some (symbol (updateForm updates prev)) /\
   symbol (updateForm updates prev)
     ∈ getAvailableSymbols (exchange_name (exchange (updateForm updates prev)))).
Proof.
  intros prev updates.
  assert (Hue : upd_exchange updates = Some Deribit) by reflexivity.
  assert (Hne : Deribit <> exchange prev) by discriminate.
  split; [exact Hue|]. split; [exact Hne|]. split; [reflexivity|]. split; [reflexivity|].
  exact (proj1 (updateForm_keeps_symbol_available float _ updates prev) Deribit Hue Hne).
Defined.

(** ** The order-book hook *)

Section HookFacts.
Context {N : Type} `{!Number N}.

Lemma frames_keep_display (frames : list (option (OrderBook N))) (s : OrderBookState N) :
  orderBook (hook_run (map Frame frames) s) = orderBook s /\
  lastUpdateRef (hook_run (map Frame frames) s) = lastUpdateRef s.
Proof.
  revert s. induction frames as [|data frames IH]; intros s; [done|].
  change (hook_run (map Frame (data :: frames)) s)
    with (hook_run (map Frame frames) (handleOrderBookUpdate data s)).
  destruct (IH (handleOrderBookUpdate data s)) as [-> ->].
  unfold handleOrderBookUpdate. destruct data as [bookData|]; [|done].
  by destruct (nle _ _).
Qed.
End HookFacts.

(** X23.  Frames alone never change the displayed book: it changes when the
    timer of the debounced update elapses, and then it becomes the
    aggregation of the last frame accepted, whatever frames came before it
    since the timer was last set; the frames in between are never shown.
    The reference time becomes the time of that update, and the timer is
    spent: a second elapse changes nothing. *)
Theorem debounced_update_shows_last_frame :
  forall (N : Type) (HN : Number N) (s : OrderBookState N)
         (frames : list (option (OrderBook N))) (last : OrderBook N) (now now' : N),
    nle (timestamp last) (lastUpdateRef s) = false ->
    let s' := hook_run (map Frame frames ++ [Frame (Some last)]) s in
    let s'' := update_elapses now s' in
    orderBook s' = orderBook s /\
    orderBook s'' = processOrderBookData last /\
    lastUpdateRef s'' = now /\ pendingUpdateRef s'' = None /\
    update_elapses now' s'' = s''.
Proof.
  intros N HN s frames last now now' Hfresh s' s''. subst s'' s'.
  unfold hook_run. rewrite fold_left_app. fold (hook_run (map Frame frames) s).
  destruct (frames_keep_display frames s) as [Hbook Hlast].
  cbn [fold_left hook_step]. unfold handleOrderBookUpdate.
  rewrite Hlast, Hfresh. cbn. by rewrite Hbook.
Qed.

Lemma debounced_update_shows_last_frame_witness :
  let first := (mkBook [lv 99 1] [lv 100 1] 1700000000001)%float in
  let last := (mkBook [lv 98 4; lv 99 1] [lv 101 2; lv 100 1] 1700000000002)%float in
  let s' := hook_run [Frame (Some first); Frame None; Frame (Some last)] initial_hook in
  nle (timestamp last) (lastUpdateRef (@initial_hook float _)) = false /\
  orderBook s' = DEFAULT_ORDERBOOK /\
  orderBook (update_elapses 1700000000300%float s') = processOrderBookData last /\
  bids (orderBook (update_elapses 1700000000300%float s'))
    = [mkLevel 99 1 (Some 1) (Some 20); mkLevel 98 4 (Some 5) (Some 100)]%float.
Proof.
  intros first last s'.
  assert (Hfresh : nle (timestamp last) (lastUpdateRef (@initial_hook float _)) = false)
    by reflexivity.
  split; [exact Hfresh|].
  pose proof (debounced_update_shows_last_frame float _ initial_hook
                [Some first; None] last 1700000000300%float 0%float Hfresh)
    as (Hshown & Hupdated & _).
  split; [exact Hshown|]. split; [exact Hupdated|]. reflexivity.
Defined.

(** X24.  Whatever frames, timer events, socket errors, changes of target and
    resets reach the hook, in any order, the book it shows is the empty
    default book or the aggregation of a frame it received: a book with at
    most 15 levels a side. *)
Theorem displayed_book_is_aggregated :
  forall (N : Type) (HN : Number N) (evs : list (hook_event N)),
    let s := hook_run evs initial_hook in
    (orderBook s = DEFAULT_ORDERBOOK \/
     exists data, In (Frame (Some data)) evs /\ orderBook s = processOrderBookData data) /\
    length (bids (orderBook s)) <= 15 /\ length (asks (orderBook s)) <= 15.
Proof.
  intros N HN evs s.
  assert (Hinv : (orderBook s = DEFAULT_ORDERBOOK \/
                  exists data, In (Frame (Some data)) evs /\
                               orderBook s = processOrderBookData data) /\
                 forall data, updateTimer s = Some data -> In (Frame (Some data)) evs).
  { subst s. induction evs as [|ev evs IH] using rev_ind; [by split; [left|]|].
    unfold hook_run in *. rewrite fold_left_app. cbn [fold_left].
    set (s := fold_left hook_step evs initial_hook) in *.
    destruct IH as [Hbook Htimer].
    assert (Hbook' : orderBook s = DEFAULT_ORDERBOOK \/
                     exists data, In (Frame (Some data)) (evs ++ [ev]) /\
                                  orderBook s = processOrderBookData data).
    { destruct Hbook as [?|(data & Hin & ?)]; [by left|right].
      exists data. split; [|done]. apply in_or_app. by left. }
    assert (Htimer' : forall data, updateTimer s = Some data ->
                                   In (Frame (Some data)) (evs ++ [ev])).
    { intros data Hd. apply in_or_app. left. by apply Htimer. }
    destruct ev as [data|now| |sym|]; cbn [hook_step].
    - unfold handleOrderBookUpdate. destruct data as [bookData|]; [|done].
      destruct (nle _ _); cbn; [done|]. split; [done|].
      intros data [= <-]. apply in_or_app. right. by left.
    - unfold update_elapses, debounce_elapses.
      destruct (updateTimer s) as [data|] eqn:Ht; cbn; [|done].
      split; [|done]. right. exists data. split; [|done]. by apply Htimer'.
    - done.
    - unfold target_changes. destruct (String.eqb sym ""); cbn; [|done].
      split; [by left|done].
    - cbn. split; [by left|done]. }
  destruct Hinv as [Hbook _]. split; [done|].
  destruct Hbook as [->|(data & _ & ->)]; [cbn; lia|].
  apply processOrderBookData_lengths.
Qed.

(** ** Market orders at the edges *)

(** X2.  A market order that the best level of the opposite side can
    absorb is filled completely and touches one level, whatever the rest
    of the book holds: [fillPercentage] is exactly 100, [marketImpact] is
    [1 / levels * 100] and the label is ["Immediate"].  (Only [q - q],
    [q / q] and [1 * 100] are computed for the fill share, which are exact
    in binary64 too.) *)
Theorem market_order_within_best_level
    (f : OrderForm xnum) (book : OrderBook xnum) (best : OrderLevel xnum)
    (rest : list (OrderLevel xnum)) (q p bq : Q) :
  type f = Market -> form_quantity f = Fin q -> (0 < q)%Q ->
  bids book <> [] -> asks book <> [] ->
  consumed_side (side f) book = best :: rest ->
  price best = Fin p -> (0 < p)%Q -> quantity best = Fin bq -> (q <= bq)%Q ->
  exists r,
    simulateOrder f (Some book) = Return r /\
    fillPercentage r = Fin 100 /\
    marketImpact r =
      nmul (ndiv (of_nat 1) (of_nat (length (best :: rest)))) (of_Z 100) /\
    timeToFill r = Some "Immediate" /\ active r = true.
Proof.
  intros Hty Hfq Hq Hbids Hasks Hside Hp Hp0 Hbq Hle.
  rewrite simulateOrder_nonempty by done. rewrite Hty.
  unfold simulateMarket. fold (consumed_side (side f) book).
  rewrite Hside, Hfq. cbn [consume remainingQuantity totalValue filledLevels].
  change (@of_Z xnum _ 0) with (Fin 0). cbn [nle xnum_number xle].
  assert (Hq0 : Qle_bool q 0 = false) by (apply Qle_bool_false; lra).
  rewrite Hq0, Hp, Hbq. cbn [nmin xnum_number xmin xle].
  apply Qle_bool_iff in Hle. rewrite Hle.
  cbn [nsub nadd nmul xnum_number xsub xadd xmul]. unfold fin.
  rewrite (consume_nothing_left rest _ (Qred (q - q)));
    [|done|rewrite Qred_correct; lra].
  cbn [remainingQuantity totalValue filledLevels first_price mbind outcome_bind].
  rewrite Hp.
  eexists. split; [reflexivity|].
  cbn [fillPercentage marketImpact timeToFill active].
  split; [|done].
  cbn [ndiv nmul nsub xnum_number xsub xdiv xmul fin]. unfold fin.
  assert (Hq1 : Qeq_bool q 0 = false) by (apply Qeq_bool_false; lra).
  rewrite Hq1. change (@of_Z xnum _ 100) with (Fin 100). cbn [xmul]. unfold fin.
  f_equal. apply Qred_hundred. rewrite !Qred_correct. field. lra.
Qed.

Lemma market_order_within_best_level_witness :
  let f := mkForm OKX "BTC-USDT" Market Buy None (Fin 1) immediate in
  type f = Market /\ form_quantity f = Fin 1 /\ (0 < 1)%Q /\
  bids sample_exact_book <> [] /\ asks sample_exact_book <> [] /\
  consumed_side (side f) sample_exact_book
    = lv (Fin 100) (Fin 1) :: [lv (Fin 101) (Fin 2)] /\
  (0 < 100)%Q /\ (1 <= 1)%Q /\
  exists r,
    simulateOrder f (Some sample_exact_book) = Return r /\
    fillPercentage r = Fin 100 /\ marketImpact r = Fin 50 /\
    timeToFill r = Some "Immediate" /\ active r = true.
Proof.
  assert (Hq : (0 < 1)%Q) by reflexivity.
  assert (Hp : (0 < 100)%Q) by reflexivity.
  assert (Hle : (1 <= 1)%Q) by discriminate.
  assert (Hb : bids sample_exact_book <> []) by discriminate.
  assert (Ha : asks sample_exact_book <> []) by discriminate.
  split; [reflexivity|]. split; [reflexivity|]. split; [exact Hq|].
  split; [exact Hb|]. split; [exact Ha|]. split; [reflexivity|].
  split; [exact Hp|]. split; [exact Hle|].
  exact (market_order_within_best_level
           (mkForm OKX "BTC-USDT" Market Buy None (Fin 1) immediate)
           sample_exact_book (lv (Fin 100) (Fin 1)) [lv (Fin 101) (Fin 2)] 1 100 1
           eq_refl eq_refl Hq Hb Ha eq_refl eq_refl Hp eq_refl Hle).
Defined.

Lemma consume_zero_quantities (levels : list (OrderLevel xnum)) (r v : Q) (n : nat) :
  (0 < r)%Q ->
  Forall (fun l => is_finite (price l) /\ quantity l = Fin 0) levels ->
  exists r' v',
    consume levels (mkFill (Fin r) (Fin v) n) = mkFill (Fin r') (Fin v') (n + length levels) /\
    (r' == r)%Q /\ (v' == v)%Q.
Proof.
  intros Hr Hall. revert r v n Hr.
  induction Hall as [|l levels [(p & Hp) Hq] _ IH]; intros r v n Hr.
  - exists r, v. cbn. rewrite Nat.add_0_r. by split.
  - cbn [consume remainingQuantity totalValue filledLevels].
    change (@of_Z xnum _ 0) with (Fin 0). cbn [nle xnum_number xle].
    assert (Hr0 : Qle_bool r 0 = false) by (apply Qle_bool_false; lra).
    rewrite Hr0, Hp, Hq. cbn [nmin xnum_number xmin xle]. rewrite Hr0.
    cbn [nsub nadd nmul xnum_number xsub xadd xmul fin]. unfold fin.
    destruct (IH (Qred (r - 0)) (Qred (v + Qred (0 * p))) (S n)) as (r' & v' & Heq & Hr' & Hv').
    { rewrite Qred_correct. lra. }
    exists r', v'. rewrite Heq. split; [f_equal; cbn; lia|].
    rewrite Hr', Hv', !Qred_correct. split; ring.
Qed.

(** X1.  A market order against a side that holds no quantity (every
    level of it has quantity 0) fills nothing and still counts every level:
    [fillPercentage] is 0, [marketImpact] is 100, and the slippage is
    [NaN], the average price being [0 / 0].  (The operations involved,
    [q - 0], [0 * p], [0 / q], [0 / 0] and [n / n * 100], give the same
    results in binary64.) *)
Theorem market_order_on_empty_levels (f : OrderForm xnum) (book : OrderBook xnum) (q : Q) :
  type f = Market -> form_quantity f = Fin q -> (0 < q)%Q ->
  bids book <> [] -> asks book <> [] ->
  Forall (fun l => is_finite (price l) /\ quantity l = Fin 0)
         (consumed_side (side f) book) ->
  exists r,
    simulateOrder f (Some book) = Return r /\
    fillPercentage r = Fin 0 /\ marketImpact r = Fin 100 /\ slippage r = NaN /\
    timeToFill r = Some "Immediate" /\ active r = true.
Proof.
  intros Hty Hfq Hq Hbids Hasks Hzero.
  rewrite simulateOrder_nonempty by done. rewrite Hty.
  assert (exists best rest, consumed_side (side f) book = best :: rest)
    as (best & rest & Hside).
  { unfold consumed_side. destruct (side f).
    - destruct (asks book) as [|a l]; [done|]. by exists a, l.
    - destruct (bids book) as [|a l]; [done|]. by exists a, l. }
  unfold simulateMarket. fold (consumed_side (side f) book).
  rewrite Hside in *. rewrite Hfq.
  destruct (consume_zero_quantities (best :: rest) q 0 0 Hq Hzero)
    as (r' & v' & Heq & Hr' & Hv').
  change (@of_Z xnum _ 0) with (Fin 0). rewrite !Heq.
  cbn [remainingQuantity totalValue filledLevels first_price mbind outcome_bind].
  apply Forall_cons in Hzero as [[(p & Hp) _] _]. rewrite Hp.
  eexists. split; [reflexivity|].
  cbn [fillPercentage marketImpact slippage timeToFill active].
  assert (Hq1 : Qeq_bool q 0 = false) by (apply Qeq_bool_false; lra).
  assert (Hd : Qeq_bool (Qred (q - r')) 0 = true).
  { apply Qeq_bool_iff. rewrite Qred_correct, Hr'. ring. }
  assert (Hv0 : Qeq_bool v' 0 = true) by (by apply Qeq_bool_iff).
  change (@of_Z xnum _ 100) with (Fin 100).
  split; [|split; [|split; [|done]]].
  - cbn [ndiv nmul nsub xnum_number xsub xdiv xmul fin]. unfold fin.
    rewrite Hq1. cbn [xmul fin]. unfold fin. f_equal.
    apply Qred_zero. rewrite !Qred_correct, Hr'. field. lra.
  - rewrite !of_nat_exact. cbn [Nat.add length].
    set (n := inject_Z (Z.of_nat (S (length rest)))).
    assert (Hn : (0 < n)%Q).
    { subst n. change 0%Q with (inject_Z 0). rewrite <- Zlt_Qlt. lia. }
    assert (Hn0 : Qeq_bool n 0 = false) by (apply Qeq_bool_false; lra).
    cbn [ndiv nmul xnum_number xdiv xmul fin]. rewrite Hn0. cbn [xmul fin]. unfold fin.
    f_equal. apply Qred_hundred. rewrite !Qred_correct. field. lra.
  - cbn [ndiv nmul nsub nmax xnum_number xsub xdiv fin]. unfold fin.
    rewrite Hd. unfold inf_of_sign. rewrite Hv0. by destruct (side f).
Qed.

Lemma market_order_on_empty_levels_witness :
  let f := mkForm OKX "BTC-USDT" Market Buy None (Fin 1) immediate in
  let book := mkBook [lv (Fin 100) (Fin 1)] [lv (Fin 101) (Fin 0); lv (Fin 102) (Fin 0)]
                     (Fin 1700000000000) in
  type f = Market /\ form_quantity f = Fin 1 /\ (0 < 1)%Q /\
  bids book <> [] /\ asks book <> [] /\
  Forall (fun l => is_finite (price l) /\ quantity l = Fin 0)
         (consumed_side (side f) book) /\
  exists r,
    simulateOrder f (Some book) = Return r /\
    fillPercentage r = Fin 0 /\ marketImpact r = Fin 100 /\ slippage r = NaN /\
    timeToFill r = Some "Immediate" /\ active r = true.
Proof.
  intros f book.
  assert (Hq : (0 < 1)%Q) by reflexivity.
  assert (Hb : bids book <> []) by discriminate.
  assert (Ha : asks book <> []) by discriminate.
  assert (Hz : Forall (fun l => is_finite (price l) /\ quantity l = Fin 0)
                 (consumed_side (side f) book)).
  { repeat constructor; eexists; reflexivity. }
  split; [reflexivity|]. split; [reflexivity|]. split; [exact Hq|].
  split; [exact Hb|]. split; [exact Ha|]. split; [exact Hz|].
  exact (market_order_on_empty_levels f book 1 eq_refl eq_refl Hq Hb Ha Hz).
Defined.

(** ** Helpers for the market impact *)

Lemma xmin_hundred_range (hi : Q) (x : xnum) :
  in_range 0 hi x -> in_range 0 hi (xmin (Fin 100) x).
Proof.
  intros (y & -> & Hy). cbn.
  destruct (Qle_bool 100 y) eqn:Hle.
  - apply Qle_bool_iff in Hle. exists 100%Q. split; [done|]. lra.
  - by exists y.
Qed.

(** ** Shares in range *)

(** X3.  On a pre-validated form and a book of finite non-negative
    prices and quantities with both sides non-empty, [simulateOrder]
    returns an active result for that form whose [fillPercentage] and
    [marketImpact] are in [0,100].  (The remaining quantity stays between
    0 and the order's quantity and the level counts between 0 and the
    number of levels, so the bounds do not depend on rounding.) *)
Theorem simulated_shares_in_range (f : OrderForm xnum) (book : OrderBook xnum) :
  valid_form f -> bids book <> [] -> asks book <> [] ->
  Forall valid_level (bids book ++ asks book) ->
  exists r, simulateOrder f (Some book) = Return r /\
            active r = true /\ form r = f /\
            in_range 0 100 (fillPercentage r) /\
            in_range 0 100 (marketImpact r).
Proof.
  intros Hform Hb Ha Hvalid.
  destruct (simulateOrder_in_range f book Hform Hb Ha Hvalid)
    as (r & Hr & Hfill & Himpact & _).
  destruct (simulateOrder_active f book Hb Ha) as (r' & Hr' & Hact & Hf).
  assert (r' = r) as -> by congruence.
  by exists r.
Qed.

Lemma simulated_shares_in_range_witness :
  valid_form sample_limit_buy /\
  bids sample_exact_book <> [] /\ asks sample_exact_book <> [] /\
  Forall valid_level (bids sample_exact_book ++ asks sample_exact_book) /\
  exists r, simulateOrder sample_limit_buy (Some sample_exact_book) = Return r /\
            active r = true /\ form r = sample_limit_buy /\
            in_range 0 100 (fillPercentage r) /\
            in_range 0 100 (marketImpact r).
Proof.
  assert (Hb : bids sample_exact_book <> []) by discriminate.
  assert (Ha : asks sample_exact_book <> []) by discriminate.
  split; [exact sample_limit_buy_valid|]. split; [exact Hb|]. split; [exact Ha|].
  split; [exact sample_exact_book_valid|].
  exact (simulated_shares_in_range sample_limit_buy sample_exact_book
           sample_limit_buy_valid Hb Ha sample_exact_book_valid).
Defined.

(** ** Limit orders that cross nothing, and the market impact of a limit order *)

(** X4.  A limit sell priced above every bid fills nothing, and its
    slippage is 100, not 0: [fillPercentage] is 0, the average price of the
    empty fill is [0 / 1 = 0] and the sell formula gives
    [(p - 0) / p * 100 = 100].  (No rounding is involved: the same holds in
    binary64.) *)
Theorem limit_sell_above_bids (f : OrderForm xnum) (book : OrderBook xnum) (p : Q) :
  type f = Limit -> side f = Sell ->
  finite_pos (form_quantity f) -> form_price f = Some (Fin p) -> (0 < p)%Q ->
  bids book <> [] -> asks book <> [] ->
  Forall valid_level (bids book ++ asks book) ->
  Forall (fun l => exists a, price l = Fin a /\ (a < p)%Q) (bids book) ->
  exists r, simulateOrder f (Some book) = Return r /\
            fillPercentage r = Fin 0 /\ in_range 0 100 (marketImpact r) /\
            slippage r = Fin 100.
Proof.
  intros Hty Hside Hq Hprice Hp Hbids Hasks Hvalid Hbelow.
  destruct (simulateLimit_exact f book p Hq Hprice Hp Hbids Hasks Hvalid)
    as (r & Hr & _ & Himpact & Hslip).
  rewrite Hside in Hslip.
  rewrite simulateOrder_nonempty by done. rewrite Hty.
  exists r. split; [done|].
  assert (Hfill : fillPercentage r = Fin 0).
  { destruct (form_quantity f) as [q| | |] eqn:Hfq; try done. cbn in Hq.
    unfold simulateLimit in Hr.
    rewrite Hside, Hprice, Hfq, (or_else_pos p _ Hp) in Hr.
    rewrite filter_none in Hr.
    - cbn in Hr. assert (Hq0 : Qeq_bool q 0 = false) by (apply Qeq_bool_false; lra).
      rewrite Hq0 in Hr. injection Hr as <-. cbn [fillPercentage]. unfold fin.
      f_equal. apply Qred_zero. rewrite !Qred_correct. field. lra.
    - eapply Forall_impl; [exact Hbelow|]. intros l (a & Ha & Hlt). cbn beta.
      rewrite Ha. cbn. by apply Qle_bool_false. }
  split; [done|]. split; [done|].
  destruct Hslip as [[_ Hs]|[Hne _]]; [done|]. by rewrite Hfill in Hne.
Qed.

Lemma limit_sell_above_bids_witness :
  let f := mkForm OKX "BTC-USDT" Limit Sell (Some (Fin 105)) (Fin 3) immediate in
  type f = Limit /\ side f = Sell /\ finite_pos (form_quantity f) /\
  form_price f = Some (Fin 105) /\ (0 < 105)%Q /\
  bids sample_exact_book <> [] /\ asks sample_exact_book <> [] /\
  Forall valid_level (bids sample_exact_book ++ asks sample_exact_book) /\
  Forall (fun l => exists a, price l = Fin a /\ (a < 105)%Q) (bids sample_exact_book) /\
  exists r, simulateOrder f (Some sample_exact_book) = Return r /\
            fillPercentage r = Fin 0 /\ in_range 0 100 (marketImpact r) /\
            slippage r = Fin 100.
Proof.
  assert (Hq : finite_pos (Fin 3)) by reflexivity.
  assert (Hp : (0 < 105)%Q) by reflexivity.
  assert (Hb : bids sample_exact_book <> []) by discriminate.
  assert (Ha : asks sample_exact_book <> []) by discriminate.
  assert (Hbelow : Forall (fun l => exists a, price l = Fin a /\ (a < 105)%Q)
                     (bids sample_exact_book)).
  { repeat constructor; eexists; (split; [reflexivity|reflexivity]). }
  split; [reflexivity|]. split; [reflexivity|]. split; [exact Hq|].
  split; [reflexivity|]. split; [exact Hp|]. split; [exact Hb|]. split; [exact Ha|].
  split; [exact sample_exact_book_valid|]. split; [exact Hbelow|].
  exact (limit_sell_above_bids
           (mkForm OKX "BTC-USDT" Limit Sell (Some (Fin 105)) (Fin 3) immediate)
           sample_exact_book 105 eq_refl eq_refl Hq eq_refl Hp Hb Ha
           sample_exact_book_valid Hbelow).
Defined.

(** X26.  The market impact of a limit order never exceeds 75, and it is
    at most 50 when the order is not filled completely, that is when the
    [fillPercentage] returned is below 100; the [fillPercentage] is in
    [0,100].  (The impact is a ratio of level counts times 50 or 75, so
    the bounds do not depend on rounding.) *)
Theorem limit_impact_bounds (f : OrderForm xnum) (book : OrderBook xnum) (q p : Q) :
  type f = Limit -> form_quantity f = Fin q -> (0 < q)%Q ->
  form_price f = Some (Fin p) -> (0 < p)%Q ->
  bids book <> [] -> asks book <> [] ->
  Forall valid_level (bids book ++ asks book) ->
  exists r,
    simulateOrder f (Some book) = Return r /\
    in_range 0 100 (fillPercentage r) /\
    in_range 0 75 (marketImpact r) /\
    (xlt (fillPercentage r) (Fin 100) = true -> in_range 0 50 (marketImpact r)).
Proof.
  intros Hty Hfq Hq Hprice Hp Hbids Hasks Hvalid.
  rewrite simulateOrder_nonempty by done. rewrite Hty.
  apply Forall_app in Hvalid as [Hvb Hva].
  unfold simulateLimit. rewrite Hprice, Hfq, (or_else_pos p _ Hp).
  set (levels := match side f with Buy => asks book | Sell => bids book end).
  set (fillable := match side f with
                   | Buy => List.filter _ levels
                   | Sell => List.filter _ levels
                   end).
  set (relevant := match side f with Buy => bids book | Sell => asks book end).
  assert (Hlv : Forall valid_level levels) by (subst levels; by destruct (side f)).
  assert (Hlen : 1 <= length levels).
  { subst levels. destruct (side f); [destruct (asks book)|destruct (bids book)];
      try done; cbn; lia. }
  assert (Hdepth : 1 <= length relevant).
  { subst relevant. destruct (side f); [destruct (bids book)|destruct (asks book)];
      try done; cbn; lia. }
  assert (Hfv : Forall valid_level fillable).
  { subst fillable. destruct (side f);
      (eapply Forall_impl; [apply filter_Forall, Hlv|]); by intros l [Hl _]. }
  assert (Hfl : length fillable <= length levels).
  { subst fillable. destruct (side f); apply filter_length_le. }
  destruct (consume_exact fillable q 0 0)
    as (r' & v' & n' & Heq & Hr' & _); [lra|done|].
  change (@of_Z xnum _ 0) with (Fin 0). rewrite !Heq.
  cbn [remainingQuantity totalValue filledLevels mbind outcome_bind].
  destruct (fill_percentage_exact q r' Hq Hr') as (x & Hx & Hxval & Hxr).
  rewrite Hx.
  eexists. split; [reflexivity|].
  cbn [fillPercentage marketImpact]. split.
  { exists (Qred x). split; [done|]. by rewrite Qred_correct. }
  change (@of_Z xnum _ 100) with (Fin 100). change (@of_Z xnum _ 50) with (Fin 50).
  change (@of_Z xnum _ 75) with (Fin 75). change (@of_Z xnum _ 1) with (Fin 1).
  cbn [nmin nsub ndiv nmul nlt xnum_number].
  assert (Hpos : in_range 0 50
            (xmul (xsub (Fin 1)
                     (xdiv (@of_nat xnum _ (find_position (side f) (Fin p) relevant 0))
                           (of_nat (length relevant)))) (Fin 50))).
  { apply position_impact; [|done].
    apply (find_position_bound (side f) (Fin p) relevant 0). }
  assert (Hfull : in_range 0 75
            (xmul (xdiv (@of_nat xnum _ (length fillable)) (of_nat (length levels)))
                  (Fin 75))).
  { rewrite !of_nat_exact.
    destruct (ratio_times (inject_Z (Z.of_nat (length fillable)))
                (inject_Z (Z.of_nat (length levels))) 75) as (y & Hy & _ & Hyr).
    - change 0%Q with (inject_Z 0). rewrite <- Zlt_Qlt. lia.
    - split; [change 0%Q with (inject_Z 0); rewrite <- Zle_Qle; lia|].
      by apply inject_nat_le.
    - lra.
    - rewrite Hy. exists (Qred y). split; [done|]. rewrite Qred_correct. lra. }
  destruct (xlt (Fin (Qred x)) (Fin 100)) eqn:Hlt100.
  - split; [apply xmin_hundred_range, (in_range_weaken 0 50); [lra|done]|].
    intros _. by apply xmin_hundred_range.
  - split; [by apply xmin_hundred_range|]. done.
Qed.

Lemma limit_impact_bounds_witness :
  type sample_limit_buy = Limit /\ form_quantity sample_limit_buy = Fin 3 /\
  (0 < 3)%Q /\ form_price sample_limit_buy = Some (Fin 100) /\ (0 < 100)%Q /\
  bids sample_exact_book <> [] /\ asks sample_exact_book <> [] /\
  Forall valid_level (bids sample_exact_book ++ asks sample_exact_book) /\
  exists r,
    simulateOrder sample_limit_buy (Some sample_exact_book) = Return r /\
    in_range 0 100 (fillPercentage r) /\
    in_range 0 75 (marketImpact r) /\
    (xlt (fillPercentage r) (Fin 100) = true -> in_range 0 50 (marketImpact r)).
Proof.
  assert (Hq : (0 < 3)%Q) by reflexivity.
  assert (Hp : (0 < 100)%Q) by reflexivity.
  assert (Hb : bids sample_exact_book <> []) by discriminate.
  assert (Ha : asks sample_exact_book <> []) by discriminate.
  split; [reflexivity|]. split; [reflexivity|]. split; [exact Hq|].
  split; [reflexivity|]. split; [exact Hp|]. split; [exact Hb|]. split; [exact Ha|].
  split; [exact sample_exact_book_valid|].
  exact (limit_impact_bounds sample_limit_buy sample_exact_book 3 100
           eq_refl eq_refl Hq eq_refl Hp Hb Ha sample_exact_book_valid).
Defined.

(** ** Volume shares *)





(** ** Binary64: where rounding shows, and where it does not

    The inputs below are decimal fractions that binary64 does not hold
    exactly ([0x1.999999999999ap-4] is [0.1], [0x1.999999999999ap-3] is
    [0.2], [0x1.3333333333333p-2] is [0.3]).  The shares and bounds stated
    above hold on them as they are; the slippage of a filled market order
    and the sum of the two volume shares carry the rounding. *)

(** A market order for 3 against an only ask of 5 at 0.1: filled
    completely on one level; the slippage is a rounding residue above 0. *)
Example rounded_market_order :
  match (simulateOrder (mkForm OKX "BTC-USDT" Market Buy None 3 immediate)
           (Some (mkBook [lv 0x1.8p-4 1] [lv 0x1.999999999999ap-4 5] 1700000000000)))%float
  with
  | Return r =>
      fillPercentage r = 100%float /\ marketImpact r = 100%float /\
      nlt 0%float (slippage r) = true /\ nlt (slippage r) 0x1p-46%float = true
  | Throw _ => False
  end.
Proof. vm_compute. by repeat split. Qed.

(** A limit buy for 7 at 0.1 against asks of 5 at 0.1 and 1 at 0.2: five
    sevenths are filled, and the impact of the partial fill is at most
    50. *)
Example rounded_limit_order :
  match (simulateOrder
           (mkForm OKX "BTC-USDT" Limit Buy (Some 0x1.999999999999ap-4) 7 immediate)
           (Some (mkBook [lv 0x1.8p-4 1]
                         [lv 0x1.999999999999ap-4 5; lv 0x1.999999999999ap-3 1]
                         1700000000000)))%float
  with
  | Return r =>
      nlt 71%float (fillPercentage r) = true /\ nlt (fillPercentage r) 72%float = true /\
      marketImpact r = 50%float /\ slippage r = 0%float
  | Throw _ => False
  end.
Proof. vm_compute. by repeat split. Qed.

(** Bids of 0.1 and 0.2 against an ask of 0.3: the running total of the
    bids is [0.1 + 0.2], which is above [0.3]; every percentage is in
    [0,100]; the two volume shares are in [0,100] and their sum is below
    100. *)
Example rounded_depth_and_shares :
  let book := (mkBook [lv 99 0x1.999999999999ap-4; lv 98 0x1.999999999999ap-3]
                      [lv 100 0x1.3333333333333p-2] 1700000000000)%float in
  quantity_sum (bids (processOrderBookData book))
    = (0x1.999999999999ap-4 + 0x1.999999999999ap-3)%float /\
  nlt 0x1.3333333333333p-2%float (quantity_sum (bids (processOrderBookData book))) = true /\
  forallb (fun l => match percentage l with
                    | Some p => nle 0%float p && nle p 100%float
                    | None => false
                    end)
          (bids (processOrderBookData book) ++ asks (processOrderBookData book)) = true /\
  bidPercentage book = 50%float /\
  nlt (askPercentage book) 50%float = true /\
  nlt (nadd (bidPercentage book) (askPercentage book)) 100%float = true /\
  imbalanceDirection book = "buy".
Proof. vm_compute. by repeat split. Qed.

(** Two bids of [2^1023]: their sum overflows, and the bid share is
    [Infinity / Infinity * 100 = NaN]. *)
Example overflowing_volume_shares :
  let book := (mkBook [lv 99 0x1p1023; lv 98 0x1p1023] [lv 100 1] 1700000000000)%float in
  bidVolume book = infinity /\
  nle 0%float (bidPercentage book) = false /\
  nle (bidPercentage book) 100%float = false.
Proof. vm_compute. by repeat split. Qed.
